(** * CodeScoop: selector resolution, target matching, cascade and ghost classes

    A shallow embedding of the CSS core of CodeScoop:
    - [css-analyzer.js]  (resolveNestedSelector, expandModernPseudoClasses,
      buildTargetSelectors, checkRuleMatch, checkShadowDOMMatch, escapeRegex,
      detectMinified, formatAtRuleContext, the parse cache of analyzeCSS and
      its walk over rules and keyframes),
    - [specificity-calculator.js]  (calculateSpecificity, compareSpecificity,
      hasImportant, parseProperties, analyzeConflicts, truncateValue,
      getFileName, the effect of formatConflictsMarkdown on its argument),
    - [ghost-detector.js]  (detectGhostClasses),
    followed by the properties the specification states about them (Part III)
    and by further properties read off the code (Part IV).

    Conventions of the embedding.
    - A JavaScript string is a [string]: a sequence of code units below 256.
    - A plain object used as a dictionary ([fileOrder], [propertyRules],
      [conflicts]) is a [gmap string _]; keys are file paths and CSS property
      names, and the member names of [Object.prototype] are outside the model.
    - A record field that the code reads through [x || default] is stored
      with the default already substituted. *)

From Stdlib Require Import Ascii String ZArith Lia List Permutation Sorted.
From Stdlib Require QArith.
From stdpp Require Import base option list gmap strings.

Local Open Scope string_scope.

(* ===================================================================== *)
(** * Part I: definitions                                                 *)
(* ===================================================================== *)

(** ** JavaScript string primitives used by the sources *)

Module JsString.

(** The code units below 256 that [\s] and [String.prototype.trim] treat as
    white space: TAB, LF, VT, FF, CR, SPACE and NBSP. *)
Definition isWhiteSpace (c : ascii) : bool :=
  let n := nat_of_ascii c in
  (Nat.eqb n 9 || Nat.eqb n 10 || Nat.eqb n 11 || Nat.eqb n 12 || Nat.eqb n 13
   || Nat.eqb n 32 || Nat.eqb n 160)%bool.

(** [s.startsWith(p)] *)
Fixpoint startsWith (s p : string) : bool :=
  match p, s with
  | EmptyString, _ => true
  | String a p', String b s' => Ascii.eqb a b && startsWith s' p'
  | String _ _, EmptyString => false
  end.

(** [s.includes(p)] *)
Fixpoint includes (s p : string) : bool :=
  startsWith s p ||
  match s with
  | EmptyString => false
  | String _ t => includes t p
  end.

(** [s.substring(n)] *)
Fixpoint substringFrom (n : nat) (s : string) : string :=
  match n, s with
  | O, _ => s
  | S n', String _ t => substringFrom n' t
  | S _, EmptyString => EmptyString
  end.

Fixpoint trimStart (s : string) : string :=
  match s with
  | EmptyString => EmptyString
  | String c t => if isWhiteSpace c then trimStart t else s
  end.

Fixpoint trimEnd (s : string) : string :=
  match s with
  | EmptyString => EmptyString
  | String c t =>
      match trimEnd t with
      | EmptyString => if isWhiteSpace c then EmptyString else String c EmptyString
      | t' => String c t'
      end
  end.

(** [s.trim()] *)
Definition trim (s : string) : string := trimEnd (trimStart s).

(** [s.split(sep)] for a one-character separator: never the empty array. *)
Fixpoint split (sep : ascii) (s : string) : list string :=
  match s with
  | EmptyString => [EmptyString]
  | String c t =>
      if Ascii.eqb c sep then EmptyString :: split sep t
      else match split sep t with
           | h :: r => String c h :: r
           | [] => [String c EmptyString]
           end
  end.

(** [parts.join(sep)] *)
Fixpoint join (sep : string) (parts : list string) : string :=
  match parts with
  | [] => EmptyString
  | [p] => p
  | p :: rest => p ++ sep ++ join sep rest
  end.

(** [s.indexOf(c)] for a one-character needle, split at the hit:
    [Some (before, after)], or [None] for [-1]. *)
Fixpoint cutAt (c : ascii) (s : string) : option (string * string) :=
  match s with
  | EmptyString => None
  | String d t =>
      if Ascii.eqb d c then Some (EmptyString, t)
      else match cutAt c t with
           | Some (b, a) => Some (String d b, a)
           | None => None
           end
  end.

(** [s.replace(pat, '')] with a string pattern: the first occurrence goes. *)
Fixpoint removeFirst (s pat : string) : string :=
  if startsWith s pat then substringFrom (String.length pat) s
  else match s with
       | EmptyString => EmptyString
       | String c t => String c (removeFirst t pat)
       end.

(** The replacement text of [String.prototype.replace] for a pattern with no
    capture group (GetSubstitution): [$$] is a dollar, [$&] the matched text,
    [$`] the text before the match, [$'] the text after it; any other [$] is
    literal. *)
Fixpoint getSubstitution (tpl matched before after : string) : string :=
  match tpl with
  | EmptyString => EmptyString
  | String c rest =>
      if Ascii.eqb c "$" then
        match rest with
        | String d rest' =>
            if Ascii.eqb d "$" then String "$" (getSubstitution rest' matched before after)
            else if Ascii.eqb d "&" then matched ++ getSubstitution rest' matched before after
            else if Ascii.eqb d "`" then before ++ getSubstitution rest' matched before after
            else if Ascii.eqb d "'" then after ++ getSubstitution rest' matched before after
            else String "$" (String d (getSubstitution rest' matched before after))
        | EmptyString => String "$" EmptyString
        end
      else String c (getSubstitution rest matched before after)
  end.

(** [s.replace(/&/g, p)]; [before] is the part of the subject already passed. *)
Fixpoint replaceAmpFrom (before s p : string) : string :=
  match s with
  | EmptyString => EmptyString
  | String c t =>
      if Ascii.eqb c "&" then
        getSubstitution p "&" before t ++ replaceAmpFrom (before ++ "&") t p
      else String c (replaceAmpFrom (before ++ String c EmptyString) t p)
  end.

Definition replaceAmp (s p : string) : string := replaceAmpFrom EmptyString s p.

(** Membership of a code unit in the characters of [set]. *)
Fixpoint charIn (set : string) (c : ascii) : bool :=
  match set with
  | EmptyString => false
  | String d t => Ascii.eqb c d || charIn t c
  end.

End JsString.

(** ** Regular expressions

    The fragment of the RegExp language the sources use, as a syntax tree, with
    a backtracking matcher.  [bos] records whether the current position is
    index 0 of the subject, which is what [^] tests (no pattern has the [m]
    flag). *)

Module Regex.

Inductive regex : Type :=
| Eps                                   (* the empty pattern *)
| Chr (c : ascii)                       (* a literal code unit *)
| Cls (p : ascii -> bool)               (* a character class: [...], \s, \d *)
| Cat (r1 r2 : regex)                   (* r1 r2 *)
| Alt (r1 r2 : regex)                   (* r1|r2 *)
| Opt (r : regex)                       (* r? *)
| Plus (p : ascii -> bool)              (* [...]+ over a character class *)
| Bos                                   (* ^ *)
| Eos                                   (* $ *)
| Ahead (r : regex).                    (* (?=r) *)

(** The run of a greedy [p+] after its first character, with backtracking. *)
Fixpoint plusLoop (p : ascii -> bool) (s : string) (k : bool -> string -> bool) : bool :=
  match s with
  | String d t => if p d then plusLoop p t k || k false s else k false s
  | EmptyString => k false s
  end.

(** [rmatch r bos s k]: can [r] match a prefix of [s] such that the
    continuation [k] accepts the rest? *)
Fixpoint rmatch (r : regex) (bos : bool) (s : string) (k : bool -> string -> bool) : bool :=
  match r with
  | Eps => k bos s
  | Chr c =>
      match s with
      | String d t => if Ascii.eqb c d then k false t else false
      | EmptyString => false
      end
  | Cls p =>
      match s with
      | String d t => if p d then k false t else false
      | EmptyString => false
      end
  | Cat r1 r2 => rmatch r1 bos s (fun bos' s' => rmatch r2 bos' s' k)
  | Alt r1 r2 => rmatch r1 bos s k || rmatch r2 bos s k
  | Opt r1 => rmatch r1 bos s k || k bos s
  | Plus p =>
      match s with
      | String d t => if p d then plusLoop p t k else false
      | EmptyString => false
      end
  | Bos => if bos then k bos s else false
  | Eos =>
      match s with
      | EmptyString => k bos s
      | String _ _ => false
      end
  | Ahead r1 => if rmatch r1 bos s (fun _ _ => true) then k bos s else false
  end.

(** A match attempt at every start index, the end of the subject included. *)
Fixpoint search (r : regex) (bos : bool) (s : string) : bool :=
  rmatch r bos s (fun _ _ => true) ||
  match s with
  | EmptyString => false
  | String _ t => search r false t
  end.

(** [pattern.test(s)] for a pattern without the [g] flag. *)
Definition test (r : regex) (s : string) : bool := search r true s.

(** A literal text. *)
Fixpoint lit (s : string) : regex :=
  match s with
  | EmptyString => Eps
  | String c t => Cat (Chr c) (lit t)
  end.

(** [(a|b|...)] over literal alternatives. *)
Fixpoint alts (l : list string) : regex :=
  match l with
  | [] => Cls (fun _ => false)
  | [a] => lit a
  | a :: rest => Alt (lit a) (alts rest)
  end.

Definition isDigit (c : ascii) : bool :=
  let n := nat_of_ascii c in (Nat.leb 48 n && Nat.leb n 57)%bool.

(** The syntax characters [escapeRegex] protects: [.*+?^${}()|[\]\\]. *)
Definition isSyntaxChar (c : ascii) : bool :=
  JsString.charIn ".*+?^${}()|[]\" c.

(** The pattern a RegExp source fragment denotes when every backslash in it
    escapes a syntax character and no syntax character stands unescaped, as
    in the output of [escapeRegex]: the text itself, backslashes dropped. *)
Fixpoint ofEscaped (src : string) : regex :=
  match src with
  | EmptyString => Eps
  | String c rest =>
      if Ascii.eqb c "\" then
        match rest with
        | String d rest' => Cat (Chr d) (ofEscaped rest')
        | EmptyString => Chr c
        end
      else Cat (Chr c) (ofEscaped rest)
  end.

(** [^] holds at a position exactly when nothing precedes it. *)
Definition bosAfter (b : bool) (pre : string) : bool :=
  match pre with
  | EmptyString => b
  | String _ _ => false
  end.

(** Declarative reading of the matcher: [matches r bos s bos' s'] when [r]
    matches a prefix of [s] and leaves [s']. *)
Inductive matches : regex -> bool -> string -> bool -> string -> Prop :=
| MEps b s : matches Eps b s b s
| MChr c b t : matches (Chr c) b (String c t) false t
| MCls (p : ascii -> bool) c b t : p c = true -> matches (Cls p) b (String c t) false t
| MCat r1 r2 b s b1 s1 b2 s2 :
    matches r1 b s b1 s1 -> matches r2 b1 s1 b2 s2 -> matches (Cat r1 r2) b s b2 s2
| MAltL r1 r2 b s b' s' : matches r1 b s b' s' -> matches (Alt r1 r2) b s b' s'
| MAltR r1 r2 b s b' s' : matches r2 b s b' s' -> matches (Alt r1 r2) b s b' s'
| MOptSome r b s b' s' : matches r b s b' s' -> matches (Opt r) b s b' s'
| MOptNone r b s : matches (Opt r) b s b s
| MPlusOne (p : ascii -> bool) c b t : p c = true -> matches (Plus p) b (String c t) false t
| MPlusMore (p : ascii -> bool) c b t s' :
    p c = true -> matches (Plus p) false t false s' -> matches (Plus p) b (String c t) false s'
| MBos s : matches Bos true s true s
| MEos b : matches Eos b EmptyString b EmptyString
| MAhead r b s b' s' : matches r b s b' s' -> matches (Ahead r) b s b s.

End Regex.

(** ** The data handed between the components *)

Module Css.

(** One matched rule of a file, as [analyzeCSS] pushes it onto [matches].
    [selector] and [content] hold [''] and [matchedOn] holds [[]] for a field
    the object lacks; a [matchedOn] that is one string is the one-element
    list. *)
Record cssMatch : Type := {
  selector : string;
  content : string;
  matchedOn : list string;
  startLine : nat;
  endLine : nat
}.

(** The analysis of one file: [filePath] is [result.filePath || result.file],
    [matches] is [result.matches || []]. *)
Record cssResult : Type := {
  filePath : string;
  matches : list cssMatch
}.

(** An inline [<style>] block. *)
Record inlineStyle : Type := { styleContent : string }.

(** The identity of the target element. *)
Record targetInfo : Type := {
  classes : list string;
  ids : list string;
  tagName : string;
  dataAttributes : list string;
  shadowParts : list string
}.

(** A value a caller may pass where a selector string is expected. *)
Inductive jsval : Type :=
| JUndefined
| JNull
| JBool (b : bool)
| JNum (n : Z)
| JStr (s : string)
| JObj.

(** What a call that may throw does. *)
Inductive outcome (A : Type) : Type :=
| Returns (a : A)
| Throws.
Arguments Returns {A} a.
Arguments Throws {A}.

End Css.

(** ** The [specificity] package

    [calculate] is not part of the repository: [calculateSpecificity] receives
    it as a parameter, and [SpecificityLib.calculate] is a model of it, a
    scanner that reads the selector one code unit at a time.  Every
    definition of this module belongs to that model. *)

Module SpecificityLib.

(** Modelled from the spec: the object [{ A, B, C }] that [calculate]
    returns, as [calculateSpecificity] reads it. *)
Record abc : Type := { A : nat; B : nat; C : nat }.

(** Modelled from the spec: the simple selectors that section 4.3 counts. *)
Inductive kind : Type := KType | KId | KClass | KPseudoClass | KPseudoElement.

(** Modelled from the spec: where the scanner of the package model stands. *)
Inductive lexState : Type :=
| Start                           (* at the start of a compound selector *)
| Mid                             (* after a simple selector *)
| Name (k : kind) (acc : string)  (* reading the name of a simple selector *)
| Attr                            (* inside [...] *)
| Colon                           (* just after a ':' *)
| Skip (d : nat).                 (* inside uncounted arguments, d parentheses deep *)

(** Modelled from the spec: the code units of a name (letters, digits, [-],
    [_] and everything from 128 up). *)
Definition isIdentChar (c : ascii) : bool :=
  let n := nat_of_ascii c in
  ((Nat.leb 97 n && Nat.leb n 122) || (Nat.leb 65 n && Nat.leb n 90)
   || (Nat.leb 48 n && Nat.leb n 57) || Nat.eqb n 45 || Nat.eqb n 95
   || Nat.leb 128 n)%bool.

(** Modelled from the spec: a name does not start with a digit. *)
Definition isIdentStart (c : ascii) : bool :=
  (isIdentChar c && negb (Regex.isDigit c))%bool.

(** Modelled from the spec: ids count in [A]; classes, attributes and
    pseudo-classes in [B]; type selectors and pseudo-elements in [C]. *)
Definition bump (k : kind) (n : abc) : abc :=
  match k with
  | KId => {| A := S (A n); B := B n; C := C n |}
  | KClass | KPseudoClass => {| A := A n; B := S (B n); C := C n |}
  | KType | KPseudoElement => {| A := A n; B := B n; C := S (C n) |}
  end.

(** Modelled from the spec: a code unit between simple selectors; [depth]
    counts the open [:is(], [:not(] and [:has(]. *)
Definition between (ch : ascii) (depth : nat) (n : abc)
  : option (lexState * nat * abc) :=
  if Ascii.eqb ch "#" then Some (Name KId EmptyString, depth, n)
  else if Ascii.eqb ch "." then Some (Name KClass EmptyString, depth, n)
  else if Ascii.eqb ch "[" then Some (Attr, depth, n)
  else if Ascii.eqb ch ":" then Some (Colon, depth, n)
  else if (JsString.isWhiteSpace ch || JsString.charIn ">+~," ch)%bool
  then Some (Start, depth, n)
  else if Ascii.eqb ch ")" then
    match depth with
    | S d => Some (Mid, d, n)
    | O => None
    end
  else None.

(** Modelled from the spec: one code unit of the selector.  [:where(] opens
    arguments that are skipped; [:is(], [:not(] and [:has(] open arguments
    that are read as selector content; [None] is a parse failure. *)
Definition step (st : lexState) (depth : nat) (n : abc) (ch : ascii)
  : option (lexState * nat * abc) :=
  match st with
  | Start =>
      if isIdentStart ch then Some (Name KType (String ch EmptyString), depth, n)
      else if Ascii.eqb ch "*" then Some (Mid, depth, n)
      else between ch depth n
  | Mid => between ch depth n
  | Name k acc =>
      if isIdentChar ch then Some (Name k (acc ++ String ch EmptyString), depth, n)
      else if String.eqb acc EmptyString then None
      else if Ascii.eqb ch "(" then
        match k with
        | KPseudoClass =>
            if String.eqb acc "where" then Some (Skip 1, depth, n)
            else if (String.eqb acc "is" || String.eqb acc "not" || String.eqb acc "has")%bool
            then Some (Start, S depth, n)
            else Some (Skip 1, depth, bump k n)
        | KPseudoElement => Some (Skip 1, depth, bump k n)
        | _ => None
        end
      else between ch depth (bump k n)
  | Attr =>
      if Ascii.eqb ch "]" then Some (Mid, depth, bump KClass n) else Some (Attr, depth, n)
  | Colon =>
      if Ascii.eqb ch ":" then Some (Name KPseudoElement EmptyString, depth, n)
      else if isIdentChar ch then Some (Name KPseudoClass (String ch EmptyString), depth, n)
      else None
  | Skip d =>
      if Ascii.eqb ch "(" then Some (Skip (S d), depth, n)
      else if Ascii.eqb ch ")" then
        match d with
        | S (S d') => Some (Skip (S d'), depth, n)
        | _ => Some (Mid, depth, n)
        end
      else Some (Skip d, depth, n)
  end.

(** Modelled from the spec: the end of the selector; an open bracket,
    parenthesis or empty name is a parse failure. *)
Definition finish (st : lexState) (depth : nat) (n : abc) : option abc :=
  match depth with
  | S _ => None
  | O =>
      match st with
      | Start | Mid => Some n
      | Name k acc => if String.eqb acc EmptyString then None else Some (bump k n)
      | Attr | Colon | Skip _ => None
      end
  end.

(** Modelled from the spec: the scan of a whole selector. *)
Fixpoint run (st : lexState) (depth : nat) (n : abc) (s : string) : option abc :=
  match s with
  | EmptyString => finish st depth n
  | String ch t =>
      match step st depth n ch with
      | Some (st', depth', n') => run st' depth' n' t
      | None => None
      end
  end.

(** Modelled from the spec: the [calculate] function of the [specificity]
    package, which the repository imports and does not contain.  Section 4.3:
    counting follows the selector grammar (ids; classes, attributes and
    pseudo-classes; type selectors and pseudo-elements); [:where(...)] adds
    nothing whatever its argument; the argument of [:is()], [:not()] and
    [:has()] is counted as ordinary selector content; a selector that does
    not parse makes the call throw. *)
Definition calculate (selector : string) : Css.outcome (option abc) :=
  match run Start 0 {| A := 0; B := 0; C := 0 |} selector with
  | Some n => Css.Returns (Some n)
  | None => Css.Throws
  end.

End SpecificityLib.

(** ** specificity-calculator.js *)

Module SpecificityCalculator.

Import Css.

(** The tuple [[inline, ids, classes, elements]]. *)
Record specificity : Type := Spec {
  inline : nat;
  idCount : nat;
  classCount : nat;
  elementCount : nat
}.

Definition zero : specificity := Spec 0 0 0 0.

Section WithLibrary.

(** [const { calculate } = require('specificity')]; a falsy result is [None]. *)
Variable calculate : string -> outcome (option SpecificityLib.abc).

Definition calculateSpecificity (selector : jsval) : specificity :=
  match selector with
  | JStr s =>
      if String.eqb s EmptyString then zero
      else
        match calculate s with
        | Returns (Some result) =>
            Spec 0 (SpecificityLib.A result) (SpecificityLib.B result) (SpecificityLib.C result)
        | Returns None => zero
        | Throws => zero
        end
  | _ => zero
  end.

(** The loop over [i = 0 .. 3], unrolled. *)
Definition compareSpecificity (a b : specificity) : Z :=
  if Nat.ltb (inline b) (inline a) then 1
  else if Nat.ltb (inline a) (inline b) then -1
  else if Nat.ltb (idCount b) (idCount a) then 1
  else if Nat.ltb (idCount a) (idCount b) then -1
  else if Nat.ltb (classCount b) (classCount a) then 1
  else if Nat.ltb (classCount a) (classCount b) then -1
  else if Nat.ltb (elementCount b) (elementCount a) then 1
  else if Nat.ltb (elementCount a) (elementCount b) then -1
  else 0.

Definition hasImportant (value : string) : bool :=
  JsString.includes value "!important".

(** [content.match(/\{([^}]+)\}/)]: the text up to the next closing brace,
    which must not be empty. *)
Definition untilClose (s : string) : option string :=
  match JsString.cutAt "}" s with
  | Some (EmptyString, _) => None
  | Some (body, _) => Some body
  | None => None
  end.

Fixpoint braceMatch (s : string) : option string :=
  match s with
  | EmptyString => None
  | String c t =>
      if Ascii.eqb c "{" then
        match untilClose t with
        | Some body => Some body
        | None => braceMatch t
        end
      else braceMatch t
  end.

(** [properties[prop] = value]: a key keeps the place of its first
    assignment. *)
Fixpoint setProperty (prop value : string) (properties : list (string * string))
  : list (string * string) :=
  match properties with
  | [] => [(prop, value)]
  | (p, v) :: rest =>
      if String.eqb p prop then (p, value) :: rest
      else (p, v) :: setProperty prop value rest
  end.

Definition addDeclaration (properties : list (string * string)) (decl : string)
  : list (string * string) :=
  match JsString.cutAt ":" decl with
  | Some (EmptyString, _) => properties            (* colonIndex = 0 *)
  | Some (before, after) =>
      let prop := JsString.trim before in
      let value := JsString.trim after in
      if (String.eqb prop EmptyString || String.eqb value EmptyString)%bool then properties
      else setProperty prop value properties
  | None => properties                             (* colonIndex = -1 *)
  end.

(** The object [parseProperties] builds, keys in the order of their first
    assignment. *)
Definition parseProperties (content : string) : list (string * string) :=
  let body := match braceMatch content with Some b => b | None => content end in
  fold_left addDeclaration (JsString.split ";" body) [].

(** A key is an array index when it is the canonical decimal text of an
    integer below 2^32 - 1; [Object.entries] lists those first, ascending. *)
Fixpoint digitsValue (acc : N) (s : string) : option N :=
  match s with
  | EmptyString => Some acc
  | String c t =>
      if Regex.isDigit c then digitsValue (10 * acc + (N_of_ascii c - 48)) t else None
  end.

Definition arrayIndex (key : string) : option N :=
  match key with
  | EmptyString => None
  | String c t =>
      if (Ascii.eqb c "0" && negb (String.eqb t EmptyString))%bool then None
      else
        match digitsValue 0 key with
        | Some n => if N.leb n 4294967294 then Some n else None
        | None => None
        end
  end.

Fixpoint insertIndexed (e : N * (string * string)) (l : list (N * (string * string)))
  : list (N * (string * string)) :=
  match l with
  | [] => [e]
  | h :: t => if N.leb (fst e) (fst h) then e :: l else h :: insertIndexed e t
  end.

(** [Object.entries(properties)] *)
Definition entries (properties : list (string * string)) : list (string * string) :=
  let indexed :=
    omap (fun kv => match arrayIndex (fst kv) with Some n => Some (n, kv) | None => None end)
         properties in
  let named :=
    List.filter (fun kv => match arrayIndex (fst kv) with Some _ => false | None => true end)
                properties in
  (map snd (fold_right insertIndexed [] indexed) ++ named)%list.

(** A candidate declaration, as pushed onto [propertyRules[prop]]. *)
Record rule : Type := {
  selector : string;
  spec : specificity;
  value : string;
  important : bool;          (* the field [hasImportant] *)
  file : string;
  fileOrder : nat;
  globalOrder : nat;
  startLine : nat;
  endLine : nat
}.

(** [linkedFiles.css.forEach((file, index) => { fileOrder[file] = index })] *)
Fixpoint buildFileOrder (files : list string) (index : nat) (acc : gmap string nat)
  : gmap string nat :=
  match files with
  | [] => acc
  | f :: rest => buildFileOrder rest (S index) (<[f := index]> acc)
  end.

(** [fileOrder[filePath] ?? 999] *)
Definition fileOrderValue (order : gmap string nat) (path : string) : nat :=
  match order !! path with
  | Some i => i
  | None => 999
  end.

(** The state of the grouping loop: [propertyRules] and [globalOrder]. *)
Definition grouping : Type := gmap string (list rule) * nat.

Definition pushRule (st : grouping) (r : nat -> rule) (prop : string) : grouping :=
  (<[prop := (match fst st !! prop with Some rules => rules | None => [] end
              ++ [r (snd st)])%list]> (fst st),
   S (snd st)).

Definition addMatch (path : string) (order : nat) (st : grouping) (m : cssMatch) : grouping :=
  let sel := Css.selector m in
  let sp := calculateSpecificity (JStr sel) in
  fold_left
    (fun st' pv =>
       pushRule st'
         (fun g => {| selector := sel; spec := sp; value := snd pv;
                      important := hasImportant (snd pv); file := path;
                      fileOrder := order; globalOrder := g;
                      startLine := Css.startLine m; endLine := Css.endLine m |})
         (fst pv))
    (entries (parseProperties (Css.content m))) st.

Definition addResult (order : gmap string nat) (st : grouping) (result : cssResult) : grouping :=
  fold_left (addMatch (filePath result) (fileOrderValue order (filePath result)))
            (matches result) st.

Definition groupRules (cssResults : list cssResult) (linked : list string) : grouping :=
  fold_left (addResult (buildFileOrder linked 0 ∅)) cssResults (∅, 0).

(** The comparator handed to [sort]. *)
Definition compareRules (a b : rule) : Z :=
  if (important a && negb (important b))%bool then 1
  else if (negb (important a) && important b)%bool then -1
  else
    let specCompare := compareSpecificity (spec a) (spec b) in
    if negb (Z.eqb specCompare 0) then specCompare
    else if negb (Nat.eqb (fileOrder a) (fileOrder b))
    then Z.of_nat (fileOrder a) - Z.of_nat (fileOrder b)
    else Z.of_nat (globalOrder a) - Z.of_nat (globalOrder b).

(** [Array.prototype.sort(compare)].  The language fixes the result for a
    consistent comparator (sorted, equal elements in their original order)
    and leaves the algorithm open; a stable insertion sort stands for it. *)
Fixpoint insertSorted (compare : rule -> rule -> Z) (x : rule) (l : list rule) : list rule :=
  match l with
  | [] => [x]
  | y :: rest =>
      if Z.leb (compare x y) 0 then x :: l else y :: insertSorted compare x rest
  end.

Fixpoint sort (compare : rule -> rule -> Z) (l : list rule) : list rule :=
  match l with
  | [] => []
  | x :: rest => insertSorted compare x (sort compare rest)
  end.

(** The entry [conflicts[prop]]. *)
Record decision : Type := {
  winner : rule;
  losers : list rule;
  hasConflict : bool
}.

(** The body of the loop over [Object.entries(propertyRules)]: [None] is the
    [continue] of a property with at most one candidate. *)
Definition decideProperty (rules : list rule) : option decision :=
  if Nat.leb (List.length rules) 1 then None
  else
    let sorted := sort compareRules rules in
    match last sorted with                      (* sorted[sorted.length - 1] *)
    | Some w =>
        let ls := removelast sorted in          (* sorted.slice(0, -1) *)
        Some {| winner := w; losers := ls; hasConflict := Nat.ltb 0 (List.length ls) |}
    | None => None
    end.

Definition analyzeConflicts (cssResults : list cssResult) (linked : list string)
  : gmap string decision :=
  omap decideProperty (fst (groupRules cssResults linked)).

(** [for (const loser of losers.reverse())] in [formatConflictsMarkdown]:
    the order in which the losers are printed. *)
Definition displayedLosers (d : decision) : list rule := rev (losers d).

End WithLibrary.

End SpecificityCalculator.

(** ** css-analyzer.js *)

Module CssAnalyzer.

Import Css.

(** A node of the PostCSS tree as [resolveNestedSelector] sees it: its
    [type] and, for a rule, its [selector]; [Root] also stands for a missing
    [parent]. *)
Inductive node : Type :=
| Root
| AtRule (name params : string) (parent : node)
| Rule (selector : string) (parent : node).

Definition fanOut (parentSelector : string) : list string :=
  map JsString.trim (JsString.split "," parentSelector).

Fixpoint resolveNestedSelector (rule : node) : string :=
  match rule with
  | Rule selfSelector parent =>
      match parent with
      | Rule _ _ =>
          let parentSelector := resolveNestedSelector parent in
          if JsString.includes selfSelector "&" then
            if JsString.includes parentSelector "," then
              JsString.join ", "
                (map (fun p => JsString.replaceAmp selfSelector p) (fanOut parentSelector))
            else JsString.replaceAmp selfSelector parentSelector
          else if JsString.includes parentSelector "," then
            JsString.join ", "
              (map (fun p => p ++ " " ++ selfSelector) (fanOut parentSelector))
          else parentSelector ++ " " ++ selfSelector
      | _ => selfSelector
      end
  | _ => EmptyString                      (* only rules are resolved *)
  end.

(** One attempt of [:func\(([^)]+)\)] at the start of [s]: the capture. *)
Definition pseudoAt (func s : string) : option string :=
  if JsString.startsWith s (":" ++ func ++ "(") then
    match JsString.cutAt ")" (JsString.substringFrom (String.length func + 2) s) with
    | Some (EmptyString, _) => None
    | Some (inner, _) => Some inner
    | None => None
    end
  else None.

(** The [while ((match = regex.exec(selector)) !== null)] loop of a global
    pattern: the captures of the successive matches.  [skip] counts the code
    units of the last match still ahead. *)
Fixpoint innerSelectors (func : string) (skip : nat) (s : string) : list string :=
  match s with
  | EmptyString => []
  | String _ t =>
      match skip with
      | S k => innerSelectors func k t
      | O =>
          match pseudoAt func s with
          | Some inner =>
              inner :: innerSelectors func (String.length func + String.length inner + 2) t
          | None => innerSelectors func O t
          end
      end
  end.

Definition pseudoFunctions : list string := ["is"; "where"; "not"; "has"].

Definition expandModernPseudoClasses (selector : string) : string :=
  fold_left
    (fun expanded func =>
       fold_left (fun e inner => e ++ " " ++ inner) (innerSelectors func 0 selector) expanded)
    pseudoFunctions selector.

(** [string.replace(/[.*+?^${}()|[\]\\]/g, '\\$&')] *)
Fixpoint escapeRegex (s : string) : string :=
  match s with
  | EmptyString => EmptyString
  | String c t =>
      if Regex.isSyntaxChar c then String "\" (String c (escapeRegex t))
      else String c (escapeRegex t)
  end.

Record targetSelector : Type := {
  type : string;
  value : string;
  pattern : Regex.regex
}.

(** [[\s,:.\[#]] *)
Definition boundary (c : ascii) : bool :=
  (JsString.isWhiteSpace c || JsString.charIn ",:.[#" c)%bool.

(** [\.CLS(?=[\s,:.\[#]|$)] *)
Definition classPattern (cls : string) : Regex.regex :=
  Regex.Cat (Regex.Chr ".")
    (Regex.Cat (Regex.ofEscaped (escapeRegex cls))
       (Regex.Ahead (Regex.Alt (Regex.Cls boundary) Regex.Eos))).

(** [#ID(?=[\s,:.\[#]|$)] *)
Definition idPattern (id : string) : Regex.regex :=
  Regex.Cat (Regex.Chr "#")
    (Regex.Cat (Regex.ofEscaped (escapeRegex id))
       (Regex.Ahead (Regex.Alt (Regex.Cls boundary) Regex.Eos))).

(** [(?:^|[\s,>+~])TAG(?=[\s,:.\[#>+~]|$)] *)
Definition tagPattern (tag : string) : Regex.regex :=
  Regex.Cat
    (Regex.Alt Regex.Bos
       (Regex.Cls (fun c => (JsString.isWhiteSpace c || JsString.charIn ",>+~" c)%bool)))
    (Regex.Cat (Regex.ofEscaped (escapeRegex tag))
       (Regex.Ahead
          (Regex.Alt
             (Regex.Cls (fun c => (JsString.isWhiteSpace c || JsString.charIn ",:.[#>+~" c)%bool))
             Regex.Eos))).

(** [\[ATTR(?:[~|^$*]?=|\])] *)
Definition dataAttrPattern (attr : string) : Regex.regex :=
  Regex.Cat (Regex.Chr "[")
    (Regex.Cat (Regex.ofEscaped (escapeRegex attr))
       (Regex.Alt
          (Regex.Cat (Regex.Opt (Regex.Cls (JsString.charIn "~|^$*"))) (Regex.Chr "="))
          (Regex.Chr "]"))).

Definition buildTargetSelectors (info : targetInfo) : list targetSelector :=
  (map (fun cls => {| type := "class"; value := cls; pattern := classPattern cls |})
       (classes info)
   ++ map (fun id => {| type := "id"; value := id; pattern := idPattern id |}) (ids info)
   ++ (if (Nat.ltb 0 (List.length (classes info)) || Nat.ltb 0 (List.length (ids info)))%bool
       then [{| type := "tag"; value := tagName info; pattern := tagPattern (tagName info) |}]
       else [])
   ++ map (fun attr => {| type := "data-attr"; value := attr; pattern := dataAttrPattern attr |})
       (dataAttributes info))%list.

(** The object [{ matches, matchedOn }]. *)
Record matchInfo : Type := {
  isMatch : bool;                (* the field [matches] *)
  reasons : list string          (* the field [matchedOn] *)
}.

Definition checkRuleMatch (ruleSelector : string) (targetSelectors : list targetSelector)
    (info : targetInfo) : matchInfo :=
  let expandedSelector := expandModernPseudoClasses ruleSelector in
  let matchedOn :=
    omap (fun target =>
            if (Regex.test (pattern target) ruleSelector
                || Regex.test (pattern target) expandedSelector)%bool
            then Some (type target ++ ": " ++ value target)
            else None)
         targetSelectors in
  {| isMatch := Nat.ltb 0 (List.length matchedOn); reasons := matchedOn |}.

End CssAnalyzer.

(** ** ghost-detector.js *)

Module GhostDetector.

Import Css.

(** [definedClasses.add(x)] on a [Set], kept in insertion order. *)
Definition setAdd (x : string) (set : list string) : list string :=
  if bool_decide (x ∈ set) then set else (set ++ [x])%list.

(** [definedClasses.has(x)] *)
Definition setHas (set : list string) (x : string) : bool := bool_decide (x ∈ set).

Definition processMatchedOn (defined : list string) (matchedOn : list string) : list string :=
  fold_left
    (fun set item =>
       if JsString.startsWith item "class:" then
         setAdd ("." ++ JsString.trim
                          (JsString.removeFirst (JsString.removeFirst item "class: ") "class:"))
                set
       else set)
    matchedOn defined.

(** [for (const cls of classes) if (text.includes(cls)) definedClasses.add(cls)] *)
Definition addMentioned (classes : list string) (text : string) (defined : list string)
  : list string :=
  fold_left (fun set cls => if JsString.includes text cls then setAdd cls set else set)
            classes defined.

Definition scanResults (classes : list string) (results : list cssResult)
    (defined : list string) : list string :=
  fold_left
    (fun set result =>
       fold_left
         (fun set' m => addMentioned classes (selector m) (processMatchedOn set' (matchedOn m)))
         (matches result) set)
    results defined.

Definition scanInline (classes : list string) (styles : list inlineStyle)
    (defined : list string) : list string :=
  fold_left (fun set style => addMentioned classes (styleContent style) set) styles defined.

(** [/^text/] for a literal text. *)
Definition starts (text : string) : Regex.regex := Regex.Cat Regex.Bos (Regex.lit text).

Definition colours : list string :=
  ["black"; "white"; "gray"; "red"; "blue"; "green"; "yellow"; "indigo"; "purple"; "pink"].

Definition IGNORED_PATTERNS : list Regex.regex :=
  [ (* /^(p|m)[xytrbl]?-\d+/ *)
    Regex.Cat Regex.Bos
      (Regex.Cat (Regex.alts ["p"; "m"])
         (Regex.Cat (Regex.Opt (Regex.Cls (JsString.charIn "xytrbl")))
            (Regex.Cat (Regex.Chr "-") (Regex.Plus Regex.isDigit))));
    (* /^text-(xs|sm|base|lg|xl|\d+xl)/ *)
    Regex.Cat (starts "text-")
      (Regex.Alt (Regex.alts ["xs"; "sm"; "base"; "lg"; "xl"])
         (Regex.Cat (Regex.Plus Regex.isDigit) (Regex.lit "xl")));
    Regex.Cat (starts "text-") (Regex.alts colours);
    Regex.Cat (starts "bg-") (Regex.alts colours);
    Regex.Cat (starts "font-") (Regex.alts ["sans"; "serif"; "mono"; "bold"; "medium"; "light"]);
    starts "flex"; starts "grid"; starts "block"; starts "hidden"; starts "inline";
    Regex.Cat (starts "w-") (Regex.Plus Regex.isDigit);
    Regex.Cat (starts "h-") (Regex.Plus Regex.isDigit);
    starts "w-full"; starts "h-full"; starts "min-w"; starts "max-w";
    starts "border"; starts "rounded"; starts "shadow";
    starts "items-"; starts "justify-"; starts "place-"; starts "gap-";
    starts "absolute"; starts "relative"; starts "fixed"; starts "sticky";
    starts "top-"; starts "bottom-"; starts "left-"; starts "right-"; starts "z-";
    starts "opacity-"; starts "cursor-"; starts "pointer-events-";
    starts "transition"; starts "duration-"; starts "ease-";
    starts "hover:"; starts "focus:"; starts "active:"; starts "group-hover:";
    starts "sm:"; starts "md:"; starts "lg:"; starts "xl:"; starts "2xl:";
    (* Bootstrap *)
    starts "col-"; starts "row"; starts "container"; starts "btn-"; starts "alert-";
    starts "card-";
    starts "navbar-"; starts "nav-"; starts "dropdown-"; starts "modal-"; starts "tab-";
    starts "form-";
    (* icons *)
    starts "fa-"; starts "icon-"; starts "material-"; starts "bi-"; starts "ri-"; starts "bx-";
    (* state and JS hooks *)
    starts "js-"; starts "is-"; starts "has-"; starts "active"; starts "open"; starts "show";
    starts "visible";
    (* animation libraries *)
    starts "animate__"; starts "aos-"; starts "fade"; starts "slide"; starts "zoom";
    (* utility libraries *)
    starts "u-"; starts "util-"; starts "helper-" ].

(** [cls.startsWith('.') ? cls : '.' + cls] *)
Definition className (cls : string) : string :=
  if JsString.startsWith cls "." then cls else "." ++ cls.

(** [cls.startsWith('.') ? cls.substring(1) : cls] *)
Definition cleanName (cls : string) : string :=
  if JsString.startsWith cls "." then JsString.substringFrom 1 cls else cls.

(** [IGNORED_PATTERNS.some(pattern => pattern.test(cleanName))] *)
Definition isUtility (cls : string) : bool :=
  existsb (fun pattern => Regex.test pattern (cleanName cls)) IGNORED_PATTERNS.

(** The callback of [classes.filter]. *)
Definition isGhost (defined : list string) (cls : string) : bool :=
  if (setHas defined (className cls) || setHas defined cls)%bool then false
  else if isUtility cls then false
  else true.

(** The returned object; [hasGhosts] is [None] when the object has no such
    field. *)
Record report : Type := {
  ghostClasses : list string;
  definedClasses : list string;
  totalClasses : nat;
  hasGhosts : option bool
}.

Definition collectDefined (classes : list string) (cssResults cssLibraryResults : list cssResult)
    (inlineStyles : list inlineStyle) : list string :=
  scanInline classes inlineStyles
    (scanResults classes cssLibraryResults (scanResults classes cssResults [])).

Definition detectGhostClasses (info : targetInfo) (cssResults cssLibraryResults : list cssResult)
    (inlineStyles : list inlineStyle) : report :=
  let classes := Css.classes info in
  if Nat.eqb (List.length classes) 0 then
    {| ghostClasses := []; definedClasses := []; totalClasses := 0; hasGhosts := None |}
  else
    let defined := collectDefined classes cssResults cssLibraryResults inlineStyles in
    let ghosts := List.filter (isGhost defined) classes in
    {| ghostClasses := ghosts;
       definedClasses := defined;
       totalClasses := List.length classes;
       hasGhosts := Some (Nat.ltb 0 (List.length ghosts)) |}.

End GhostDetector.

(** ** Vocabulary of the statements *)

Module Statements.

(** What may follow a class name in a selector for the name to count: the
    end of the text, white space, or one of [, : . [ #]. *)
Definition bounded (rest : string) : Prop :=
  rest = EmptyString \/
  exists ch t, rest = String ch t /\ CssAnalyzer.boundary ch = true.

(** [text] contains a literal dot, then [cls], then a boundary. *)
Definition occursBounded (cls text : string) : Prop :=
  exists pre rest, text = pre ++ "." ++ cls ++ rest /\ bounded rest.

(** [a] is the higher specificity: lexicographic, most significant first. *)
Definition specHigher (a b : SpecificityCalculator.specificity) : Prop :=
  let '(SpecificityCalculator.Spec a0 a1 a2 a3) := a in
  let '(SpecificityCalculator.Spec b0 b1 b2 b3) := b in
  (b0 < a0 \/ (a0 = b0 /\ (b1 < a1 \/ (a1 = b1 /\ (b2 < a2 \/ (a2 = b2 /\ b3 < a3))))))%nat.

(** Two specificities with the same four terms. *)
Definition specEqual (a b : SpecificityCalculator.specificity) : Prop :=
  SpecificityCalculator.inline a = SpecificityCalculator.inline b
  /\ SpecificityCalculator.idCount a = SpecificityCalculator.idCount b
  /\ SpecificityCalculator.classCount a = SpecificityCalculator.classCount b
  /\ SpecificityCalculator.elementCount a = SpecificityCalculator.elementCount b.

(** Two candidates that the comparator cannot tell apart. *)
Definition sameRank (a b : SpecificityCalculator.rule) : Prop :=
  SpecificityCalculator.important a = SpecificityCalculator.important b
  /\ specEqual (SpecificityCalculator.spec a) (SpecificityCalculator.spec b)
  /\ SpecificityCalculator.fileOrder a = SpecificityCalculator.fileOrder b
  /\ SpecificityCalculator.globalOrder a = SpecificityCalculator.globalOrder b.

(** [a] sorts before or with [b]: the comparator is not positive. *)
Definition notAfter (a b : SpecificityCalculator.rule) : Prop :=
  (SpecificityCalculator.compareRules a b <= 0)%Z.

(** The order of the cascade, in the words of section 4.3: [w] outranks [c]
    when [w] alone carries [!important]; or both agree on that and [w] has
    the higher specificity; or they tie so far and the file of [w] comes
    later in the order of the files; or they tie so far and [w] is the later
    declaration. *)
Definition outranks (w c : SpecificityCalculator.rule) : Prop :=
  let imp := SpecificityCalculator.important in
  let sp := SpecificityCalculator.spec in
  let fo := SpecificityCalculator.fileOrder in
  let go := SpecificityCalculator.globalOrder in
  (imp w = true /\ imp c = false) \/
  (imp w = imp c /\
   (specHigher (sp w) (sp c) \/
    (sp w = sp c /\
     ((fo c < fo w)%nat \/ (fo w = fo c /\ (go c < go w)%nat))))).

(** What [groupRules] records with every candidate. *)
Definition recorded (calculate : string -> Css.outcome (option SpecificityLib.abc))
    (linked : list string) (r : SpecificityCalculator.rule) : Prop :=
  SpecificityCalculator.important r
    = SpecificityCalculator.hasImportant (SpecificityCalculator.value r)
  /\ SpecificityCalculator.spec r
     = SpecificityCalculator.calculateSpecificity calculate
         (Css.JStr (SpecificityCalculator.selector r))
  /\ SpecificityCalculator.fileOrder r
     = SpecificityCalculator.fileOrderValue
         (SpecificityCalculator.buildFileOrder linked 0 ∅) (SpecificityCalculator.file r).

(** Candidates listed in the order of their declaration. *)
Definition declarationOrder (rules : list SpecificityCalculator.rule) : Prop :=
  StronglySorted
    (fun a b => (SpecificityCalculator.globalOrder a < SpecificityCalculator.globalOrder b)%nat)
    rules.

(** [i] is the place of the last mention of [f] in the linked files. *)
Definition linkedAt (linked : list string) (f : string) (i : nat) : Prop :=
  linked !! i = Some f /\ forall j, (i < j)%nat -> linked !! j <> Some f.

(** The invariant of the grouping loop: under every property the candidates
    stand in the order of their declaration, each numbered below the
    counter and recorded as [recorded] says. *)
Definition grouped (calculate : string -> Css.outcome (option SpecificityLib.abc))
    (linked : list string) (st : SpecificityCalculator.grouping) : Prop :=
  forall prop rules,
    fst st !! prop = Some rules ->
    declarationOrder rules
    /\ Forall (fun r => (SpecificityCalculator.globalOrder r < snd st)%nat
                        /\ recorded calculate linked r) rules.

(** A list of candidates with the strongest in front, as a reader expects of
    losers listed closest competitor first. *)
Definition closestFirst (l : list SpecificityCalculator.rule) : Prop :=
  StronglySorted outranks l.

(** A list of candidates with the weakest in front and the strongest last. *)
Definition closestLast (l : list SpecificityCalculator.rule) : Prop :=
  StronglySorted (fun x y => outranks y x) l.

(** Every [&] of [self] replaced by the text [branch]. *)
Fixpoint substituteAmp (self branch : string) : string :=
  match self with
  | EmptyString => EmptyString
  | String c t =>
      if Ascii.eqb c "&" then branch ++ substituteAmp t branch
      else String c (substituteAmp t branch)
  end.

(** A replacement text that [String.prototype.replace] copies as it stands:
    no [$] in it begins one of the patterns [$$], [$&], [$`], [$']. *)
Fixpoint literalTemplate (tpl : string) : bool :=
  match tpl with
  | EmptyString => true
  | String c rest =>
      if Ascii.eqb c "$" then
        match rest with
        | String d _ => negb (JsString.charIn "$&`'" d) && literalTemplate rest
        | EmptyString => true
        end
      else literalTemplate rest
  end.

(** A nesting chain of rules in which no selector contains [$] and the
    outermost rule, the one whose parent is not a rule, contains no [&]. *)
Fixpoint plainChain (rule : CssAnalyzer.node) : Prop :=
  match rule with
  | CssAnalyzer.Rule sel parent =>
      JsString.charIn sel "$" = false
      /\ match parent with
         | CssAnalyzer.Rule _ _ => plainChain parent
         | _ => JsString.charIn sel "&" = false
         end
  | _ => True
  end.

End Statements.

(** ** Sample inputs *)

Module Examples.

Import Css.

(** An element [<div class="btn">]. *)
Definition button : targetInfo :=
  {| classes := ["btn"]; ids := []; tagName := "div"; dataAttributes := [];
     shadowParts := [] |}.

Definition ruleAt (sel body : string) (line : nat) : cssMatch :=
  {| selector := sel; content := sel ++ " { " ++ body ++ " }"; matchedOn := [];
     startLine := line; endLine := line |}.

(** Three linked files that declare [color]: one id, two ids in a later
    file, and no id or class with [!important] in the first file. *)
Definition threeFiles : list cssResult :=
  [ {| filePath := "reset.css"; matches := [ruleAt "*" "color: blue !important;" 1] |};
    {| filePath := "base.css"; matches := [ruleAt "#menu" "color: red;" 3] |};
    {| filePath := "theme.css"; matches := [ruleAt "#nav #menu" "color: green;" 7] |} ].

Definition threeLinked : list string := ["reset.css"; "base.css"; "theme.css"].

Definition blueRule : SpecificityCalculator.rule :=
  {| SpecificityCalculator.selector := "*";
     SpecificityCalculator.spec := SpecificityCalculator.Spec 0 0 0 0;
     SpecificityCalculator.value := "blue !important";
     SpecificityCalculator.important := true;
     SpecificityCalculator.file := "reset.css";
     SpecificityCalculator.fileOrder := 0;
     SpecificityCalculator.globalOrder := 0;
     SpecificityCalculator.startLine := 1;
     SpecificityCalculator.endLine := 1 |}.

Definition redRule : SpecificityCalculator.rule :=
  {| SpecificityCalculator.selector := "#menu";
     SpecificityCalculator.spec := SpecificityCalculator.Spec 0 1 0 0;
     SpecificityCalculator.value := "red";
     SpecificityCalculator.important := false;
     SpecificityCalculator.file := "base.css";
     SpecificityCalculator.fileOrder := 1;
     SpecificityCalculator.globalOrder := 1;
     SpecificityCalculator.startLine := 3;
     SpecificityCalculator.endLine := 3 |}.

Definition greenRule : SpecificityCalculator.rule :=
  {| SpecificityCalculator.selector := "#nav #menu";
     SpecificityCalculator.spec := SpecificityCalculator.Spec 0 2 0 0;
     SpecificityCalculator.value := "green";
     SpecificityCalculator.important := false;
     SpecificityCalculator.file := "theme.css";
     SpecificityCalculator.fileOrder := 2;
     SpecificityCalculator.globalOrder := 2;
     SpecificityCalculator.startLine := 7;
     SpecificityCalculator.endLine := 7 |}.

(** The entry [conflicts['color']] for [threeFiles]. *)
Definition colorDecision : SpecificityCalculator.decision :=
  {| SpecificityCalculator.winner := blueRule;
     SpecificityCalculator.losers := [redRule; greenRule];
     SpecificityCalculator.hasConflict := true |}.





(** An identity with a class and an empty tag name. *)
Definition anonymous : targetInfo :=
  {| classes := ["btn"]; ids := []; tagName := ""; dataAttributes := [];
     shadowParts := [] |}.

(** An element with no class at all. *)
Definition classless : targetInfo :=
  {| classes := []; ids := ["header"]; tagName := "header"; dataAttributes := [];
     shadowParts := [] |}.

(** An element whose only class has the shape CSS Modules generate. *)
Definition hashed : targetInfo :=
  {| classes := ["Btn_primary_a1b2c"]; ids := []; tagName := "button";
     dataAttributes := []; shadowParts := [] |}.

(** The first case of [test/test-fixes.js]. *)
Definition testFixesTarget : targetInfo :=
  {| classes := ["Button_primary_a8f3d"; "flex"; "my-custom-class"]; ids := [];
     tagName := "div"; dataAttributes := []; shadowParts := [] |}.

Definition testFixesResults : list cssResult :=
  [ {| filePath := "";
       matches := [ {| selector := ""; content := ".flex { display: flex; }";
                       matchedOn := []; startLine := 0; endLine := 0 |} ] |} ].

(** A card whose [card] class a rule defines and whose [promo] class nothing
    mentions. *)
Definition card : targetInfo :=
  {| classes := ["card"; "promo"; "flex"]; ids := []; tagName := "div";
     dataAttributes := []; shadowParts := [] |}.

Definition cardResults : list cssResult :=
  [ {| filePath := "site.css";
       matches := [ {| selector := ".card:hover"; content := ".card:hover { color: red; }";
                       matchedOn := ["class: card"]; startLine := 2; endLine := 2 |} ] |} ].

End Examples.

(** ** The display helpers of specificity-calculator.js and css-analyzer.js *)

Module Display.

(** [s.substring(0, n)] *)
Fixpoint substringTo (n : nat) (s : string) : string :=
  match n, s with
  | O, _ => EmptyString
  | S n', String c t => String c (substringTo n' t)
  | S _, EmptyString => EmptyString
  end.

(** [truncateValue]: a missing value is the empty text. *)
Definition truncateValue (value : string) : string :=
  if String.eqb value EmptyString then EmptyString
  else if Nat.ltb 40 (String.length value) then substringTo 37 value ++ "..."
  else value.

(** [s.replace(/\\/g, '/')] *)
Fixpoint slashes (s : string) : string :=
  match s with
  | EmptyString => EmptyString
  | String c t => String (if Ascii.eqb c "\" then "/"%char else c) (slashes t)
  end.

(** [getFileName]: the last of the parts between separators. *)
Definition getFileName (filePath : string) : string :=
  if String.eqb filePath EmptyString then "unknown"
  else List.last (JsString.split "/" (slashes filePath)) EmptyString.

(** The at-rule node handed to [formatAtRuleContext]. *)
Record atRule : Type := { name : string; params : string }.

Definition formatAtRuleContext (node : atRule) : string :=
  if String.eqb (name node) "layer" then "@layer " ++ params node
  else if String.eqb (name node) "container" then "@container " ++ params node
  else if String.eqb (name node) "supports" then "@supports " ++ params node
  else if String.eqb (name node) "media" then "@media " ++ params node
  else "@" ++ name node ++ " " ++ params node.

End Display.

(** ** Shadow DOM selectors (css-analyzer.js) *)

Module ShadowDom.

Import Css.

(** One attempt of [OPENER([^)]+)\)] at the start of [s], [opener] standing
    for [::part\(] or [::slotted\(]: the capture. *)
Definition captureAt (opener s : string) : option string :=
  if JsString.startsWith s opener then
    match JsString.cutAt ")" (JsString.substringFrom (String.length opener) s) with
    | Some (EmptyString, _) => None
    | Some (inner, _) => Some inner
    | None => None
    end
  else None.

(** [selector.match(/OPENER([^)]+)\)/)]: the capture of the leftmost match. *)
Fixpoint firstCapture (opener s : string) : option string :=
  match captureAt opener s with
  | Some inner => Some inner
  | None =>
      match s with
      | EmptyString => None
      | String _ t => firstCapture opener t
      end
  end.

(** The object [{ matches, matchedOn, type }]; [kind] is [None] for [null]. *)
Record shadowMatch : Type := {
  isMatch : bool;
  matchedOn : list string;
  kind : option string
}.

(** The [::part(] half: the reasons it pushes. *)
Definition partReasons (selector : string) (info : targetInfo) : list string :=
  if JsString.includes selector "::part(" then
    match firstCapture "::part(" selector with
    | Some captured =>
        let partName := JsString.trim captured in
        ((if bool_decide (partName ∈ shadowParts info) then [("part: " ++ partName)%string] else [])
         ++ (if existsb
                  (fun id => negb (String.eqb id EmptyString) && JsString.includes selector id)
                  (classes info ++ ids info ++ [tagName info])
             then ["shadow-host with part"] else []))%list
    | None => []
    end
  else [].

(** The [::slotted(] half. *)
Definition slottedReasons (selector : string) (info : targetInfo) : list string :=
  if JsString.includes selector "::slotted(" then
    match firstCapture "::slotted(" selector with
    | Some captured =>
        let slottedSelector := JsString.trim captured in
        if existsb (fun id => JsString.includes slottedSelector id)
                   (classes info ++ ids info)%list
        then ["slotted: " ++ slottedSelector] else []
    | None => []
    end
  else [].

Definition checkShadowDOMMatch (selector : string) (info : targetInfo) : shadowMatch :=
  let parts := partReasons selector info in
  let slotted := slottedReasons selector info in
  {| isMatch := Nat.ltb 0 (List.length (parts ++ slotted)%list);
     matchedOn := (parts ++ slotted)%list;
     kind := match slotted with
             | _ :: _ => Some "::slotted"
             | [] => match parts with
                     | _ :: _ => Some "::part"
                     | [] => None
                     end
             end |}.

End ShadowDom.

(** ** The parse cache of css-analyzer.js

    [parseCache] is a [Map] from a key text to a result: here the list of
    its entries in insertion order.  The body of [analyzeCSS] between the
    cache test and the cache store reads and parses a file; what it comes to
    is the argument [run] of [analyzeCSS]. *)

Module ParseCache.

Section WithResult.

Variable R : Type.

Definition MAX_CACHE_SIZE : nat := 50.

(** [parseCache.get(key)], [None] when [parseCache.has(key)] is false. *)
Fixpoint get (key : string) (cache : list (string * R)) : option R :=
  match cache with
  | [] => None
  | (k, r) :: rest => if String.eqb k key then Some r else get key rest
  end.

(** [parseCache.delete(key)] *)
Fixpoint delete (key : string) (cache : list (string * R)) : list (string * R) :=
  match cache with
  | [] => []
  | (k, r) :: rest => if String.eqb k key then rest else (k, r) :: delete key rest
  end.

(** [parseCache.set(key, result)]: an old key keeps its place. *)
Fixpoint set (key : string) (result : R) (cache : list (string * R)) : list (string * R) :=
  match cache with
  | [] => [(key, result)]
  | (k, r) :: rest =>
      if String.eqb k key then (k, result) :: rest else (k, r) :: set key result rest
  end.

(** The store at the end of [analyzeCSS]: at the limit the first key goes. *)
Definition store (key : string) (result : R) (cache : list (string * R))
  : list (string * R) :=
  set key result
    (if Nat.leb MAX_CACHE_SIZE (List.length cache) then
       match cache with
       | (firstKey, _) :: _ => delete firstKey cache
       | [] => cache
       end
     else cache).

(** What the body of [analyzeCSS] comes to: an early return with an error
    (empty file, unreadable file, parse error), or the full result. *)
Inductive analysis : Type :=
| Failed (errorResult : R)
| Analysed (result : R).

(** [analyzeCSS] as far as the cache goes: the value returned and the cache
    left behind. *)
Definition analyzeCSS (useCache : bool) (key : string) (run : analysis)
    (cache : list (string * R)) : R * list (string * R) :=
  match (if useCache then get key cache else None) with
  | Some cached => (cached, cache)
  | None =>
      match run with
      | Failed errorResult => (errorResult, cache)
      | Analysed result => (result, if useCache then store key result cache else cache)
      end
  end.

(** [clearCache] *)
Definition clearCache (cache : list (string * R)) : list (string * R) := [].

(** [getCacheStats]: size, maxSize and hitRate. *)
Definition getCacheStats (cache : list (string * R)) : nat * nat * string :=
  (List.length cache, MAX_CACHE_SIZE,
   if Nat.ltb 0 (List.length cache) then "Cache enabled" else "Cache empty").

(** A run of calls, each with its flag, key and body. *)
Definition calls (cs : list (bool * string * analysis)) (cache : list (string * R))
  : list (string * R) :=
  fold_left (fun c call => snd (analyzeCSS (fst (fst call)) (snd (fst call)) (snd call) c))
            cs cache.

End WithResult.

End ParseCache.

(** ** Readings of the data the code builds *)

Module Readings.

(** [properties[prop]], [None] for [undefined]. *)
Fixpoint getProperty (prop : string) (properties : list (string * string)) : option string :=
  match properties with
  | [] => None
  | (p, v) :: rest => if String.eqb p prop then Some v else getProperty prop rest
  end.

(** A text that is not empty and that [trim] leaves as it is. *)
Definition tidy (s : string) : Prop := s <> EmptyString /\ JsString.trim s = s.

(** A property name and a value as [parseProperties] stores them. *)
Definition cleanEntry (pv : string * string) : Prop :=
  tidy (fst pv)
  /\ JsString.charIn (fst pv) ":" = false
  /\ JsString.charIn (fst pv) ";" = false
  /\ tidy (snd pv)
  /\ JsString.charIn (snd pv) ";" = false.

(** What a candidate carries over from the match it was read from: file,
    selector, value and the two line numbers. *)
Definition origin (r : SpecificityCalculator.rule)
  : string * string * string * nat * nat :=
  (SpecificityCalculator.file r, SpecificityCalculator.selector r,
   SpecificityCalculator.value r, SpecificityCalculator.startLine r,
   SpecificityCalculator.endLine r).

(** The grouping holds, under [prop], a candidate of origin [o]. *)
Definition holds (st : SpecificityCalculator.grouping) (prop : string)
    (o : string * string * string * nat * nat) : Prop :=
  exists rules r, fst st !! prop = Some rules /\ r ∈ rules /\ origin r = o.

(** The match [m] of the file [path] declares [prop] with origin [o]. *)
Definition declares (path : string) (m : Css.cssMatch) (prop : string)
    (o : string * string * string * nat * nat) : Prop :=
  exists v,
    getProperty prop (SpecificityCalculator.parseProperties (Css.content m)) = Some v
    /\ o = (path, Css.selector m, v, Css.startLine m, Css.endLine m).

End Readings.

(** ** The candidates of a property, read off the matches *)

Module Candidates.




End Candidates.

(** ** Occurrences of a target in a selector text *)

Module Occurrences.

(** [text] contains [#], then [id], then a boundary. *)
Definition idOccurs (id text : string) : Prop :=
  exists pre rest, text = pre ++ "#" ++ id ++ rest /\ Statements.bounded rest.

(** What closes an attribute name in a selector: [[]], [=], or one of
    [~ | ^ $ *] and then [=]. *)
Definition attrClose (close : string) : bool :=
  match close with
  | String c EmptyString => (Ascii.eqb c "]" || Ascii.eqb c "=")%bool
  | String op (String c EmptyString) => (JsString.charIn "~|^$*" op && Ascii.eqb c "=")%bool
  | _ => false
  end.

(** [text] contains [[], then [attr], then a closing. *)
Definition attrOccurs (attr text : string) : Prop :=
  exists pre close rest, text = pre ++ "[" ++ attr ++ close ++ rest /\ attrClose close = true.

(** What may stand before a tag name: white space or one of [, > + ~]. *)
Definition tagLead (c : ascii) : bool :=
  (JsString.isWhiteSpace c || JsString.charIn ",>+~" c)%bool.

(** What may stand after a tag name: white space or one of
    [, : . [ # > + ~]. *)
Definition tagTrail (c : ascii) : bool :=
  (JsString.isWhiteSpace c || JsString.charIn ",:.[#>+~" c)%bool.

(** [text] contains [tag] between the start or a lead and the end or a
    trail. *)
Definition tagOccurs (tag text : string) : Prop :=
  exists pre rest,
    text = pre ++ tag ++ rest
    /\ (pre = EmptyString \/ exists p c, pre = p ++ String c EmptyString /\ tagLead c = true)
    /\ (rest = EmptyString \/ exists c t, rest = String c t /\ tagTrail c = true).

(** A text that is empty or begins with a space. *)
Definition spaceLed (s : string) : Prop :=
  s = EmptyString \/ exists t, s = String " " t.

(** The reason [checkRuleMatch] would give with the test on the expanded
    selector alone. *)
Definition reasonsExpanded (ruleSelector : string)
    (targetSelectors : list CssAnalyzer.targetSelector) : list string :=
  omap (fun target =>
          if Regex.test (CssAnalyzer.pattern target)
                        (CssAnalyzer.expandModernPseudoClasses ruleSelector)
          then Some (CssAnalyzer.type target ++ ": " ++ CssAnalyzer.value target)
          else None)
       targetSelectors.

End Occurrences.

(** ** The texts the expansion appends *)

Module Expansion.

(** The captures of all four functions: those of [:is()] first, then
    [:where()], [:not()], [:has()], each group in the order of the text. *)
Definition allInners (selector : string) : list string :=
  flat_map (fun func => CssAnalyzer.innerSelectors func 0 selector)
           CssAnalyzer.pseudoFunctions.

(** Each capture behind a space, one after the other. *)
Fixpoint appended (inners : list string) : string :=
  match inners with
  | [] => EmptyString
  | inner :: rest => " " ++ inner ++ appended rest
  end.

(** [text] contains the call [:func(inner)]. *)
Definition calls (func inner text : string) : Prop :=
  exists pre post, text = pre ++ ":" ++ func ++ "(" ++ inner ++ ")" ++ post.

End Expansion.

(** ** What makes a class defined *)

Module Defined.

Import Css.

(** [x] is a class of the target that [text] contains. *)
Definition mentionedIn (classes : list string) (text x : string) : Prop :=
  x ∈ classes /\ JsString.includes text x = true.

(** [x] is the dotted name read from a [class:] reason of [matchedOn]. *)
Definition namedBy (matchedOn : list string) (x : string) : Prop :=
  exists item,
    item ∈ matchedOn
    /\ JsString.startsWith item "class:" = true
    /\ x = "." ++ JsString.trim
                    (JsString.removeFirst (JsString.removeFirst item "class: ") "class:").

(** What one match adds to the set. *)
Definition contributes (classes : list string) (m : cssMatch) (x : string) : Prop :=
  namedBy (matchedOn m) x \/ mentionedIn classes (selector m) x.

(** What a list of results adds. *)
Definition fromResults (classes : list string) (results : list cssResult) (x : string) : Prop :=
  exists result m, result ∈ results /\ m ∈ matches result /\ contributes classes m x.

(** What the inline styles add. *)
Definition fromInline (classes : list string) (styles : list inlineStyle) (x : string) : Prop :=
  exists style, style ∈ styles /\ mentionedIn classes (styleContent style) x.

(** No pattern part that looks at the end of the text or ahead of the
    match. *)
Fixpoint openEnded (r : Regex.regex) : bool :=
  match r with
  | Regex.Eos | Regex.Ahead _ => false
  | Regex.Cat r1 r2 | Regex.Alt r1 r2 => openEnded r1 && openEnded r2
  | Regex.Opt r1 => openEnded r1
  | _ => true
  end.

End Defined.

(** ** Chains of nested rules and the minified test *)

Module Nesting.

(** The rules [sels], each nested in the one before, the first one inside
    [outer]. *)
Fixpoint nest (outer : CssAnalyzer.node) (sels : list string) : CssAnalyzer.node :=
  match sels with
  | [] => outer
  | sel :: rest => nest (CssAnalyzer.Rule sel outer) rest
  end.

(** A node that is not a rule: the root or an at-rule. *)
Definition notRule (n : CssAnalyzer.node) : Prop :=
  match n with
  | CssAnalyzer.Rule _ _ => False
  | _ => True
  end.

(** A selector with no [&] and no comma. *)
Definition plain (sel : string) : Prop :=
  JsString.charIn sel "&" = false /\ JsString.charIn sel "," = false.

End Nesting.

Module Minified.

(** [a < b] over the rationals. *)
Definition Qlt_bool (a b : QArith_base.Q) : bool := negb (QArith_base.Qle_bool b a).

(** [content.split('\n').length] *)
Definition lineCount (content : string) : nat :=
  List.length (JsString.split (Ascii.ascii_of_nat 10) content).

(** [avgLineLength > 200].  The quotients of [detectMinified] are IEEE
    doubles of integers; a quotient of integers below 2^40 that differs from
    200 or from 1/500 differs by far more than the rounding of the division
    and of the literal [0.002], so the two comparisons come out as over the
    rationals, which is what is computed here. *)
Definition avgAbove (content : string) : bool :=
  Qlt_bool (QArith_base.Qmake 200 1)
           (QArith_base.Qmake (Z.of_nat (String.length content))
                              (Pos.of_nat (lineCount content))).

(** [newlineRatio < 0.002]; [lines.length / 0] is [Infinity], which is not
    below [0.002]. *)
Definition ratioBelow (content : string) : bool :=
  match String.length content with
  | O => false
  | S _ =>
      Qlt_bool
        (QArith_base.Qmake (Z.of_nat (lineCount content))
                           (Pos.of_nat (String.length content)))
        (QArith_base.Qmake 2 1000)
  end.

Definition detectMinified (content : string) : bool :=
  if Nat.eqb (lineCount content) 0 then false
  else (avgAbove content || ratioBelow content)%bool.

End Minified.

(** ** What [formatConflictsMarkdown] does to its argument

    The markdown text is not modelled (its symbols lie outside the code units
    of the embedding); what is modelled is the object [conflicts] before and
    after the call and the candidates of the table rows. *)

Module ConflictReport.

Import SpecificityCalculator.

(** [losers.reverse()] reverses the array that the decision holds. *)
Definition reverseLosers (d : decision) : decision :=
  {| winner := winner d; losers := rev (losers d); hasConflict := hasConflict d |}.

(** The object [conflicts] as a call of [formatConflictsMarkdown] leaves it:
    the loop runs over the entries with [hasConflict]. *)
Definition afterFormat (conflicts : gmap string decision) : gmap string decision :=
  (fun d => if hasConflict d then reverseLosers d else d) <$> conflicts.

(** The candidates of the rows printed for one property by a call that
    finds the decision [d]: the winner, then each [loser of losers.reverse()]. *)
Definition printedRows (d : decision) : list rule := winner d :: rev (losers d).

End ConflictReport.

(** ** The walk of [analyzeCSS] over the rules and at-rules of a file *)

Module Walk.

Import Css CssAnalyzer.

(** [position?.line || 0]: a missing line and the line 0 give 0. *)
Definition lineOr (line : option nat) (default : nat) : nat :=
  match line with
  | Some (S n) => S n
  | _ => default
  end.

(** The callback of [root.walkRules] as far as [matches] goes: the match it
    pushes for a rule, if any.  [ruleContent] is [rule.toString()],
    [startPos] and [endPos] are [rule.source?.start?.line] and
    [rule.source?.end?.line]. *)
Definition visitRule (info : targetInfo) (rule : node) (ruleContent : string)
    (startPos endPos : option nat) : option cssMatch :=
  let resolvedSelector := resolveNestedSelector rule in
  let matchInfo := checkRuleMatch resolvedSelector (buildTargetSelectors info) info in
  if isMatch matchInfo then
    let startLine := lineOr startPos 0 in
    let endLine := lineOr endPos startLine in
    Some {| selector := resolvedSelector; content := ruleContent;
            matchedOn := reasons matchInfo;
            startLine := startLine; endLine := endLine |}
  else None.

(** The test [isUsed] of an [@keyframes] rule named [animationName] against
    the matches found so far. *)
Definition keyframesUsed (animationName : string) (found : list cssMatch) : bool :=
  existsb
    (fun m =>
       (JsString.includes (content m) animationName
        || JsString.includes (content m) ("animation-name: " ++ animationName)
        || JsString.includes (content m) ("animation: " ++ animationName))%bool)
    found.

(** The match pushed for a used [@keyframes] rule. *)
Definition keyframesMatch (animationName atRuleContent : string) (startPos endPos : option nat)
  : cssMatch :=
  {| selector := "@keyframes " ++ animationName; content := atRuleContent;
     matchedOn := ["animation"];
     startLine := lineOr startPos 0; endLine := lineOr endPos 0 |}.

(** The [keyframes] branch of the callback of [root.walkAtRules]: [matches]
    afterwards. *)
Definition visitKeyframes (animationName atRuleContent : string) (startPos endPos : option nat)
    (found : list cssMatch) : list cssMatch :=
  if keyframesUsed animationName found
  then (found ++ [keyframesMatch animationName atRuleContent startPos endPos])%list
  else found.

End Walk.

(* ===================================================================== *)
(** * Part II: properties                                                 *)
(* ===================================================================== *)

(** Concatenation of texts computes under [simpl] in the proofs below. *)
Arguments String.append : simpl nomatch.
Arguments Ascii.eqb : simpl nomatch.

(** ** Lists and folds *)

Module ListFacts.

(** A fold keeps what every step keeps. *)
Lemma fold_left_preserves {S X : Type} (P : S -> Prop) (f : S -> X -> S) (l : list X) :
  (forall st x, P st -> P (f st x)) -> forall st, P st -> P (fold_left f l st).
Proof.
  intros Hf. induction l as [|x l IH]; simpl; intros st Hst; [done|].
  apply IH. by apply Hf.
Qed.

(** A fold that keeps [Q] once it holds and makes it hold at [x]. *)
Lemma fold_left_hit {S X : Type} (Q : S -> Prop) (f : S -> X -> S) (x : X) (l : list X) :
  (forall st y, Q st -> Q (f st y)) -> (forall st, Q (f st x)) ->
  x ∈ l -> forall st, Q (fold_left f l st).
Proof.
  intros Hmono Hhit. induction l as [|y l IH]; intros Hin st.
  - by apply elem_of_nil in Hin.
  - simpl. apply elem_of_cons in Hin as [<- | Hin].
    + apply fold_left_preserves; [exact Hmono | apply Hhit].
    + by apply IH.
Qed.

Lemma StronglySorted_snoc {X : Type} (R : X -> X -> Prop) (l : list X) (y : X) :
  StronglySorted R l -> Forall (fun x => R x y) l -> StronglySorted R (l ++ [y])%list.
Proof.
  induction l as [|x l IH]; simpl; intros Hs Hall.
  - repeat constructor.
  - apply StronglySorted_inv in Hs as [Hs Hx]. apply Forall_cons in Hall as [Hxy Hall].
    constructor; [by apply IH|]. apply Forall_app. split; [done|]. by repeat constructor.
Qed.

Lemma omap_all_None {X Y : Type} (f : X -> option Y) (l : list X) :
  (forall x, x ∈ l -> f x = None) -> omap f l = [].
Proof.
  induction l as [|x l IH]; intros H; [done|].
  simpl. rewrite (H x) by apply list_elem_of_here.
  apply IH. intros y Hy. apply H. by apply list_elem_of_further.
Qed.

End ListFacts.

(** ** The matcher against its declarative reading *)

Module RegexFacts.

Import Regex.

Lemma plusLoop_spec (p : ascii -> bool) (s : string) (k : bool -> string -> bool) :
  plusLoop p s k = true <->
  k false s = true \/ exists s', matches (Plus p) false s false s' /\ k false s' = true.
Proof.
  induction s as [|c t IH]; simpl.
  - split; [auto|]. intros [H | (s' & Hm & _)]; [done | inversion Hm].
  - destruct (p c) eqn:Hp.
    + rewrite orb_true_iff, IH. split.
      * intros [[H | (s' & Hm & Hk)] | H]; auto.
        -- right. exists t. split; [by constructor | done].
        -- right. exists s'. split; [by apply MPlusMore | done].
      * intros [H | (s' & Hm & Hk)]; [auto|].
        inversion Hm; subst; left; [by left | right; eauto].
    + split; [auto|]. intros [H | (s' & Hm & _)]; [done|].
      inversion Hm; congruence.
Qed.

Lemma rmatch_spec (r : regex) :
  forall b s k,
    rmatch r b s k = true <->
    exists b' s', matches r b s b' s' /\ k b' s' = true.
Proof.
  induction r as [|c|p|r1 IH1 r2 IH2|r1 IH1 r2 IH2|r1 IH1|p| | |r1 IH1]; intros b s k; simpl.
  - split; [intros H; exists b, s; split; [constructor | done]|].
    intros (b' & s' & Hm & Hk). by inversion Hm; subst.
  - destruct s as [|d t].
    + split; [done|]. intros (b' & s' & Hm & _). inversion Hm.
    + destruct (Ascii.eqb c d) eqn:E.
      * apply Ascii.eqb_eq in E. subst d. split.
        -- intros H. exists false, t. split; [constructor | done].
        -- intros (b' & s' & Hm & Hk). by inversion Hm; subst.
      * split; [done|]. intros (b' & s' & Hm & _). inversion Hm; subst.
        by rewrite Ascii.eqb_refl in E.
  - destruct s as [|d t].
    + split; [done|]. intros (b' & s' & Hm & _). inversion Hm.
    + destruct (p d) eqn:E.
      * split.
        -- intros H. exists false, t. split; [by constructor | done].
        -- intros (b' & s' & Hm & Hk). by inversion Hm; subst.
      * split; [done|]. intros (b' & s' & Hm & _). inversion Hm; congruence.
  - rewrite IH1. split.
    + intros (b1 & s1 & Hm1 & H2). apply IH2 in H2 as (b2 & s2 & Hm2 & Hk).
      exists b2, s2. split; [by econstructor | done].
    + intros (b2 & s2 & Hm & Hk). inversion Hm; subst.
      eexists _, _. split; [eassumption|]. apply IH2. eauto.
  - rewrite orb_true_iff, IH1, IH2. split.
    + intros [(b' & s' & Hm & Hk) | (b' & s' & Hm & Hk)]; exists b', s'; split; auto;
        [by apply MAltL | by apply MAltR].
    + intros (b' & s' & Hm & Hk). inversion Hm; subst; [left | right]; eauto.
  - rewrite orb_true_iff, IH1. split.
    + intros [(b' & s' & Hm & Hk) | Hk].
      * exists b', s'. split; [by apply MOptSome | done].
      * exists b, s. split; [apply MOptNone | done].
    + intros (b' & s' & Hm & Hk). inversion Hm; subst; [left; eauto | by right].
  - destruct s as [|d t].
    + split; [done|]. intros (b' & s' & Hm & _). inversion Hm.
    + destruct (p d) eqn:E.
      * rewrite plusLoop_spec. split.
        -- intros [Hk | (s' & Hm & Hk)].
           ++ exists false, t. split; [by constructor | done].
           ++ exists false, s'. split; [by apply MPlusMore | done].
        -- intros (b' & s' & Hm & Hk). inversion Hm; subst; [by left | right; eauto].
      * split; [done|]. intros (b' & s' & Hm & _). inversion Hm; congruence.
  - destruct b.
    + split; [intros H; exists true, s; split; [constructor | done]|].
      intros (b' & s' & Hm & Hk). by inversion Hm; subst.
    + split; [done|]. intros (b' & s' & Hm & _). inversion Hm.
  - destruct s as [|d t].
    + split; [intros H; exists b, EmptyString; split; [constructor | done]|].
      intros (b' & s' & Hm & Hk). by inversion Hm; subst.
    + split; [done|]. intros (b' & s' & Hm & _). inversion Hm.
  - destruct (rmatch r1 b s (fun _ _ => true)) eqn:E.
    + apply IH1 in E as (b1 & s1 & Hm1 & _). split.
      * intros Hk. exists b, s. split; [by econstructor | done].
      * intros (b' & s' & Hm & Hk). by inversion Hm; subst.
    + split; [done|]. intros (b' & s' & Hm & _).
      assert (exists b1 s1, matches r1 b s b1 s1) as (b1 & s1 & Hm1)
        by (inversion Hm; eauto).
      assert (rmatch r1 b s (fun _ _ => true) = true) by (apply IH1; eauto).
      congruence.
Qed.

Lemma search_spec (r : regex) (s : string) :
  forall b,
    search r b s = true <->
    exists pre post b' s', s = pre ++ post /\ matches r (bosAfter b pre) post b' s'.
Proof.
  induction s as [|c t IH]; intros b; simpl.
  - rewrite orb_false_r, rmatch_spec. split.
    + intros (b' & s' & Hm & _). by exists EmptyString, EmptyString, b', s'.
    + intros (pre & post & b' & s' & Heq & Hm).
      destruct pre; [|done]. simpl in *. subst post. eauto.
  - rewrite orb_true_iff, rmatch_spec, IH. split.
    + intros [(b' & s' & Hm & _) | (pre & post & b' & s' & Heq & Hm)].
      * by exists EmptyString, (String c t), b', s'.
      * exists (String c pre), post, b', s'. split; [simpl; by rewrite Heq|].
        by destruct pre.
    + intros (pre & post & b' & s' & Heq & Hm). destruct pre as [|d pre]; simpl in *.
      * subst post. left. eauto.
      * right. injection Heq as -> ->. exists pre, post, b', s'. split; [done|].
        by destruct pre.
Qed.

Lemma matches_lit (l : string) :
  forall b s b' s', matches (lit l) b s b' s' <-> s = l ++ s' /\ b' = bosAfter b l.
Proof.
  induction l as [|c l IH]; intros b s b' s'; simpl.
  - split; [intros H; by inversion H; subst|]. intros [-> ->]. constructor.
  - split.
    + intros H. inversion H as [| | |? ? ? ? b1 s1 ? ? H1 H2| | | | | | | | |]; subst.
      inversion H1; subst. apply IH in H2 as [-> ->]. split; [done|]. by destruct l.
    + intros [-> ->]. econstructor; [constructor|]. apply IH. split; [done|]. by destruct l.
Qed.

End RegexFacts.

(** ** Target matching (css-analyzer.js) *)

Module MatcherFacts.

Import Regex RegexFacts CssAnalyzer Statements ListFacts.

(** Escaping makes every code unit of the text literal. *)
Lemma ofEscaped_escapeRegex (text : string) : ofEscaped (escapeRegex text) = lit text.
Proof.
  induction text as [|c t IH]; [reflexivity|].
  simpl. destruct (isSyntaxChar c) eqn:Hs; simpl.
  - by rewrite IH.
  - destruct (Ascii.eqb c "\") eqn:E.
    + apply Ascii.eqb_eq in E. subst c. discriminate Hs.
    + by rewrite IH.
Qed.

Lemma matches_boundary_ahead b s b' s' :
  matches (Ahead (Alt (Cls boundary) Eos)) b s b' s' <-> s' = s /\ b' = b /\ bounded s.
Proof.
  split.
  - intros H. inversion H as [| | | | | | | | | | | |? ? ? b1 s1 Hin]; subst.
    split; [done|]. split; [done|].
    inversion Hin as [| | | |? ? ? ? ? ? Hc|? ? ? ? ? ? He| | | | | | |]; subst.
    + inversion Hc; subst. right. eauto.
    + inversion He; subst. by left.
  - intros (-> & -> & [-> | (ch & t & -> & Hb)]).
    + eapply MAhead. apply MAltR. constructor.
    + eapply MAhead. apply MAltL. by constructor.
Qed.

Lemma bosAfter_false (l : string) : bosAfter false l = false.
Proof. by destruct l. Qed.

Lemma matches_classPattern cls b s b' s' :
  matches (classPattern cls) b s b' s' <->
  s = "." ++ cls ++ s' /\ bounded s' /\ b' = false.
Proof.
  unfold classPattern. rewrite ofEscaped_escapeRegex. split.
  - intros H. inversion H as [| | |? ? ? ? b1 s1 ? ? H1 H2| | | | | | | | |]; subst.
    inversion H1; subst.
    inversion H2 as [| | |? ? ? ? b2 s2 ? ? H3 H4| | | | | | | | |]; subst.
    apply matches_lit in H3 as [-> ->].
    apply matches_boundary_ahead in H4 as (-> & -> & Hb).
    by rewrite bosAfter_false.
  - intros (-> & Hb & ->). simpl.
    econstructor; [constructor|].
    econstructor; [apply matches_lit; split; reflexivity|].
    apply matches_boundary_ahead. by rewrite bosAfter_false.
Qed.

Lemma test_classPattern (cls text : string) :
  test (classPattern cls) text = true <-> occursBounded cls text.
Proof.
  unfold test, occursBounded. rewrite search_spec. split.
  - intros (pre & post & b' & s' & -> & Hm).
    apply matches_classPattern in Hm as (-> & Hb & _). by exists pre, s'.
  - intros (pre & rest & -> & Hb).
    exists pre, ("." ++ cls ++ rest), false, rest. split; [done|].
    by apply matches_classPattern.
Qed.

Lemma reason_class (sel cls : string) (info : Css.targetInfo) :
  ("class: " ++ cls) ∈ reasons (checkRuleMatch sel (buildTargetSelectors info) info) <->
  cls ∈ Css.classes info /\
  (test (classPattern cls) sel || test (classPattern cls) (expandModernPseudoClasses sel))
  = true.
Proof.
  unfold checkRuleMatch, buildTargetSelectors. simpl.
  rewrite list_elem_of_omap. split.
  - intros (t & Hin & Hf).
    destruct (test (pattern t) sel || test (pattern t) (expandModernPseudoClasses sel))
      eqn:Ht; [|done].
    injection Hf as Hf.
    rewrite !elem_of_app in Hin.
    destruct Hin as [Hin | [Hin | [Hin | Hin]]].
    + apply list_elem_of_fmap in Hin as (c & -> & Hc). simpl in *.
      injection Hf as ->. done.
    + apply list_elem_of_fmap in Hin as (c & -> & Hc). discriminate Hf.
    + destruct (_ || _) in Hin; [|by apply elem_of_nil in Hin].
      apply list_elem_of_singleton in Hin as ->. discriminate Hf.
    + apply list_elem_of_fmap in Hin as (c & -> & Hc). discriminate Hf.
  - intros [Hc Ht].
    exists {| type := "class"; value := cls; pattern := classPattern cls |}. split.
    + rewrite elem_of_app. left. apply list_elem_of_fmap. eauto.
    + simpl. by rewrite Ht.
Qed.

Lemma tagPattern_empty (tag : string) :
  tag <> EmptyString -> test (tagPattern tag) EmptyString = false.
Proof.
  intros Hne. unfold tagPattern. rewrite ofEscaped_escapeRegex.
  destruct tag as [|a t]; [done | reflexivity].
Qed.

(** The empty selector matches no target whose tag name is not empty. *)
Lemma checkRuleMatch_empty (info : Css.targetInfo) :
  Css.tagName info <> EmptyString ->
  checkRuleMatch EmptyString (buildTargetSelectors info) info
  = {| isMatch := false; reasons := [] |}.
Proof.
  intros Htag. unfold checkRuleMatch.
  change (expandModernPseudoClasses EmptyString) with EmptyString.
  rewrite omap_all_None; [done|].
  intros t Ht. unfold buildTargetSelectors in Ht.
  rewrite !elem_of_app in Ht. destruct Ht as [Ht | [Ht | [Ht | Ht]]].
  - by apply list_elem_of_fmap in Ht as (c & -> & _).
  - by apply list_elem_of_fmap in Ht as (c & -> & _).
  - destruct (_ || _) in Ht; [|by apply elem_of_nil in Ht].
    apply list_elem_of_singleton in Ht as ->. simpl.
    by rewrite tagPattern_empty.
  - by apply list_elem_of_fmap in Ht as (c & -> & _).
Qed.

End MatcherFacts.

(** ** The comparator of the cascade (specificity-calculator.js) *)

Module ComparatorFacts.

Import SpecificityCalculator Statements.

Lemma specEqual_eq (a b : specificity) : specEqual a b <-> a = b.
Proof.
  destruct a, b. unfold specEqual. simpl. split.
  - by intros (-> & -> & -> & ->).
  - by intros [= -> -> -> ->].
Qed.

Lemma specHigher_unfold (a b : specificity) :
  specHigher a b <->
  (inline b < inline a \/
   (inline a = inline b /\
    (idCount b < idCount a \/
     (idCount a = idCount b /\
      (classCount b < classCount a \/
       (classCount a = classCount b /\ elementCount b < elementCount a))))))%nat.
Proof. by destruct a, b. Qed.

(** The three results of [compareSpecificity] and what each means. *)
Lemma compareSpecificity_cases (a b : specificity) :
  (compareSpecificity a b = 1%Z /\ specHigher a b)
  \/ (compareSpecificity a b = (-1)%Z /\ specHigher b a)
  \/ (compareSpecificity a b = 0%Z /\ specEqual a b).
Proof.
  rewrite !specHigher_unfold. unfold compareSpecificity, specEqual.
  repeat match goal with
         | |- context [Nat.ltb ?x ?y] => destruct (Nat.ltb_spec x y)
         end; lia.
Qed.

Lemma outranks_unfold (w c : rule) :
  outranks w c <->
  (important w = true /\ important c = false) \/
  (important w = important c /\
   (specHigher (spec w) (spec c) \/
    (specEqual (spec w) (spec c) /\
     (fileOrder c < fileOrder w \/
      (fileOrder w = fileOrder c /\ globalOrder c < globalOrder w)))))%nat.
Proof. unfold outranks. by rewrite <- specEqual_eq. Qed.

Lemma compareRules_cases (a b : rule) :
  ((0 < compareRules a b)%Z /\ outranks a b)
  \/ ((compareRules a b < 0)%Z /\ outranks b a)
  \/ (compareRules a b = 0%Z /\ sameRank a b).
Proof.
  rewrite !outranks_unfold. unfold compareRules, sameRank.
  destruct (important a), (important b); simpl; try (left; split; [lia | tauto]);
    try (right; left; split; [lia | tauto]);
    destruct (compareSpecificity_cases (spec a) (spec b)) as [[E H] | [[E H] | [E H]]];
    rewrite ?E in *; rewrite ?specHigher_unfold in *; unfold specEqual in *; simpl;
    try destruct (Nat.eqb_spec (fileOrder a) (fileOrder b)); simpl; lia.
Qed.


Lemma outranks_asym (a b : rule) : outranks a b -> ~ outranks b a.
Proof.
  rewrite !outranks_unfold, !specHigher_unfold. unfold specEqual.
  destruct (important a), (important b); intros H1 H2;
    repeat match goal with
           | H : true = false |- _ => discriminate H
           | H : false = true |- _ => discriminate H
           | H : _ /\ _ |- _ => destruct H
           | H : _ \/ _ |- _ => destruct H
           end; lia.
Qed.

Lemma outranks_sameRank (a b : rule) : outranks a b -> ~ sameRank a b.
Proof.
  rewrite outranks_unfold, specHigher_unfold. unfold sameRank, specEqual.
  destruct (important a), (important b); intros H1 H2;
    repeat match goal with
           | H : true = false |- _ => discriminate H
           | H : false = true |- _ => discriminate H
           | H : _ /\ _ |- _ => destruct H
           | H : _ \/ _ |- _ => destruct H
           end; lia.
Qed.

Lemma compareRules_pos (a b : rule) : (0 < compareRules a b)%Z <-> outranks a b.
Proof.
  destruct (compareRules_cases a b) as [[Hc Ho] | [[Hc Ho] | [Hc Ho]]].
  - tauto.
  - split; [lia|]. intros H. by apply outranks_asym in H.
  - split; [lia|]. intros H. by apply outranks_sameRank in H.
Qed.

Lemma compareRules_neg (a b : rule) : (compareRules a b < 0)%Z <-> outranks b a.
Proof.
  destruct (compareRules_cases a b) as [[Hc Ho] | [[Hc Ho] | [Hc Ho]]].
  - split; [lia|]. intros H. by apply outranks_asym in H.
  - tauto.
  - split; [lia|]. intros H. apply outranks_sameRank in H. destruct H.
    unfold sameRank, specEqual in *. intuition congruence.
Qed.

Lemma compareRules_zero (a b : rule) : compareRules a b = 0%Z <-> sameRank a b.
Proof.
  destruct (compareRules_cases a b) as [[Hc Ho] | [[Hc Ho] | [Hc Ho]]].
  - split; [lia|]. intros H. by apply outranks_sameRank in Ho.
  - split; [lia|]. intros H. apply outranks_sameRank in Ho. destruct Ho.
    unfold sameRank, specEqual in *. intuition congruence.
  - tauto.
Qed.

Lemma notAfter_iff (a b : rule) : notAfter a b <-> ~ outranks a b.
Proof. unfold notAfter. rewrite <- compareRules_pos. lia. Qed.

Lemma notAfter_total (a b : rule) : notAfter a b \/ notAfter b a.
Proof.
  unfold notAfter.
  destruct (compareRules_cases a b) as [[Hc Ho] | [[Hc Ho] | [Hc Ho]]]; [|lia|lia].
  right. apply compareRules_neg in Ho. lia.
Qed.

Lemma outranks_trans (a b c : rule) : outranks a b -> outranks b c -> outranks a c.
Proof.
  rewrite !outranks_unfold, !specHigher_unfold. unfold specEqual.
  destruct (important a), (important b), (important c); intros H1 H2;
    repeat match goal with
           | H : true = false |- _ => discriminate H
           | H : false = true |- _ => discriminate H
           | H : _ /\ _ |- _ => destruct H
           | H : _ \/ _ |- _ => destruct H
           end; try lia; try (left; done); right; split; try done; lia.
Qed.

Lemma notAfter_trans (a b c : rule) : notAfter a b -> notAfter b c -> notAfter a c.
Proof.
  rewrite !notAfter_iff. intros Hab Hbc Hac.
  destruct (compareRules_cases b c) as [[Hc Ho] | [[Hc Ho] | [Hc Ho]]]; [done| |].
  - destruct (compareRules_cases a b) as [[Hc' Ho'] | [[Hc' Ho'] | [Hc' Ho']]]; [done| |].
    + apply (outranks_asym a c Hac). eapply outranks_trans; eassumption.
    + revert Hac Ho Ho'. rewrite !outranks_unfold, !specHigher_unfold.
      unfold sameRank, specEqual.
      destruct (important a), (important b), (important c); intros;
        repeat match goal with
               | H : true = false |- _ => discriminate H
               | H : false = true |- _ => discriminate H
               | H : _ /\ _ |- _ => destruct H
               | H : _ \/ _ |- _ => destruct H
               end; lia.
  - revert Hac Hab Ho. rewrite !outranks_unfold, !specHigher_unfold.
    unfold sameRank, specEqual.
    destruct (important a), (important b), (important c); intros Hac Hab Ho;
      apply Hab; clear Hab;
      repeat match goal with
             | H : true = false |- _ => discriminate H
             | H : false = true |- _ => discriminate H
             | H : _ /\ _ |- _ => destruct H
             | H : _ \/ _ |- _ => destruct H
             end; try lia; try (left; done); right; split; try done; lia.
Qed.

End ComparatorFacts.

(** ** Sorting the candidates *)

Module SortFacts.

Import SpecificityCalculator Statements ComparatorFacts.

Lemma insertSorted_perm (x : rule) (l : list rule) :
  Permutation (insertSorted compareRules x l) (x :: l).
Proof.
  induction l as [|y l IH]; simpl; [done|].
  destruct (Z.leb _ _); [done|].
  rewrite IH. apply perm_swap.
Qed.

Lemma sort_perm (l : list rule) : Permutation (sort compareRules l) l.
Proof.
  induction l as [|x l IH]; simpl; [done|].
  by rewrite insertSorted_perm, IH.
Qed.

Lemma insertSorted_sorted (x : rule) (l : list rule) :
  StronglySorted notAfter l -> StronglySorted notAfter (insertSorted compareRules x l).
Proof.
  induction l as [|y l IH]; simpl; intros Hs.
  - repeat constructor.
  - apply StronglySorted_inv in Hs as [Hs Hy].
    destruct (Z.leb_spec (compareRules x y) 0) as [Hle | Hgt].
    + constructor; [by constructor|].
      constructor; [done|].
      eapply Forall_impl; [exact Hy|]. intros z Hz. by apply (notAfter_trans x y z).
    + constructor; [by apply IH|].
      rewrite (insertSorted_perm x l). constructor; [|done].
      destruct (notAfter_total x y) as [H | H]; [unfold notAfter in H; lia | done].
Qed.

Lemma sort_sorted (l : list rule) : StronglySorted notAfter (sort compareRules l).
Proof.
  induction l as [|x l IH]; simpl; [constructor|]. by apply insertSorted_sorted.
Qed.

(** A sorted arrangement is unique when no two members tie, so that the
    algorithm behind [Array.prototype.sort] does not show in the result. *)
Lemma sorted_perm_unique (l1 l2 : list rule) :
  StronglySorted notAfter l1 -> StronglySorted notAfter l2 -> Permutation l1 l2 ->
  (forall a b, a ∈ l1 -> b ∈ l1 -> notAfter a b -> notAfter b a -> a = b) ->
  l1 = l2.
Proof.
  revert l2. induction l1 as [|x l1 IH]; intros l2 H1 H2 Hp Hanti.
  - by apply Permutation_nil in Hp.
  - destruct l2 as [|y l2]; [by apply Permutation_sym, Permutation_nil in Hp|].
    apply StronglySorted_inv in H1 as [H1 Hx]. apply StronglySorted_inv in H2 as [H2 Hy].
    assert (x = y) as ->.
    { assert (y ∈ x :: l1) as Hyin by (rewrite Hp; left).
      assert (x ∈ y :: l2) as Hxin by (rewrite <- Hp; left).
      apply elem_of_cons in Hyin as [-> | Hyin]; [done|].
      apply elem_of_cons in Hxin as [-> | Hxin]; [done|].
      rewrite Forall_forall in Hx, Hy.
      apply Hanti.
      - apply list_elem_of_here.
      - by apply list_elem_of_further.
      - by apply Hx.
      - by apply Hy. }
    f_equal. apply Permutation_cons_inv in Hp.
    apply IH; [done | done | done |].
    intros a b Ha Hb. apply Hanti; by right.
Qed.

Lemma sorted_last_greatest (l : list rule) (w : rule) :
  StronglySorted notAfter (l ++ [w])%list -> Forall (fun c => notAfter c w) l.
Proof.
  induction l as [|x l IH]; simpl; intros Hs; [constructor|].
  apply StronglySorted_inv in Hs as [Hs Hx]. constructor; [|by apply IH].
  rewrite Forall_forall in Hx. apply Hx. apply elem_of_app. right. apply list_elem_of_here.
Qed.

Lemma sorted_app_l (l1 l2 : list rule) :
  StronglySorted notAfter (l1 ++ l2)%list -> StronglySorted notAfter l1.
Proof.
  induction l1 as [|x l1 IH]; simpl; intros Hs; [constructor|].
  apply StronglySorted_inv in Hs as [Hs Hx]. constructor; [by apply IH|].
  apply Forall_app in Hx. tauto.
Qed.

(** What [decideProperty] returns, and that it returns for two candidates or
    more. *)
Lemma decideProperty_Some (rules : list rule) (d : decision) :
  decideProperty rules = Some d ->
  (2 <= List.length rules)%nat
  /\ sort compareRules rules = (losers d ++ [winner d])%list
  /\ hasConflict d = Nat.ltb 0 (List.length (losers d)).
Proof.
  unfold decideProperty. destruct (Nat.leb_spec (List.length rules) 1) as [|Hlen]; [done|].
  destruct (last (sort compareRules rules)) as [w|] eqn:Hlast; [|done].
  intros [= <-]. simpl. split; [lia|]. split; [|done].
  apply last_Some in Hlast as [l' ->]. by rewrite removelast_last.
Qed.

Lemma decideProperty_total (rules : list rule) :
  (2 <= List.length rules)%nat -> exists d, decideProperty rules = Some d.
Proof.
  intros Hlen. unfold decideProperty.
  destruct (Nat.leb_spec (List.length rules) 1) as [|_]; [lia|].
  destruct (last (sort compareRules rules)) as [w|] eqn:Hlast; [eauto|].
  apply last_None in Hlast.
  pose proof (Permutation_length (sort_perm rules)) as Hl.
  rewrite Hlast in Hl. simpl in Hl. lia.
Qed.


End SortFacts.

(** ** The grouping loop of [analyzeConflicts] *)

Module GroupingFacts.

Import SpecificityCalculator Statements ComparatorFacts SortFacts ListFacts.

Section Grouping.

Variable calculate : string -> Css.outcome (option SpecificityLib.abc).
Variable linked : list string.

Lemma pushRule_grouped (st : grouping) (r : nat -> rule) (prop : string) :
  grouped calculate linked st ->
  globalOrder (r (snd st)) = snd st ->
  recorded calculate linked (r (snd st)) ->
  grouped calculate linked (pushRule st r prop).
Proof.
  intros Hst Hg Hrec prop' rules'. unfold pushRule. simpl.
  destruct (decide (prop = prop')) as [<- | Hne].
  - rewrite lookup_insert_eq. intros [= <-].
    destruct (fst st !! prop) as [rules|] eqn:Hlook.
    + destruct (Hst prop rules Hlook) as [Hs Hall]. split.
      * apply StronglySorted_snoc; [done|].
        eapply Forall_impl; [exact Hall|]. simpl. intros x [Hx _]. lia.
      * apply Forall_app. split.
        -- eapply Forall_impl; [exact Hall|]. simpl. intros x [Hx Hr]. split; [lia | done].
        -- constructor; [split; [lia | done] | constructor].
    + simpl. split; [repeat constructor|].
      constructor; [split; [lia | done] | constructor].
  - rewrite lookup_insert_ne by done. intros Hlook.
    destruct (Hst prop' rules' Hlook) as [Hs Hall]. split; [done|].
    eapply Forall_impl; [exact Hall|]. simpl. intros x [Hx Hr]. split; [lia | done].
Qed.

Lemma addMatch_grouped (path : string) (st : grouping) (m : Css.cssMatch) :
  grouped calculate linked st ->
  grouped calculate linked
    (addMatch calculate path (fileOrderValue (buildFileOrder linked 0 ∅) path) st m).
Proof.
  unfold addMatch. revert st. apply fold_left_preserves.
  intros st pv Hst. apply pushRule_grouped; [done | done |].
  by repeat split.
Qed.

Lemma addResult_grouped (st : grouping) (result : Css.cssResult) :
  grouped calculate linked st ->
  grouped calculate linked (addResult calculate (buildFileOrder linked 0 ∅) st result).
Proof.
  unfold addResult. revert st. apply fold_left_preserves.
  intros st m. apply addMatch_grouped.
Qed.

Lemma groupRules_grouped (cssResults : list Css.cssResult) :
  grouped calculate linked (groupRules calculate cssResults linked).
Proof.
  unfold groupRules. apply fold_left_preserves.
  - intros st result. apply addResult_grouped.
  - intros prop rules. simpl. by rewrite lookup_empty.
Qed.

End Grouping.

(** [fileOrder] after the [forEach] over the linked files. *)
Lemma buildFileOrder_unlisted (files : list string) :
  forall i acc f, f ∉ files -> buildFileOrder files i acc !! f = acc !! f.
Proof.
  induction files as [|g rest IH]; intros i acc f Hf; simpl; [done|].
  apply not_elem_of_cons in Hf as [Hne Hf].
  rewrite IH by done. by rewrite lookup_insert_ne.
Qed.

Lemma buildFileOrder_listed (files : list string) :
  forall i acc f,
    f ∈ files ->
    exists k, buildFileOrder files i acc !! f = Some (i + k) /\ linkedAt files f k.
Proof.
  induction files as [|g rest IH]; intros i acc f Hf; simpl.
  - by apply elem_of_nil in Hf.
  - destruct (decide (f ∈ rest)) as [Hin | Hout].
    + destruct (IH (S i) (<[g:=i]> acc) f Hin) as (k & Hk & Hat & Hlast).
      exists (S k). split; [rewrite Hk; f_equal; lia|]. split; [done|].
      intros [|j] Hj; [lia|]. simpl. apply Hlast. lia.
    + apply elem_of_cons in Hf as [-> | Hf]; [|done].
      exists 0. rewrite buildFileOrder_unlisted by done.
      rewrite lookup_insert_eq. split; [f_equal; lia|]. split; [done|].
      intros [|j] Hj; [lia|]. simpl. intros Hj'. apply Hout.
      by apply list_elem_of_lookup_2 in Hj'.
Qed.

Lemma linkedAt_unique (files : list string) (f : string) (i j : nat) :
  linkedAt files f i -> linkedAt files f j -> i = j.
Proof.
  intros [Hi Hil] [Hj Hjl].
  destruct (Nat.lt_trichotomy i j) as [H | [H | H]]; [|done|].
  - by apply Hil in H.
  - by apply Hjl in H.
Qed.


Lemma fileOrderValue_listed (linked : list string) (f : string) (i : nat) :
  linkedAt linked f i -> fileOrderValue (buildFileOrder linked 0 ∅) f = i.
Proof.
  intros Hat. unfold fileOrderValue.
  destruct (buildFileOrder_listed linked 0 ∅ f) as (k & -> & Hk).
  - destruct Hat as [Hat _]. by apply list_elem_of_lookup_2 in Hat.
  - simpl. eapply linkedAt_unique; eassumption.
Qed.


End GroupingFacts.

(** ** The decision for one property *)

Module CascadeFacts.

Import SpecificityCalculator Statements ComparatorFacts SortFacts GroupingFacts ListFacts.

Lemma analyze_lookup calculate (cssResults : list Css.cssResult) (linked : list string)
    (prop : string) (d : decision) :
  analyzeConflicts calculate cssResults linked !! prop = Some d <->
  exists rules,
    fst (groupRules calculate cssResults linked) !! prop = Some rules
    /\ decideProperty rules = Some d.
Proof.
  unfold analyzeConflicts. rewrite lookup_omap_Some. split.
  - intros (rules & Hd & Hl). eauto.
  - intros (rules & Hl & Hd). eauto.
Qed.

Lemma declarationOrder_NoDup (rules : list rule) :
  declarationOrder rules -> NoDup (globalOrder <$> rules).
Proof.
  induction rules as [|x l IH]; intros Hs; [constructor|].
  apply StronglySorted_inv in Hs as [Hs Hx]. rewrite fmap_cons.
  constructor; [|by apply IH].
  intros Hin. apply list_elem_of_fmap in Hin as (y & Hy & Hin).
  rewrite Forall_forall in Hx. specialize (Hx y Hin). simpl in Hx. lia.
Qed.

Lemma sorted_strict (l : list rule) :
  StronglySorted notAfter l -> NoDup (globalOrder <$> l) -> closestLast l.
Proof.
  unfold closestLast. induction l as [|x l IH]; intros Hs Hnd; [constructor|].
  apply StronglySorted_inv in Hs as [Hs Hx].
  rewrite fmap_cons in Hnd. apply NoDup_cons in Hnd as [Hx' Hnd].
  constructor; [by apply IH|].
  rewrite Forall_forall in Hx. apply Forall_forall. intros y Hy.
  apply compareRules_neg.
  assert (compareRules x y <> 0%Z) as Hne.
  { intros Hz. apply compareRules_zero in Hz as (_ & _ & _ & Hg).
    apply Hx'. rewrite Hg. apply list_elem_of_fmap. eauto. }
  specialize (Hx y Hy). unfold notAfter in Hx. lia.
Qed.

Lemma closestLast_snoc_inv (l : list rule) (w : rule) :
  closestLast (l ++ [w])%list -> closestLast l /\ Forall (fun c => outranks w c) l.
Proof.
  unfold closestLast. induction l as [|x l IH]; simpl; intros Hs.
  - split; constructor.
  - apply StronglySorted_inv in Hs as [Hs Hx]. apply IH in Hs as [Hl Hw].
    apply Forall_app in Hx as [Hxl Hxw]. split.
    + by constructor.
    + constructor; [|done]. by apply Forall_cons in Hxw as [Hxw _].
Qed.

Lemma closestLast_rev (l : list rule) : closestLast l -> closestFirst (rev l).
Proof.
  unfold closestLast, closestFirst. induction l as [|x l IH]; simpl; intros Hs; [constructor|].
  apply StronglySorted_inv in Hs as [Hs Hx].
  apply StronglySorted_snoc; [by apply IH|].
  apply Forall_forall. intros y Hy. rewrite Forall_forall in Hx. apply Hx.
  apply list_elem_of_In. apply in_rev. by apply list_elem_of_In.
Qed.

(** The sorted candidates of a property: weakest first, the winner last. *)
Lemma decision_ranked (rules : list rule) (d : decision) :
  declarationOrder rules -> decideProperty rules = Some d ->
  Permutation (losers d ++ [winner d])%list rules
  /\ closestLast (losers d ++ [winner d])%list
  /\ hasConflict d = true.
Proof.
  intros Hdecl Hd. apply decideProperty_Some in Hd as (Hlen & Hsort & Hc).
  assert (Permutation (losers d ++ [winner d])%list rules) as Hperm
    by (rewrite <- Hsort; apply sort_perm).
  split; [done|]. split.
  - apply sorted_strict.
    + rewrite <- Hsort. apply sort_sorted.
    + rewrite Hperm. by apply declarationOrder_NoDup.
  - rewrite Hc. apply Nat.ltb_lt.
    apply Permutation_length in Hperm. rewrite length_app in Hperm. simpl in Hperm. lia.
Qed.

(** The number [globalOrder] identifies a candidate of a property. *)
Lemma members_same_order (rules : list rule) (a b : rule) :
  declarationOrder rules -> a ∈ rules -> b ∈ rules ->
  globalOrder a = globalOrder b -> a = b.
Proof.
  intros Hdecl. induction rules as [|x l IH]; intros Ha Hb Heq.
  - by apply elem_of_nil in Ha.
  - apply StronglySorted_inv in Hdecl as [Hs Hx]. rewrite Forall_forall in Hx.
    apply elem_of_cons in Ha as [-> | Ha]; apply elem_of_cons in Hb as [-> | Hb].
    + done.
    + specialize (Hx b Hb). simpl in Hx. lia.
    + specialize (Hx a Ha). simpl in Hx. lia.
    + by apply IH.
Qed.

Lemma members_distinct (rules : list rule) (a b : rule) :
  declarationOrder rules -> a ∈ rules -> b ∈ rules -> a <> b ->
  globalOrder a <> globalOrder b.
Proof.
  intros Hdecl Ha Hb Hne Heq. apply Hne. by apply (members_same_order rules).
Qed.

(** Whatever algorithm [Array.prototype.sort] runs, the sorted candidates of
    a property are the list the insertion sort builds: there is one sorted
    arrangement of them. *)
Lemma sorted_arrangement_unique (rules sorted : list rule) :
  declarationOrder rules -> Permutation sorted rules ->
  StronglySorted notAfter sorted ->
  sorted = sort compareRules rules.
Proof.
  intros Hdecl Hperm Hs. apply sorted_perm_unique; [done | apply sort_sorted | |].
  - by rewrite Hperm, sort_perm.
  - intros a b Ha Hb Hab Hba. rewrite Hperm in Ha, Hb.
    apply (members_same_order rules); [done | done | done |].
    assert (compareRules a b = 0%Z) as Hz.
    { unfold notAfter in *.
      destruct (compareRules_cases a b) as [[Hc _] | [[_ Ho] | [Hc _]]]; [lia | | done].
      apply compareRules_pos in Ho. lia. }
    by apply compareRules_zero in Hz as (_ & _ & _ & Hg).
Qed.

Lemma members_comparable (rules : list rule) (a b : rule) :
  declarationOrder rules -> a ∈ rules -> b ∈ rules -> a <> b ->
  outranks a b \/ outranks b a.
Proof.
  intros Hdecl Ha Hb Hne.
  pose proof (members_distinct rules a b Hdecl Ha Hb Hne) as Hg.
  destruct (compareRules_cases a b) as [[_ Ho] | [[_ Ho] | [_ Ho]]]; [by left | by right|].
  by destruct Ho as (_ & _ & _ & Ho).
Qed.

End CascadeFacts.

(** ** Nested selectors (css-analyzer.js) *)

Module ResolverFacts.

Import JsString CssAnalyzer Statements.

Lemma startsWith_empty (s : string) : startsWith s EmptyString = true.
Proof. by destruct s. Qed.

Lemma includes_char (s : string) (c : ascii) :
  includes s (String c EmptyString) = charIn s c.
Proof.
  induction s as [|d t IH]; simpl; [done|].
  by rewrite IH, startsWith_empty, andb_true_r.
Qed.

Lemma charIn_app (s t : string) (c : ascii) :
  charIn (s ++ t) c = (charIn s c || charIn t c)%bool.
Proof.
  induction s as [|d s IH]; simpl; [done|]. rewrite IH. by destruct (Ascii.eqb c d).
Qed.

Lemma literal_getSubstitution (tpl matched before after : string) :
  literalTemplate tpl = true -> getSubstitution tpl matched before after = tpl.
Proof.
  induction tpl as [|c rest IH]; simpl; [done|].
  destruct (Ascii.eqb c "$") eqn:Hc.
  - apply Ascii.eqb_eq in Hc. subst c.
    destruct rest as [|d rest']; [done|].
    intros H. apply andb_true_iff in H as [Hd Hrest]. specialize (IH Hrest).
    simpl in Hd. apply negb_true_iff in Hd.
    apply orb_false_iff in Hd as [H1 Hd]. apply orb_false_iff in Hd as [H2 Hd].
    apply orb_false_iff in Hd as [H3 Hd]. apply orb_false_iff in Hd as [H4 _].
    simpl in IH. rewrite H1 in IH. rewrite H1, H2, H3, H4. by rewrite IH.
  - intros H. by rewrite IH.
Qed.

Lemma replaceAmpFrom_literal (self branch : string) :
  literalTemplate branch = true ->
  forall before, replaceAmpFrom before self branch = substituteAmp self branch.
Proof.
  intros Hlit. induction self as [|c t IH]; intros before; simpl; [done|].
  destruct (Ascii.eqb c "&").
  - by rewrite literal_getSubstitution, IH.
  - by rewrite IH.
Qed.

Lemma replaceAmp_literal (self branch : string) :
  literalTemplate branch = true -> replaceAmp self branch = substituteAmp self branch.
Proof. intros H. by apply replaceAmpFrom_literal. Qed.

Lemma noDollar_literal (s : string) : charIn s "$" = false -> literalTemplate s = true.
Proof.
  induction s as [|c t IH]; simpl; [done|].
  intros H. apply orb_false_iff in H as [Hc Ht].
  rewrite Ascii.eqb_sym, Hc. by apply IH.
Qed.

(** Texts that lack a given code unit, through the operations of the
    resolver. *)
Lemma split_nonempty (sep : ascii) (s : string) : split sep s <> [].
Proof.
  destruct s as [|c t]; simpl; [done|].
  destruct (Ascii.eqb c sep); [done|]. by destruct (split sep t).
Qed.

Lemma split_lacks (sep c : ascii) (s : string) :
  charIn s c = false -> Forall (fun piece => charIn piece c = false) (split sep s).
Proof.
  induction s as [|d t IH]; simpl; intros H.
  - by repeat constructor.
  - apply orb_false_iff in H as [Hd Ht]. specialize (IH Ht).
    destruct (Ascii.eqb d sep).
    + by constructor.
    + destruct (split sep t) as [|h r]; [by repeat constructor; simpl; rewrite Hd|].
      apply Forall_cons in IH as [Hh Hr]. constructor; [|done].
      simpl. by rewrite Hd, Hh.
Qed.

Lemma trimStart_lacks (c : ascii) (s : string) :
  charIn s c = false -> charIn (trimStart s) c = false.
Proof.
  induction s as [|d t IH]; simpl; [done|]. intros H.
  destruct (isWhiteSpace d); [|done].
  apply orb_false_iff in H as [_ Ht]. by apply IH.
Qed.

Lemma trimEnd_lacks (c : ascii) (s : string) :
  charIn s c = false -> charIn (trimEnd s) c = false.
Proof.
  induction s as [|d t IH]; simpl; [done|]. intros H.
  apply orb_false_iff in H as [Hd Ht]. specialize (IH Ht).
  destruct (trimEnd t) as [|e t'].
  - destruct (isWhiteSpace d); [done|]. simpl. by rewrite Hd.
  - simpl in *. by rewrite Hd, IH.
Qed.

Lemma trim_lacks (c : ascii) (s : string) :
  charIn s c = false -> charIn (trim s) c = false.
Proof. intros H. by apply trimEnd_lacks, trimStart_lacks. Qed.

Lemma fanOut_lacks (c : ascii) (s : string) :
  charIn s c = false -> Forall (fun piece => charIn piece c = false) (fanOut s).
Proof.
  intros H. unfold fanOut. apply Forall_fmap.
  eapply Forall_impl; [by apply split_lacks|]. intros piece. apply trim_lacks.
Qed.

Lemma join_lacks (c : ascii) (sep : string) (parts : list string) :
  charIn sep c = false -> Forall (fun piece => charIn piece c = false) parts ->
  charIn (join sep parts) c = false.
Proof.
  intros Hsep. induction parts as [|p rest IH]; intros Hall; [done|].
  apply Forall_cons in Hall as [Hp Hrest]. simpl.
  destruct rest as [|q rest']; [done|].
  rewrite !charIn_app, Hp, Hsep. simpl. by apply IH.
Qed.

Lemma substituteAmp_lacks (c : ascii) (self branch : string) :
  charIn branch c = false ->
  c = "&"%char \/ charIn self c = false ->
  charIn (substituteAmp self branch) c = false.
Proof.
  intros Hb. induction self as [|d t IH]; simpl; [done|]. intros Hs.
  destruct (Ascii.eqb d "&") eqn:Hd.
  - rewrite charIn_app, Hb. simpl. apply IH.
    destruct Hs as [-> | Hs]; [by left | right].
    by apply orb_false_iff in Hs as [_ Ht].
  - simpl. destruct Hs as [-> | Hs].
    + rewrite Ascii.eqb_sym, Hd. simpl. apply IH. by left.
    + apply orb_false_iff in Hs as [Hc Ht]. rewrite Hc. simpl. apply IH. by right.
Qed.

(** The resolved selector of a plain chain contains neither [&] nor [$]. *)
Lemma resolve_plain (rule : node) :
  plainChain rule ->
  charIn (resolveNestedSelector rule) "&" = false
  /\ charIn (resolveNestedSelector rule) "$" = false.
Proof.
  induction rule as [|name params parent IH|sel parent IH]; [done | done |].
  destruct parent as [|pname pparams pparent|psel pparent].
  - simpl. tauto.
  - simpl. tauto.
  - intros [Hsel Hparent]. destruct (IH Hparent) as [Hamp Hdol]. clear IH.
    change (resolveNestedSelector (Rule sel (Rule psel pparent))) with
      (let parentSelector := resolveNestedSelector (Rule psel pparent) in
       if includes sel "&" then
         if includes parentSelector "," then
           join ", " (map (fun p => replaceAmp sel p) (fanOut parentSelector))
         else replaceAmp sel parentSelector
       else if includes parentSelector "," then
         join ", " (map (fun p => p ++ " " ++ sel) (fanOut parentSelector))
       else parentSelector ++ " " ++ sel).
    set (P := resolveNestedSelector (Rule psel pparent)) in *. simpl.
    pose proof (fanOut_lacks "&" P Hamp) as Hfa.
    pose proof (fanOut_lacks "$" P Hdol) as Hfd.
    assert (Forall (fun p => charIn p "&" = false /\ charIn p "$" = false) (fanOut P)) as Hf.
    { apply Forall_forall. intros p Hp. rewrite Forall_forall in Hfa, Hfd. auto. }
    destruct (includes sel "&") eqn:Hinc.
    + destruct (includes P ",").
      * split; apply join_lacks; try done; apply Forall_fmap;
          (eapply Forall_impl; [exact Hf|]); intros p [Hpa Hpd]; simpl;
          rewrite replaceAmp_literal by (by apply noDollar_literal);
          apply substituteAmp_lacks; auto.
      * rewrite replaceAmp_literal by (by apply noDollar_literal).
        split; apply substituteAmp_lacks; auto.
    + rewrite includes_char in Hinc.
      destruct (includes P ",").
      * split; apply join_lacks; try done; apply Forall_fmap;
          (eapply Forall_impl; [exact Hf|]); intros p [Hpa Hpd]; simpl;
          rewrite !charIn_app; simpl; rewrite ?Hpa, ?Hpd, ?Hinc, ?Hsel; done.
      * split; rewrite !charIn_app; simpl; rewrite ?Hamp, ?Hdol, ?Hinc, ?Hsel; done.
Qed.

Lemma split_two (sep : ascii) (s : string) :
  charIn s sep = true -> (2 <= List.length (split sep s))%nat.
Proof.
  induction s as [|d t IH]; simpl; [done|].
  rewrite (Ascii.eqb_sym sep d). destruct (Ascii.eqb d sep); simpl.
  - intros _. pose proof (split_nonempty sep t). destruct (split sep t); [done | simpl; lia].
  - intros H. specialize (IH H). destruct (split sep t); simpl in *; lia.
Qed.

End ResolverFacts.

(** ** Specificity (specificity-calculator.js and the package model) *)

Module SpecificityFacts.

Import Css SpecificityCalculator.

(** Inside the parentheses of [:where(...)] nothing is counted. *)
Lemma run_skip (arg rest : string) (d depth : nat) (n : SpecificityLib.abc) :
  JsString.charIn arg "(" = false -> JsString.charIn arg ")" = false ->
  SpecificityLib.run (SpecificityLib.Skip d) depth n (arg ++ rest)
  = SpecificityLib.run (SpecificityLib.Skip d) depth n rest.
Proof.
  induction arg as [|c t IH]; simpl; [done|].
  intros Ho Hc. apply orb_false_iff in Ho as [Ho Ht]. apply orb_false_iff in Hc as [Hc Ht'].
  rewrite (Ascii.eqb_sym c "("), Ho, (Ascii.eqb_sym c ")"), Hc. by apply IH.
Qed.

Lemma calculate_where (arg : string) :
  JsString.charIn arg "(" = false -> JsString.charIn arg ")" = false ->
  SpecificityLib.calculate (":where(" ++ arg ++ ")")
  = Returns (Some {| SpecificityLib.A := 0; SpecificityLib.B := 0; SpecificityLib.C := 0 |}).
Proof.
  intros Ho Hc. unfold SpecificityLib.calculate.
  change (SpecificityLib.run SpecificityLib.Start 0
            {| SpecificityLib.A := 0; SpecificityLib.B := 0; SpecificityLib.C := 0 |}
            (":where(" ++ arg ++ ")"))
    with (SpecificityLib.run (SpecificityLib.Skip 1) 0
            {| SpecificityLib.A := 0; SpecificityLib.B := 0; SpecificityLib.C := 0 |}
            (arg ++ ")")).
  by rewrite run_skip.
Qed.

Lemma inline_zero calculate (selector : jsval) :
  inline (calculateSpecificity calculate selector) = 0.
Proof.
  destruct selector as [| | | |s|]; simpl; try done.
  destruct (String.eqb s EmptyString); [done|].
  by destruct (calculate s) as [[r|]|].
Qed.

Lemma throws_zero calculate (s : string) :
  calculate s = Throws -> calculateSpecificity calculate (JStr s) = zero.
Proof.
  intros H. simpl. rewrite H. by destruct (String.eqb s EmptyString).
Qed.

Lemma not_string_zero calculate (v : jsval) :
  (forall s, v <> JStr s) -> calculateSpecificity calculate v = zero.
Proof. intros H. destruct v; try done. by destruct (H s). Qed.

End SpecificityFacts.

(** ** Ghost classes (ghost-detector.js) *)

Module GhostFacts.

Import Css GhostDetector ListFacts.

Lemma setHas_true (set : list string) (x : string) : setHas set x = true <-> x ∈ set.
Proof. unfold setHas. by rewrite bool_decide_eq_true. Qed.

Lemma setHas_false (set : list string) (x : string) : setHas set x = false <-> x ∉ set.
Proof. unfold setHas. by rewrite bool_decide_eq_false. Qed.

(** The callback of the filter, read as a statement. *)
Lemma isGhost_true (defined : list string) (cls : string) :
  isGhost defined cls = true <->
  (className cls ∉ defined) /\ (cls ∉ defined) /\ isUtility cls = false.
Proof.
  unfold isGhost. rewrite <- !setHas_false.
  destruct (setHas defined (className cls)), (setHas defined cls), (isUtility cls);
    simpl; intuition congruence.
Qed.

Lemma ghostClasses_spec (info : targetInfo) (cssResults cssLibraryResults : list cssResult)
    (inlineStyles : list inlineStyle) (cls : string) :
  cls ∈ ghostClasses (detectGhostClasses info cssResults cssLibraryResults inlineStyles) <->
  cls ∈ classes info
  /\ isGhost (definedClasses
                (detectGhostClasses info cssResults cssLibraryResults inlineStyles)) cls
     = true.
Proof.
  unfold detectGhostClasses.
  destruct (Nat.eqb_spec (List.length (classes info)) 0) as [Hlen | Hlen].
  - apply nil_length_inv in Hlen. rewrite Hlen. simpl.
    split; [intros H; by apply elem_of_nil in H | intros [H _]; by apply elem_of_nil in H].
  - cbn [ghostClasses definedClasses]. rewrite !list_elem_of_In. apply filter_In.
Qed.

Lemma setAdd_mono (x y : string) (set : list string) : x ∈ set -> x ∈ setAdd y set.
Proof.
  unfold setAdd. destruct (bool_decide (y ∈ set)); [done|].
  intros H. apply elem_of_app. by left.
Qed.

Lemma setAdd_hit (x : string) (set : list string) : x ∈ setAdd x set.
Proof.
  unfold setAdd. destruct (bool_decide (x ∈ set)) eqn:E.
  - by apply bool_decide_eq_true in E.
  - apply elem_of_app. right. apply list_elem_of_here.
Qed.

Lemma processMatchedOn_mono (x : string) (matchedOn defined : list string) :
  x ∈ defined -> x ∈ processMatchedOn defined matchedOn.
Proof.
  unfold processMatchedOn. revert defined.
  apply (fold_left_preserves (fun set => x ∈ set)).
  intros set item Hx. destruct (JsString.startsWith item "class:"); [|done].
  by apply setAdd_mono.
Qed.

Lemma processMatchedOn_hit (item : string) (matchedOn defined : list string) :
  item ∈ matchedOn -> JsString.startsWith item "class:" = true ->
  ("." ++ JsString.trim (JsString.removeFirst (JsString.removeFirst item "class: ") "class:"))
    ∈ processMatchedOn defined matchedOn.
Proof.
  intros Hin Hstart. unfold processMatchedOn. revert defined.
  apply (fold_left_hit (fun set => _ ∈ set) _ item); [| |done].
  - intros set y Hx. destruct (JsString.startsWith y "class:"); [|done].
    by apply setAdd_mono.
  - intros set. rewrite Hstart. apply setAdd_hit.
Qed.

Lemma addMentioned_mono (x text : string) (classes defined : list string) :
  x ∈ defined -> x ∈ addMentioned classes text defined.
Proof.
  unfold addMentioned. revert defined.
  apply (fold_left_preserves (fun set => x ∈ set)).
  intros set cls Hx. destruct (JsString.includes text cls); [|done].
  by apply setAdd_mono.
Qed.

Lemma addMentioned_hit (cls text : string) (classes defined : list string) :
  cls ∈ classes -> JsString.includes text cls = true ->
  cls ∈ addMentioned classes text defined.
Proof.
  intros Hin Hinc. unfold addMentioned. revert defined.
  apply (fold_left_hit (fun set => cls ∈ set) _ cls); [| |done].
  - intros set y Hx. destruct (JsString.includes text y); [|done]. by apply setAdd_mono.
  - intros set. rewrite Hinc. apply setAdd_hit.
Qed.

Lemma scanResults_mono (x : string) (classes : list string) (results : list cssResult)
    (defined : list string) :
  x ∈ defined -> x ∈ scanResults classes results defined.
Proof.
  unfold scanResults. revert defined.
  apply (fold_left_preserves (fun set => x ∈ set)).
  intros set result. revert set.
  apply (fold_left_preserves (fun set => x ∈ set)).
  intros set m Hx. by apply addMentioned_mono, processMatchedOn_mono.
Qed.

(** Whatever one match contributes stays in the set to the end. *)
Lemma scanResults_hit (x : string) (classes : list string) (results : list cssResult)
    (result : cssResult) (m : cssMatch) :
  result ∈ results -> m ∈ matches result ->
  (forall set, x ∈ addMentioned classes (selector m) (processMatchedOn set (matchedOn m))) ->
  forall defined, x ∈ scanResults classes results defined.
Proof.
  intros Hr Hm Hhit. unfold scanResults.
  apply (fold_left_hit (fun set => x ∈ set) _ result); [| |done].
  - intros set y. revert set.
    apply (fold_left_preserves (fun set => x ∈ set)).
    intros set m' Hx. by apply addMentioned_mono, processMatchedOn_mono.
  - intros set. apply (fold_left_hit (fun set => x ∈ set) _ m); [| |done].
    + intros set' m' Hx. by apply addMentioned_mono, processMatchedOn_mono.
    + intros set'. apply Hhit.
Qed.

Lemma scanInline_mono (x : string) (classes : list string) (styles : list inlineStyle)
    (defined : list string) :
  x ∈ defined -> x ∈ scanInline classes styles defined.
Proof.
  unfold scanInline. revert defined.
  apply (fold_left_preserves (fun set => x ∈ set)).
  intros set style Hx. by apply addMentioned_mono.
Qed.

Lemma collectDefined_hit (x : string) (classes : list string)
    (cssResults cssLibraryResults : list cssResult) (inlineStyles : list inlineStyle)
    (result : cssResult) (m : cssMatch) :
  result ∈ cssResults \/ result ∈ cssLibraryResults -> m ∈ matches result ->
  (forall set, x ∈ addMentioned classes (selector m) (processMatchedOn set (matchedOn m))) ->
  x ∈ collectDefined classes cssResults cssLibraryResults inlineStyles.
Proof.
  intros [Hr | Hr] Hm Hhit; unfold collectDefined; apply scanInline_mono.
  - apply scanResults_mono. by apply (scanResults_hit x classes cssResults result m).
  - by apply (scanResults_hit x classes cssLibraryResults result m).
Qed.

Lemma definedClasses_spec (info : targetInfo) (cssResults cssLibraryResults : list cssResult)
    (inlineStyles : list inlineStyle) :
  classes info <> [] ->
  definedClasses (detectGhostClasses info cssResults cssLibraryResults inlineStyles)
  = collectDefined (classes info) cssResults cssLibraryResults inlineStyles.
Proof.
  intros Hne. unfold detectGhostClasses.
  destruct (Nat.eqb_spec (List.length (classes info)) 0) as [Hlen | Hlen]; [|done].
  by apply nil_length_inv in Hlen.
Qed.

Lemma hasGhosts_spec (info : targetInfo) (cssResults cssLibraryResults : list cssResult)
    (inlineStyles : list inlineStyle) :
  hasGhosts (detectGhostClasses info cssResults cssLibraryResults inlineStyles)
  = match classes info with
    | [] => None
    | _ :: _ =>
        Some (Nat.ltb 0
                (List.length
                   (ghostClasses
                      (detectGhostClasses info cssResults cssLibraryResults inlineStyles))))
    end.
Proof. unfold detectGhostClasses. by destruct (classes info). Qed.

End GhostFacts.

(** ** The scenarios of section 8, run on the model *)

Module Scenarios.

Import Css.

(** Scenario 1: [.menu { &__item { } &:hover { } }]. *)
Example nested_menu :
  CssAnalyzer.resolveNestedSelector
    (CssAnalyzer.Rule "&__item" (CssAnalyzer.Rule ".menu" CssAnalyzer.Root)) = ".menu__item"
  /\ CssAnalyzer.resolveNestedSelector
       (CssAnalyzer.Rule "&:hover" (CssAnalyzer.Rule ".menu" CssAnalyzer.Root)) = ".menu:hover"
  /\ CssAnalyzer.resolveNestedSelector
       (CssAnalyzer.Rule "li" (CssAnalyzer.Rule ".a, .b" CssAnalyzer.Root)) = ".a li, .b li"
  /\ CssAnalyzer.resolveNestedSelector (CssAnalyzer.Rule ".plain" CssAnalyzer.Root) = ".plain".
Proof. repeat split. Qed.

(** The replacement patterns of [String.prototype.replace] reach the
    resolved selector: the [$&] of the parent becomes the matched [&]. *)
Example replacement_pattern_in_parent :
  CssAnalyzer.resolveNestedSelector
    (CssAnalyzer.Rule "&-x" (CssAnalyzer.Rule "[data-v='$&']" CssAnalyzer.Root))
  = "[data-v='&']-x".
Proof. reflexivity. Qed.

Example expansion_of_pseudo_classes :
  CssAnalyzer.expandModernPseudoClasses "a:is(.btn, .x):not(.y) :is()"
  = "a:is(.btn, .x):not(.y) :is() .btn, .x .y".
Proof. reflexivity. Qed.

Example reasons_of_a_compound_selector :
  CssAnalyzer.reasons
    (CssAnalyzer.checkRuleMatch "div.btn:hover, :is(.btn) > a"
       (CssAnalyzer.buildTargetSelectors Examples.button) Examples.button)
  = ["class: btn"; "tag: div"].
Proof. vm_compute. reflexivity. Qed.

Example properties_of_a_rule :
  SpecificityCalculator.parseProperties
    ".a { color: red; background : blue !important ;; x; :y; color: green }"
  = [("color", "green"); ("background", "blue !important")].
Proof. vm_compute. reflexivity. Qed.

Example entries_put_array_indices_first :
  SpecificityCalculator.entries [("b", "1"); ("10", "x"); ("2", "y"); ("01", "z")]
  = [("2", "y"); ("10", "x"); ("b", "1"); ("01", "z")].
Proof. vm_compute. reflexivity. Qed.

Example specificity_of_a_long_selector :
  SpecificityCalculator.calculateSpecificity SpecificityLib.calculate
    (JStr "ul li > a.nav:hover::before")
  = SpecificityCalculator.Spec 0 0 2 4.
Proof. reflexivity. Qed.

(** Scenario 2: the [!important] rule wins over one and two ids. *)
Example important_rule_wins :
  SpecificityCalculator.analyzeConflicts SpecificityLib.calculate
    Examples.threeFiles Examples.threeLinked !! "color"
  = Some Examples.colorDecision.
Proof. vm_compute. reflexivity. Qed.

(** Scenario 3: only the class nothing defines and no pattern excuses. *)
Example only_the_missing_class_is_a_ghost :
  GhostDetector.detectGhostClasses
    {| classes := ["flex"; "p-4"; "text-blue-500"; "my-missing-class"]; ids := [];
       tagName := "div"; dataAttributes := []; shadowParts := [] |} [] [] []
  = {| GhostDetector.ghostClasses := ["my-missing-class"];
       GhostDetector.definedClasses := [];
       GhostDetector.totalClasses := 4;
       GhostDetector.hasGhosts := Some true |}.
Proof. vm_compute. reflexivity. Qed.

Example card_report :
  GhostDetector.detectGhostClasses Examples.card Examples.cardResults [] []
  = {| GhostDetector.ghostClasses := ["promo"];
       GhostDetector.definedClasses := [".card"; "card"];
       GhostDetector.totalClasses := 3;
       GhostDetector.hasGhosts := Some true |}.
Proof. vm_compute. reflexivity. Qed.

End Scenarios.

(** ** Texts: concatenation, prefixes, occurrences, pieces *)

Module TextFacts.

Import JsString.

Lemma app_empty_r (s : string) : s ++ EmptyString = s.
Proof. induction s as [|c t IH]; simpl; [done|]. by rewrite IH. Qed.

Lemma app_assoc (a b c : string) : (a ++ b) ++ c = a ++ b ++ c.
Proof. induction a as [|x a IH]; simpl; [done|]. by rewrite IH. Qed.

Lemma length_app (a b : string) :
  String.length (a ++ b) = (String.length a + String.length b)%nat.
Proof. induction a as [|x a IH]; simpl; [done|]. by rewrite IH. Qed.

Lemma startsWith_spec (s p : string) :
  startsWith s p = true <-> exists post, s = p ++ post.
Proof.
  revert s. induction p as [|a p IH]; intros s.
  - split; [intros _; by exists s | intros _; by destruct s].
  - destruct s as [|b s]; simpl.
    + split; [done | by intros [post H]].
    + rewrite andb_true_iff, Ascii.eqb_eq, IH. split.
      * intros [-> [post ->]]. by exists post.
      * intros [post [= -> ->]]. eauto.
Qed.

Lemma includes_spec (s p : string) :
  includes s p = true <-> exists pre post, s = pre ++ p ++ post.
Proof.
  induction s as [|c t IH].
  - change (includes EmptyString p) with (startsWith EmptyString p || false).
    rewrite orb_false_r, startsWith_spec. split.
    + intros [post H]. by exists EmptyString, post.
    + intros (pre & post & H). destruct pre; [by exists post | done].
  - change (includes (String c t) p) with (startsWith (String c t) p || includes t p).
    rewrite orb_true_iff, startsWith_spec, IH. split.
    + intros [[post H] | (pre & post & ->)].
      * by exists EmptyString, post.
      * by exists (String c pre), post.
    + intros (pre & post & H). destruct pre as [|d pre]; simpl in H.
      * left. by exists post.
      * right. injection H as -> ->. by exists pre, post.
Qed.

Lemma includes_trans (s p q : string) :
  includes s p = true -> includes p q = true -> includes s q = true.
Proof.
  rewrite !includes_spec. intros (a & b & ->) (c & d & ->).
  exists (a ++ c), (d ++ b). by rewrite !app_assoc.
Qed.

Lemma cutAt_app (c : ascii) (a b : string) :
  charIn a c = false -> cutAt c (a ++ String c b) = Some (a, b).
Proof.
  induction a as [|d a IH]; simpl.
  - by rewrite Ascii.eqb_refl.
  - intros H. apply orb_false_iff in H as [Hd Ha].
    rewrite Ascii.eqb_sym, Hd. by rewrite IH.
Qed.

Lemma cutAt_lacks (c : ascii) (s : string) : charIn s c = false -> cutAt c s = None.
Proof.
  induction s as [|d s IH]; simpl; [done|].
  intros H. apply orb_false_iff in H as [Hd Hs].
  rewrite Ascii.eqb_sym, Hd. by rewrite IH.
Qed.

Lemma cutAt_Some (c : ascii) (s before after : string) :
  cutAt c s = Some (before, after) ->
  s = before ++ String c after /\ charIn before c = false.
Proof.
  revert before. induction s as [|d s IH]; simpl; intros before; [done|].
  destruct (Ascii.eqb d c) eqn:E.
  - apply Ascii.eqb_eq in E. subst d. by intros [= <- <-].
  - destruct (cutAt c s) as [[b a]|]; [|done]. intros [= <- <-].
    destruct (IH b eq_refl) as [-> Hb]. split; [done|].
    simpl. by rewrite Ascii.eqb_sym, E.
Qed.

Lemma split_lacks_sep (sep : ascii) (s : string) :
  charIn s sep = false -> split sep s = [s].
Proof.
  induction s as [|d s IH]; simpl; [done|].
  intros H. apply orb_false_iff in H as [Hd Hs].
  rewrite Ascii.eqb_sym, Hd. by rewrite IH.
Qed.

(** [(a + sep + b).split(sep)] is [a.split(sep)] followed by [b.split(sep)]. *)
Lemma split_app (sep : ascii) (a b : string) :
  split sep (a ++ String sep b) = (split sep a ++ split sep b)%list.
Proof.
  induction a as [|d a IH]; simpl.
  - by rewrite Ascii.eqb_refl.
  - destruct (Ascii.eqb d sep); [by rewrite IH|].
    rewrite IH. pose proof (ResolverFacts.split_nonempty sep a) as Hne.
    by destruct (split sep a).
Qed.

Lemma split_pieces_lack_sep (sep : ascii) (s : string) :
  Forall (fun piece => charIn piece sep = false) (split sep s).
Proof.
  induction s as [|d s IH]; simpl.
  - by repeat constructor.
  - destruct (Ascii.eqb d sep) eqn:E; [by constructor|].
    destruct (split sep s) as [|h r]; [repeat constructor; simpl|].
    + by rewrite Ascii.eqb_sym, E.
    + apply Forall_cons in IH as [Hh Hr]. constructor; [|done].
      simpl. by rewrite Ascii.eqb_sym, E.
Qed.

(** Trimming twice is trimming once. *)
Lemma trimEnd_idem (s : string) : trimEnd (trimEnd s) = trimEnd s.
Proof.
  induction s as [|c t IH]; simpl; [done|].
  destruct (trimEnd t) as [|d t'] eqn:E.
  - destruct (isWhiteSpace c) eqn:Hc; [done|]. simpl. by rewrite Hc.
  - simpl in *. rewrite IH. done.
Qed.

Lemma trimStart_clean (s : string) :
  match trimStart s with
  | EmptyString => True
  | String c _ => isWhiteSpace c = false
  end.
Proof.
  induction s as [|c t IH]; simpl; [done|].
  destruct (isWhiteSpace c) eqn:E; [done | by simpl].
Qed.

Lemma trimEnd_head (c : ascii) (t : string) :
  trimEnd (String c t) = EmptyString \/ exists t', trimEnd (String c t) = String c t'.
Proof.
  simpl. destruct (trimEnd t); [|right; eauto].
  destruct (isWhiteSpace c); [by left | right; eauto].
Qed.

Lemma trim_idem (s : string) : trim (trim s) = trim s.
Proof.
  unfold trim. pose proof (trimStart_clean s) as Hclean.
  destruct (trimStart s) as [|c t] eqn:E; [done|].
  destruct (trimEnd_head c t) as [-> | [t' Ht]]; [done|].
  rewrite Ht. simpl trimStart. rewrite Hclean. rewrite <- Ht. apply trimEnd_idem.
Qed.

End TextFacts.

(** ** Display helpers *)

Module DisplayFacts.

Import JsString Display TextFacts.

Lemma substringTo_length (n : nat) (s : string) :
  String.length (substringTo n s) = Nat.min n (String.length s).
Proof.
  revert s. induction n as [|n IH]; intros s; [done|].
  destruct s as [|c t]; simpl; [done|]. by rewrite IH.
Qed.

Lemma slashes_lacks_backslash (s : string) : charIn (slashes s) "\" = false.
Proof.
  induction s as [|c t IH]; simpl; [done|]. rewrite IH.
  destruct (Ascii.eqb c "\") eqn:E; [done|].
  by rewrite Ascii.eqb_sym, E.
Qed.

Lemma slashes_app (a b : string) : slashes (a ++ b) = slashes a ++ slashes b.
Proof. induction a as [|c a IH]; simpl; [done|]. by rewrite IH. Qed.

Lemma slashes_plain (s : string) : charIn s "\" = false -> slashes s = s.
Proof.
  induction s as [|c t IH]; simpl; [done|].
  intros H. apply orb_false_iff in H as [Hc Ht].
  rewrite Ascii.eqb_sym, Hc. by rewrite IH.
Qed.

Lemma last_Forall {X : Type} (P : X -> Prop) (l : list X) (d : X) :
  Forall P l -> P d -> P (List.last l d).
Proof.
  induction l as [|x l IH]; intros Hl Hd; [done|].
  apply Forall_cons in Hl as [Hx Hl]. destruct l as [|y l]; [done|].
  by apply IH.
Qed.

Lemma getFileName_last (path : string) :
  path <> EmptyString ->
  getFileName path = List.last (split "/" (slashes path)) EmptyString.
Proof.
  intros Hne. unfold getFileName.
  by destruct (String.eqb_spec path EmptyString).
Qed.

End DisplayFacts.

(** ** The parse cache *)

Module CacheFacts.

Import ParseCache.

Section WithResult.

Context {R : Type}.

Implicit Types (cache : list (string * R)) (key : string) (r : R).

Lemma get_None key cache : get R key cache = None <-> ~ In key (map fst cache).
Proof.
  induction cache as [|[k r] rest IH]; simpl.
  - split; [intros _ []|done].
  - destruct (String.eqb_spec k key) as [->|Hne].
    + split; [discriminate|intros H; exfalso; apply H; by left].
    + rewrite IH. split; [intros H [?|?]; [done|by apply H]|intros H ?; apply H; by right].
Qed.

Lemma get_set_same key r cache : get R key (set R key r cache) = Some r.
Proof.
  induction cache as [|[k r0] rest IH]; simpl.
  - by rewrite String.eqb_refl.
  - destruct (String.eqb_spec k key) as [->|Hne]; simpl.
    + by rewrite String.eqb_refl.
    + by destruct (String.eqb_spec k key).
Qed.

Lemma get_set_other key key' r cache :
  key <> key' -> get R key' (set R key r cache) = get R key' cache.
Proof.
  intros Hne. induction cache as [|[k r0] rest IH]; simpl.
  - by destruct (String.eqb_spec key key').
  - destruct (String.eqb_spec k key) as [->|Hk]; simpl.
    + by destruct (String.eqb_spec key key').
    + by rewrite IH.
Qed.

Lemma set_absent key r cache :
  get R key cache = None -> set R key r cache = (cache ++ [(key, r)])%list.
Proof.
  induction cache as [|[k r0] rest IH]; simpl; [done|].
  destruct (String.eqb_spec k key); [discriminate|]. intros H. by rewrite IH.
Qed.

Lemma keys_set key r cache :
  map fst (set R key r cache)
  = match get R key cache with
    | Some _ => map fst cache
    | None => (map fst cache ++ [key])%list
    end.
Proof.
  induction cache as [|[k r0] rest IH]; simpl; [done|].
  destruct (String.eqb_spec k key) as [->|Hne]; simpl; [done|].
  rewrite IH. by destruct (get R key rest).
Qed.

Lemma length_set key r cache :
  (List.length (set R key r cache) <= S (List.length cache))%nat.
Proof.
  rewrite <- (length_map fst), keys_set. destruct (get R key cache).
  - rewrite length_map. lia.
  - rewrite length_app, length_map. simpl. lia.
Qed.

Lemma keys_delete_incl key cache k :
  In k (map fst (delete R key cache)) -> In k (map fst cache).
Proof.
  induction cache as [|[k0 r0] rest IH]; simpl; [done|].
  destruct (String.eqb_spec k0 key); simpl; [by right|].
  intros [?|?]; [by left|right; by apply IH].
Qed.

Lemma NoDup_delete key cache :
  List.NoDup (map fst cache) -> List.NoDup (map fst (delete R key cache)).
Proof.
  induction cache as [|[k0 r0] rest IH]; simpl; [done|].
  intros Hnd. inversion Hnd as [|? ? Hnin Hrest]; subst.
  destruct (String.eqb_spec k0 key); simpl; [done|].
  constructor; [|by apply IH]. intros Hin. apply Hnin. by eapply keys_delete_incl.
Qed.

Lemma NoDup_set key r cache :
  List.NoDup (map fst cache) -> List.NoDup (map fst (set R key r cache)).
Proof.
  intros Hnd. rewrite keys_set. destruct (get R key cache) eqn:Hget; [done|].
  apply get_None in Hget.
  apply List.NoDup_app; [done|repeat constructor; by intros []|].
  intros k Hk [<-|[]]. by apply Hget.
Qed.

Lemma length_store key r cache :
  (List.length (store R key r cache) <= Nat.max MAX_CACHE_SIZE (S (List.length cache)))%nat
  /\ ((List.length cache <= MAX_CACHE_SIZE)%nat ->
      (List.length (store R key r cache) <= MAX_CACHE_SIZE)%nat).
Proof.
  unfold store. destruct (Nat.leb_spec MAX_CACHE_SIZE (List.length cache)) as [Hfull|Hroom].
  - destruct cache as [|[k0 r0] rest]; [unfold MAX_CACHE_SIZE in Hfull; simpl in Hfull; lia|].
    simpl. rewrite String.eqb_refl.
    pose proof (length_set key r rest) as Hlen. simpl in *. split; lia.
  - pose proof (length_set key r cache) as Hlen. split; lia.
Qed.

Lemma NoDup_store key r cache :
  List.NoDup (map fst cache) -> List.NoDup (map fst (store R key r cache)).
Proof.
  intros Hnd. unfold store. apply NoDup_set.
  destruct (Nat.leb MAX_CACHE_SIZE (List.length cache)); [|done].
  destruct cache as [|[k0 r0] rest]; [done|]. by apply NoDup_delete.
Qed.

Lemma get_store_same key r cache : get R key (store R key r cache) = Some r.
Proof. unfold store. apply get_set_same. Qed.

Lemma analyzeCSS_length useCache key run cache :
  (List.length cache <= MAX_CACHE_SIZE)%nat ->
  (List.length (snd (analyzeCSS R useCache key run cache)) <= MAX_CACHE_SIZE)%nat.
Proof.
  intros Hlen. unfold analyzeCSS.
  destruct (if useCache then get R key cache else None); [done|].
  destruct run; simpl; [done|]. destruct useCache; [|done]. by apply length_store.
Qed.

Lemma analyzeCSS_NoDup useCache key run cache :
  List.NoDup (map fst cache) ->
  List.NoDup (map fst (snd (analyzeCSS R useCache key run cache))).
Proof.
  intros Hnd. unfold analyzeCSS.
  destruct (if useCache then get R key cache else None); [done|].
  destruct run; simpl; [done|]. destruct useCache; [|done]. by apply NoDup_store.
Qed.

End WithResult.

End CacheFacts.

(** ** [parseProperties] *)

Module PropertyFacts.

Import JsString SpecificityCalculator Readings.

Lemma untilClose_lacks (s : string) : charIn s "}" = false -> untilClose s = None.
Proof. intros H. unfold untilClose. by rewrite TextFacts.cutAt_lacks. Qed.

Lemma braceMatch_lacks_close (s : string) : charIn s "}" = false -> braceMatch s = None.
Proof.
  induction s as [|c t IH]; simpl; [done|].
  intros H. apply orb_false_iff in H as [_ Ht].
  rewrite (untilClose_lacks t Ht), (IH Ht). by destruct (Ascii.eqb c "{").
Qed.

Lemma braceMatch_first (pre body post : string) :
  charIn pre "{" = false -> body <> EmptyString -> charIn body "}" = false ->
  braceMatch (pre ++ String "{" (body ++ String "}" post)) = Some body.
Proof.
  intros Hpre Hbody Hclose. induction pre as [|c pre IH]; simpl.
  - unfold untilClose. rewrite TextFacts.cutAt_app by done. by destruct body.
  - simpl in Hpre. apply orb_false_iff in Hpre as [Hc Hpre].
    rewrite Ascii.eqb_sym, Hc. by apply IH.
Qed.

Lemma getProperty_None (prop : string) (properties : list (string * string)) :
  getProperty prop properties = None <-> ~ In prop (map fst properties).
Proof.
  induction properties as [|[p v] rest IH]; simpl.
  - split; [intros _ []|done].
  - destruct (String.eqb_spec p prop) as [->|Hne].
    + split; [discriminate|intros H; exfalso; apply H; by left].
    + rewrite IH. split; [intros H [?|?]; [done|by apply H]|intros H ?; apply H; by right].
Qed.


Lemma getProperty_setProperty_same (prop value : string) (properties : list (string * string)) :
  getProperty prop (setProperty prop value properties) = Some value.
Proof.
  induction properties as [|[p v] rest IH]; simpl.
  - by rewrite String.eqb_refl.
  - destruct (String.eqb_spec p prop) as [->|Hne]; simpl.
    + by rewrite String.eqb_refl.
    + by destruct (String.eqb_spec p prop).
Qed.

Lemma getProperty_setProperty_other (prop other value : string)
    (properties : list (string * string)) :
  prop <> other ->
  getProperty other (setProperty prop value properties) = getProperty other properties.
Proof.
  intros Hne. induction properties as [|[p v] rest IH]; simpl.
  - by destruct (String.eqb_spec prop other).
  - destruct (String.eqb_spec p prop) as [->|Hp]; simpl.
    + by destruct (String.eqb_spec prop other).
    + by rewrite IH.
Qed.

Lemma keys_setProperty (prop value : string) (properties : list (string * string)) :
  map fst (setProperty prop value properties)
  = match getProperty prop properties with
    | Some _ => map fst properties
    | None => (map fst properties ++ [prop])%list
    end.
Proof.
  induction properties as [|[p v] rest IH]; simpl; [done|].
  destruct (String.eqb_spec p prop) as [->|Hne]; simpl; [done|].
  rewrite IH. by destruct (getProperty prop rest).
Qed.

Lemma NoDup_setProperty (prop value : string) (properties : list (string * string)) :
  List.NoDup (map fst properties) -> List.NoDup (map fst (setProperty prop value properties)).
Proof.
  intros Hnd. rewrite keys_setProperty.
  destruct (getProperty prop properties) eqn:Hget; [done|].
  apply getProperty_None in Hget.
  apply List.NoDup_app; [done|repeat constructor; by intros []|].
  intros k Hk [<-|[]]. by apply Hget.
Qed.

Lemma Forall_setProperty (P : string * string -> Prop) (prop value : string)
    (properties : list (string * string)) :
  P (prop, value) -> Forall P properties -> Forall P (setProperty prop value properties).
Proof.
  intros Hnew. induction properties as [|[p v] rest IH]; simpl; intros Hall.
  - by repeat constructor.
  - apply Forall_cons in Hall as [Hpv Hrest].
    destruct (String.eqb_spec p prop) as [->|Hne]; constructor; auto.
Qed.

(** What a declaration text comes to: the pair it sets, if any. *)
Lemma addDeclaration_cases (properties : list (string * string)) (decl : string) :
  addDeclaration properties decl = properties
  \/ exists before after,
       decl = before ++ String ":" after /\ charIn before ":" = false
       /\ trim before <> EmptyString /\ trim after <> EmptyString
       /\ addDeclaration properties decl
          = setProperty (trim before) (trim after) properties.
Proof.
  unfold addDeclaration.
  destruct (cutAt ":" decl) as [[before after]|] eqn:Hcut; [|by left].
  apply TextFacts.cutAt_Some in Hcut as [-> Hlacks].
  destruct before as [|b before]; [by left|].
  destruct (String.eqb_spec (trim (String b before)) EmptyString) as [|Hp]; [by left|].
  destruct (String.eqb_spec (trim after) EmptyString) as [|Hv]; [by left|].
  right. by exists (String b before), after.
Qed.

Lemma addDeclaration_clean (properties : list (string * string)) (decl : string) :
  charIn decl ";" = false ->
  List.NoDup (map fst properties) /\ Forall cleanEntry properties ->
  List.NoDup (map fst (addDeclaration properties decl))
  /\ Forall cleanEntry (addDeclaration properties decl).
Proof.
  intros Hsemi [Hnd Hall].
  destruct (addDeclaration_cases properties decl)
    as [-> | (before & after & -> & Hcolon & Hp & Hv & ->)]; [done|].
  rewrite ResolverFacts.charIn_app in Hsemi. simpl in Hsemi.
  apply orb_false_iff in Hsemi as [Hb Ha].
  split; [by apply NoDup_setProperty|].
  apply Forall_setProperty; [|done].
  repeat split; simpl; try done.
  - apply TextFacts.trim_idem.
  - by apply ResolverFacts.trim_lacks.
  - by apply ResolverFacts.trim_lacks.
  - apply TextFacts.trim_idem.
  - by apply ResolverFacts.trim_lacks.
Qed.

Lemma fold_addDeclaration_clean (decls : list string) :
  Forall (fun decl => charIn decl ";" = false) decls ->
  forall properties,
    List.NoDup (map fst properties) /\ Forall cleanEntry properties ->
    List.NoDup (map fst (fold_left addDeclaration decls properties))
    /\ Forall cleanEntry (fold_left addDeclaration decls properties).
Proof.
  induction decls as [|decl decls IH]; simpl; intros Hall properties Hinv; [done|].
  apply Forall_cons in Hall as [Hdecl Hall].
  apply IH; [done|]. by apply addDeclaration_clean.
Qed.

Lemma parseProperties_clean (content : string) :
  List.NoDup (map fst (parseProperties content))
  /\ Forall cleanEntry (parseProperties content).
Proof.
  unfold parseProperties. apply fold_addDeclaration_clean.
  - apply TextFacts.split_pieces_lack_sep.
  - split; simpl; constructor.
Qed.

End PropertyFacts.

(** ** Where the candidates come from *)

Module OriginFacts.

Import SpecificityCalculator Readings Candidates.







Section WithLibrary.

Variable calculate : string -> Css.outcome (option SpecificityLib.abc).






End WithLibrary.

End OriginFacts.

(** ** The reasons of [checkRuleMatch], kind by kind *)

Module ReasonFacts.

Import Regex RegexFacts CssAnalyzer Statements Occurrences MatcherFacts.

Lemma reason_iff (sel reason : string) (info : Css.targetInfo) :
  reason ∈ reasons (checkRuleMatch sel (buildTargetSelectors info) info) <->
  exists t, t ∈ buildTargetSelectors info
            /\ reason = type t ++ ": " ++ value t
            /\ (test (pattern t) sel || test (pattern t) (expandModernPseudoClasses sel)) = true.
Proof.
  unfold checkRuleMatch. simpl. rewrite list_elem_of_omap. split.
  - intros (t & Hin & Hf). exists t.
    destruct (test (pattern t) sel || test (pattern t) (expandModernPseudoClasses sel));
      [|done].
    by injection Hf as <-.
  - intros (t & Hin & -> & Ht). exists t. by rewrite Ht.
Qed.

Lemma targets_cases (info : Css.targetInfo) (t : targetSelector) :
  t ∈ buildTargetSelectors info <->
  (exists cls, cls ∈ Css.classes info
               /\ t = {| type := "class"; value := cls; pattern := classPattern cls |})
  \/ (exists id, id ∈ Css.ids info
                 /\ t = {| type := "id"; value := id; pattern := idPattern id |})
  \/ ((Css.classes info <> [] \/ Css.ids info <> [])
      /\ t = {| type := "tag"; value := Css.tagName info;
                pattern := tagPattern (Css.tagName info) |})
  \/ (exists attr, attr ∈ Css.dataAttributes info
                   /\ t = {| type := "data-attr"; value := attr;
                             pattern := dataAttrPattern attr |}).
Proof.
  unfold buildTargetSelectors. rewrite !elem_of_app, !list_elem_of_fmap.
  assert ((Nat.ltb 0 (List.length (Css.classes info))
           || Nat.ltb 0 (List.length (Css.ids info)))%bool = true
          <-> Css.classes info <> [] \/ Css.ids info <> []) as Hguard.
  { destruct (Css.classes info), (Css.ids info); simpl; split; auto; intros [|]; done. }
  split.
  - intros [(c & -> & Hc) | [(c & -> & Hc) | [Hin | (c & -> & Hc)]]]; eauto 6.
    destruct (_ || _) eqn:Hg in Hin; [|by apply elem_of_nil in Hin].
    apply list_elem_of_singleton in Hin as ->. right. right. left.
    split; [by apply Hguard | done].
  - intros [(c & Hc & ->) | [(c & Hc & ->) | [[Hg ->] | (c & Hc & ->)]]]; eauto 6.
    right. right. left. apply Hguard in Hg. rewrite Hg. apply list_elem_of_here.
Qed.

Lemma matches_idPattern id b s b' s' :
  matches (idPattern id) b s b' s' <->
  s = "#" ++ id ++ s' /\ bounded s' /\ b' = false.
Proof.
  unfold idPattern. rewrite ofEscaped_escapeRegex. split.
  - intros H. inversion H as [| | |? ? ? ? b1 s1 ? ? H1 H2| | | | | | | | |]; subst.
    inversion H1; subst.
    inversion H2 as [| | |? ? ? ? b2 s2 ? ? H3 H4| | | | | | | | |]; subst.
    apply matches_lit in H3 as [-> ->].
    apply matches_boundary_ahead in H4 as (-> & -> & Hb).
    by rewrite bosAfter_false.
  - intros (-> & Hb & ->). simpl.
    econstructor; [constructor|].
    econstructor; [apply matches_lit; split; reflexivity|].
    apply matches_boundary_ahead. by rewrite bosAfter_false.
Qed.

Lemma test_idPattern (id text : string) :
  test (idPattern id) text = true <-> idOccurs id text.
Proof.
  unfold test, idOccurs. rewrite search_spec. split.
  - intros (pre & post & b' & s' & -> & Hm).
    apply matches_idPattern in Hm as (-> & Hb & _). by exists pre, s'.
  - intros (pre & rest & -> & Hb).
    exists pre, ("#" ++ id ++ rest), false, rest. split; [done|].
    by apply matches_idPattern.
Qed.

Lemma matches_attrClose b s b' s' :
  matches (Alt (Cat (Opt (Cls (JsString.charIn "~|^$*"))) (Chr "=")) (Chr "]")) b s b' s' ->
  exists close, s = close ++ s' /\ attrClose close = true.
Proof.
  intros H. inversion H as [| | | |? ? ? ? ? ? Hl|? ? ? ? ? ? Hr| | | | | | |]; subst.
  - inversion Hl as [| | |? ? ? ? b1 s1 ? ? H1 H2| | | | | | | | |]; subst.
    inversion H1 as [| | | | | |? ? ? ? ? Ho|? ? ?| | | | |]; subst.
    + inversion Ho as [| |? op ? ? Hop| | | | | | | | | |]; subst. inversion H2; subst.
      exists (String op "="). split; [done|]. simpl. by rewrite Hop.
    + inversion H2; subst. by exists "=".
  - inversion Hr; subst. by exists "]".
Qed.

Lemma attrClose_matches (close s' : string) (b : bool) :
  attrClose close = true ->
  exists b',
    matches (Alt (Cat (Opt (Cls (JsString.charIn "~|^$*"))) (Chr "=")) (Chr "]"))
            b (close ++ s') b' s'.
Proof.
  destruct close as [|c [|d [|? ?]]]; simpl; try done.
  - rewrite orb_true_iff, !Ascii.eqb_eq. intros [-> | ->].
    + exists false. apply MAltR. constructor.
    + exists false. apply MAltL. econstructor; [apply MOptNone | constructor].
  - rewrite andb_true_iff, Ascii.eqb_eq. intros [Hop ->].
    exists false. apply MAltL. econstructor; [apply MOptSome; by constructor | constructor].
Qed.

Lemma test_dataAttrPattern (attr text : string) :
  test (dataAttrPattern attr) text = true <-> attrOccurs attr text.
Proof.
  unfold test, attrOccurs, dataAttrPattern. rewrite search_spec, ofEscaped_escapeRegex. split.
  - intros (pre & post & b' & s' & -> & Hm).
    inversion Hm as [| | |? ? ? ? b1 s1 ? ? H1 H2| | | | | | | | |]; subst.
    inversion H1; subst.
    inversion H2 as [| | |? ? ? ? b2 s2 ? ? H3 H4| | | | | | | | |]; subst.
    apply matches_lit in H3 as [-> ->].
    apply matches_attrClose in H4 as (close & -> & Hclose).
    by exists pre, close, s'.
  - intros (pre & close & rest & -> & Hclose).
    destruct (attrClose_matches close rest (bosAfter false attr) Hclose) as [b' Hm].
    exists pre, ("[" ++ attr ++ close ++ rest), b', rest. split; [done|].
    econstructor; [constructor|].
    econstructor; [apply matches_lit; split; reflexivity|]. exact Hm.
Qed.

Lemma bosAfter_true (pre : string) : bosAfter true pre = true -> pre = EmptyString.
Proof. by destruct pre. Qed.

Lemma test_tagPattern (tag text : string) :
  test (tagPattern tag) text = true <-> tagOccurs tag text.
Proof.
  unfold test, tagOccurs, tagPattern. rewrite search_spec, ofEscaped_escapeRegex. split.
  - intros (pre & post & b' & s' & -> & Hm).
    inversion Hm as [| | |? ? ? ? b1 s1 ? ? H1 H2| | | | | | | | |]; subst.
    inversion H2 as [| | |? ? ? ? b2 s2 ? ? H3 H4| | | | | | | | |]; subst.
    apply matches_lit in H3 as [-> ->].
    assert (Htrail : s' = EmptyString \/ exists c t, s' = String c t /\ tagTrail c = true).
    { inversion H4 as [| | | | | | | | | | | |? ? ? bx sx Hin]; subst.
      inversion Hin as [| | | |? ? ? ? ? ? Hc|? ? ? ? ? ? He| | | | | | |]; subst.
      - inversion Hc; subst. right. eauto.
      - inversion He; subst. by left. }
    assert (Hs : s2 = s') by (by inversion H4). subst s2.
    inversion H1 as [| | | |? ? ? ? ? ? Hl|? ? ? ? ? ? Hr| | | | | | |]; subst.
    + inversion Hl; subst.
      assert (pre = EmptyString) as -> by (apply bosAfter_true; congruence).
      exists EmptyString, s'. split; [done|]. split; [by left | done].
    + inversion Hr; subst.
      exists (pre ++ String c EmptyString), s'. split.
      * by rewrite TextFacts.app_assoc.
      * split; [right; eauto | done].
  - intros (pre & rest & -> & Hpre & Hrest).
    assert (Hahead : forall b,
              matches (Ahead (Alt (Cls (fun c => (JsString.isWhiteSpace c
                                                  || JsString.charIn ",:.[#>+~" c)%bool)) Eos))
                      b rest b rest).
    { intros b. destruct Hrest as [-> | (c & t & -> & Hc)].
      - eapply MAhead. apply MAltR. constructor.
      - eapply MAhead. apply MAltL. by constructor. }
    destruct Hpre as [-> | (p & c & -> & Hc)].
    + exists EmptyString, (tag ++ rest), (bosAfter true tag), rest. split; [done|].
      econstructor; [apply MAltL; constructor|].
      econstructor; [apply matches_lit; split; reflexivity | apply Hahead].
    + exists p, (String c (tag ++ rest)), (bosAfter false tag), rest. split.
      * by rewrite TextFacts.app_assoc.
      * econstructor; [apply MAltR; by constructor|].
        econstructor; [apply matches_lit; split; reflexivity | apply Hahead].
Qed.

(** The expansion keeps the selector in front and appends space-led text. *)
Lemma expand_prefix (sel : string) :
  exists suffix, expandModernPseudoClasses sel = sel ++ suffix /\ spaceLed suffix.
Proof.
  unfold expandModernPseudoClasses.
  set (P := fun e : string => exists suffix, e = sel ++ suffix /\ spaceLed suffix).
  apply (ListFacts.fold_left_preserves P).
  - intros e func He. apply (ListFacts.fold_left_preserves P); [|done].
    intros e' inner (suffix & -> & Hs). exists (suffix ++ " " ++ inner). split.
    + by rewrite TextFacts.app_assoc.
    + right. destruct Hs as [-> | (t & ->)]; simpl; eauto.
  - exists EmptyString. split; [by rewrite TextFacts.app_empty_r | by left].
Qed.

Lemma bounded_app (rest suffix : string) :
  bounded rest -> spaceLed suffix -> bounded (rest ++ suffix).
Proof.
  intros [-> | (ch & t & -> & Hb)] Hs.
  - destruct Hs as [-> | (t & ->)]; [by left|]. right. by exists " "%char, t.
  - right. by exists ch, (t ++ suffix).
Qed.

Section Extension.

Variables (text suffix : string).
Hypothesis Hsuffix : spaceLed suffix.

Lemma idOccurs_app (id : string) : idOccurs id text -> idOccurs id (text ++ suffix).
Proof.
  intros (pre & rest & -> & Hb). exists pre, (rest ++ suffix). split.
  - by rewrite !TextFacts.app_assoc.
  - by apply bounded_app.
Qed.

Lemma occursBounded_app (cls : string) :
  occursBounded cls text -> occursBounded cls (text ++ suffix).
Proof.
  intros (pre & rest & -> & Hb). exists pre, (rest ++ suffix). split.
  - by rewrite !TextFacts.app_assoc.
  - by apply bounded_app.
Qed.

Lemma attrOccurs_app (attr : string) : attrOccurs attr text -> attrOccurs attr (text ++ suffix).
Proof.
  intros (pre & close & rest & -> & Hc). exists pre, close, (rest ++ suffix). split; [|done].
  by rewrite !TextFacts.app_assoc.
Qed.

Lemma tagOccurs_app (tag : string) : tagOccurs tag text -> tagOccurs tag (text ++ suffix).
Proof.
  intros (pre & rest & -> & Hpre & Hrest). exists pre, (rest ++ suffix). split.
  - by rewrite !TextFacts.app_assoc.
  - split; [done|]. destruct Hrest as [-> | (c & t & -> & Hc)].
    + destruct Hsuffix as [-> | (t & ->)]; [by left|]. right. by exists " "%char, t.
    + right. by exists c, (t ++ suffix).
Qed.

End Extension.

(** A target found in the selector is found in its expansion. *)
Lemma test_expanded (info : Css.targetInfo) (t : targetSelector) (sel : string) :
  t ∈ buildTargetSelectors info ->
  test (pattern t) sel = true -> test (pattern t) (expandModernPseudoClasses sel) = true.
Proof.
  intros Hin. destruct (expand_prefix sel) as (suffix & -> & Hs).
  apply targets_cases in Hin
    as [(c & _ & ->) | [(c & _ & ->) | [[_ ->] | (c & _ & ->)]]]; simpl.
  - rewrite !test_classPattern. by apply occursBounded_app.
  - rewrite !test_idPattern. by apply idOccurs_app.
  - rewrite !test_tagPattern. by apply tagOccurs_app.
  - rewrite !test_dataAttrPattern. by apply attrOccurs_app.
Qed.

Lemma omap_ext_in {X Y : Type} (f g : X -> option Y) (l : list X) :
  (forall x, x ∈ l -> f x = g x) -> omap f l = omap g l.
Proof.
  induction l as [|x l IH]; intros H; [done|]. simpl.
  rewrite (H x) by apply list_elem_of_here.
  assert (omap f l = omap g l) as Heq.
  { apply IH. intros y Hy. apply H. by apply list_elem_of_further. }
  destruct (g x); [f_equal|]; exact Heq.
Qed.

End ReasonFacts.

(** ** [expandModernPseudoClasses] *)

Module ExpansionFacts.

Import JsString CssAnalyzer Expansion.

Lemma substringFrom_app (a b : string) : substringFrom (String.length a) (a ++ b) = b.
Proof. induction a as [|c a IH]; simpl; [by destruct b|done]. Qed.

Lemma pseudoAt_Some (func s inner : string) :
  pseudoAt func s = Some inner ->
  (exists post, s = ":" ++ func ++ "(" ++ inner ++ ")" ++ post)
  /\ inner <> EmptyString /\ charIn inner ")" = false.
Proof.
  unfold pseudoAt.
  destruct (startsWith s (":" ++ func ++ "(")) eqn:Hstart; [|done].
  apply TextFacts.startsWith_spec in Hstart as [post ->].
  replace (String.length func + 2)%nat with (String.length (":" ++ func ++ "(")).
  2: { simpl. rewrite TextFacts.length_app. simpl. lia. }
  rewrite substringFrom_app.
  destruct (cutAt ")" post) as [[before after]|] eqn:Hcut; [|done].
  apply TextFacts.cutAt_Some in Hcut as [-> Hlacks].
  destruct before as [|c before]; [done|]. intros [= <-].
  split; [|done]. exists after. simpl. by rewrite !TextFacts.app_assoc.
Qed.

Lemma pseudoAt_needs_paren (func s : string) :
  charIn s "(" = false -> pseudoAt func s = None.
Proof.
  intros Hs. unfold pseudoAt.
  destruct (startsWith s (":" ++ func ++ "(")) eqn:Hstart; [|done].
  apply TextFacts.startsWith_spec in Hstart as [post ->].
  simpl in Hs. rewrite !ResolverFacts.charIn_app in Hs. simpl in Hs.
  rewrite orb_true_r in Hs. discriminate Hs.
Qed.

Lemma innerSelectors_calls (func inner : string) (s : string) :
  forall skip,
    inner ∈ innerSelectors func skip s ->
    calls func inner s /\ inner <> EmptyString /\ charIn inner ")" = false.
Proof.
  induction s as [|c t IH]; intros skip Hin; simpl in Hin.
  - by apply elem_of_nil in Hin.
  - assert (Hlater : forall k, inner ∈ innerSelectors func k t ->
                       calls func inner (String c t) /\ inner <> EmptyString
                       /\ charIn inner ")" = false).
    { intros k Hk. destruct (IH k Hk) as ((pre & post & ->) & Hne & Hl).
      split; [|done]. by exists (String c pre), post. }
    destruct skip as [|k]; [|by eapply Hlater].
    destruct (pseudoAt func (String c t)) as [found|] eqn:Hat; [|by eapply Hlater].
    apply elem_of_cons in Hin as [-> | Hin]; [|by eapply Hlater].
    apply pseudoAt_Some in Hat as ((post & Heq) & Hne & Hl).
    split; [|done]. exists EmptyString, post. by rewrite Heq.
Qed.

Lemma innerSelectors_needs_paren (func s : string) :
  charIn s "(" = false -> forall skip, innerSelectors func skip s = [].
Proof.
  induction s as [|c t IH]; intros Hs skip; [done|].
  assert (Ht : charIn t "(" = false).
  { simpl in Hs. by apply orb_false_iff in Hs as [_ ?]. }
  simpl. destruct skip as [|k]; [|by apply IH].
  change (match pseudoAt func (String c t) with
          | Some inner =>
              inner :: innerSelectors func (String.length func + String.length inner + 2) t
          | None => innerSelectors func 0 t
          end = []).
  rewrite pseudoAt_needs_paren by done. by apply IH.
Qed.

Lemma appended_app (l l' : list string) :
  appended (l ++ l') = appended l ++ appended l'.
Proof.
  induction l as [|x l IH]; simpl; [done|].
  by rewrite IH, !TextFacts.app_assoc.
Qed.

Lemma fold_appended (inners : list string) :
  forall e, fold_left (fun e' inner => e' ++ " " ++ inner) inners e = e ++ appended inners.
Proof.
  induction inners as [|x l IH]; intros e; simpl.
  - by rewrite TextFacts.app_empty_r.
  - rewrite IH. by rewrite !TextFacts.app_assoc.
Qed.

Lemma expand_appended (sel : string) :
  expandModernPseudoClasses sel = sel ++ appended (allInners sel).
Proof.
  unfold expandModernPseudoClasses, allInners, pseudoFunctions. simpl.
  rewrite !fold_appended, !appended_app, !TextFacts.app_assoc.
  change (appended []) with EmptyString. by rewrite TextFacts.app_empty_r.
Qed.

End ExpansionFacts.

(** ** Shadow DOM selectors *)

Module ShadowFacts.

Import JsString ShadowDom.

Lemma captureAt_Some (opener s inner : string) :
  captureAt opener s = Some inner <->
  (exists post, s = opener ++ inner ++ String ")" post)
  /\ inner <> EmptyString /\ charIn inner ")" = false.
Proof.
  unfold captureAt. split.
  - destruct (startsWith s opener) eqn:Hstart; [|done].
    apply TextFacts.startsWith_spec in Hstart as [rest ->].
    rewrite ExpansionFacts.substringFrom_app.
    destruct (cutAt ")" rest) as [[before after]|] eqn:Hcut; [|done].
    apply TextFacts.cutAt_Some in Hcut as [-> Hlacks].
    destruct before as [|c before]; [done|]. intros [= <-].
    split; [by exists after | done].
  - intros ((post & ->) & Hne & Hlacks).
    assert (startsWith (opener ++ inner ++ String ")" post) opener = true) as ->
      by (apply TextFacts.startsWith_spec; eauto).
    rewrite ExpansionFacts.substringFrom_app, TextFacts.cutAt_app by done.
    by destruct inner.
Qed.

Lemma firstCapture_Some (opener s inner : string) :
  firstCapture opener s = Some inner ->
  (exists pre post, s = pre ++ opener ++ inner ++ String ")" post)
  /\ inner <> EmptyString /\ charIn inner ")" = false.
Proof.
  induction s as [|c t IH].
  - simpl. destruct (captureAt opener EmptyString) as [found|] eqn:Hat; [|done].
    intros [= ->]. apply captureAt_Some in Hat as ((post & Heq) & Hne & Hl).
    split; [|done]. by exists EmptyString, post.
  - simpl. destruct (captureAt opener (String c t)) as [found|] eqn:Hat.
    + intros [= ->]. apply captureAt_Some in Hat as ((post & Heq) & Hne & Hl).
      split; [|done]. by exists EmptyString, post.
    + intros H. destruct (IH H) as ((pre & post & ->) & Hne & Hl).
      split; [|done]. by exists (String c pre), post.
Qed.

Lemma firstCapture_found (opener pre inner post : string) :
  inner <> EmptyString -> charIn inner ")" = false ->
  exists found, firstCapture opener (pre ++ opener ++ inner ++ String ")" post) = Some found.
Proof.
  intros Hne Hl.
  assert (Hhere : forall s, captureAt opener s = Some inner ->
                    exists found, firstCapture opener s = Some found).
  { intros s Hs. exists inner. destruct s; simpl; by rewrite Hs. }
  induction pre as [|c pre IH].
  - apply Hhere. apply captureAt_Some. split; [by exists post | done].
  - change (String c pre ++ opener ++ inner ++ String ")" post)
      with (String c (pre ++ opener ++ inner ++ String ")" post)).
    simpl. destruct (captureAt opener (String c _)) as [found|]; [eauto | exact IH].
Qed.

Lemma existsb_elem {X : Type} (f : X -> bool) (l : list X) (x : X) :
  x ∈ l -> f x = true -> existsb f l = true.
Proof.
  intros Hin Hf. apply existsb_exists. exists x. split; [by apply list_elem_of_In | done].
Qed.

End ShadowFacts.

(** ** The set of defined classes, exactly *)

Module DefinedFacts.

Import Css GhostDetector Defined GhostFacts.

Lemma setAdd_iff (x y : string) (set : list string) :
  x ∈ setAdd y set <-> x ∈ set \/ x = y.
Proof.
  unfold setAdd. destruct (bool_decide (y ∈ set)) eqn:E.
  - apply bool_decide_eq_true in E. split; [by left|]. by intros [?| ->].
  - rewrite elem_of_app, list_elem_of_singleton. done.
Qed.

Lemma setAdd_NoDup (y : string) (set : list string) : NoDup set -> NoDup (setAdd y set).
Proof.
  intros Hnd. unfold setAdd. destruct (bool_decide (y ∈ set)) eqn:E; [done|].
  apply bool_decide_eq_false in E.
  apply NoDup_app. split; [done|]. split; [|apply NoDup_singleton].
  intros z Hz Hy. apply list_elem_of_singleton in Hy as ->. done.
Qed.

(** A fold in which every step adds what [Q] says. *)
Lemma fold_left_adds {X : Type} (f : list string -> X -> list string)
    (Q : X -> string -> Prop) (x : string) :
  (forall set a, x ∈ f set a <-> x ∈ set \/ Q a x) ->
  forall l set, x ∈ fold_left f l set <-> x ∈ set \/ exists a, a ∈ l /\ Q a x.
Proof.
  intros Hf. induction l as [|a l IH]; intros set; simpl.
  - split; [by left|]. intros [?|(a & Ha & _)]; [done | by apply elem_of_nil in Ha].
  - rewrite IH, Hf. split.
    + intros [[?|?]|(b & Hb & Hq)]; [by left | right | right].
      * exists a. split; [apply list_elem_of_here | done].
      * exists b. split; [by apply list_elem_of_further | done].
    + intros [?|(b & Hb & Hq)]; [by left; left|].
      apply elem_of_cons in Hb as [-> | Hb]; [left; by right | right; eauto].
Qed.

Lemma processMatchedOn_iff (x : string) (matchedOn defined : list string) :
  x ∈ processMatchedOn defined matchedOn <-> x ∈ defined \/ namedBy matchedOn x.
Proof.
  unfold processMatchedOn, namedBy.
  rewrite (fold_left_adds _
             (fun item y =>
                JsString.startsWith item "class:" = true
                /\ y = "." ++ JsString.trim
                         (JsString.removeFirst (JsString.removeFirst item "class: ") "class:"))).
  - done.
  - intros set item. destruct (JsString.startsWith item "class:").
    + rewrite setAdd_iff.
      split; [intros [?|?]; [by left | by right] | intros [?|[_ ?]]; [by left | by right]].
    + split; [by left | intros [?|[? _]]; done].
Qed.

Lemma addMentioned_iff (x text : string) (classes defined : list string) :
  x ∈ addMentioned classes text defined <-> x ∈ defined \/ mentionedIn classes text x.
Proof.
  unfold addMentioned, mentionedIn.
  rewrite (fold_left_adds _ (fun cls y => JsString.includes text cls = true /\ y = cls)).
  - split; (intros [?|H]; [by left | right]).
    + destruct H as (cls & Hc & Hi & ->). done.
    + destruct H as [Hc Hi]. exists x. done.
  - intros set cls. destruct (JsString.includes text cls).
    + rewrite setAdd_iff.
      split; [intros [?|?]; [by left | by right] | intros [?|[_ ?]]; [by left | by right]].
    + split; [by left | intros [?|[? _]]; done].
Qed.

Lemma scanResults_iff (x : string) (classes : list string) (results : list cssResult)
    (defined : list string) :
  x ∈ scanResults classes results defined <-> x ∈ defined \/ fromResults classes results x.
Proof.
  unfold scanResults, fromResults.
  rewrite (fold_left_adds _
             (fun result y => exists m, m ∈ matches result /\ contributes classes m y)).
  - split; (intros [?|H]; [by left | right]).
    + destruct H as (result & Hr & m & Hm & Hc). eauto.
    + destruct H as (result & m & Hr & Hm & Hc). eauto.
  - intros set result.
    apply (fold_left_adds _ (fun m y => contributes classes m y)).
    intros set' m. rewrite addMentioned_iff, processMatchedOn_iff.
    unfold contributes. tauto.
Qed.

Lemma scanInline_iff (x : string) (classes : list string) (styles : list inlineStyle)
    (defined : list string) :
  x ∈ scanInline classes styles defined <-> x ∈ defined \/ fromInline classes styles x.
Proof.
  unfold scanInline, fromInline.
  apply (fold_left_adds _ (fun style y => mentionedIn classes (styleContent style) y)).
  intros set style. apply addMentioned_iff.
Qed.

Lemma collectDefined_iff (x : string) (classes : list string)
    (cssResults cssLibraryResults : list cssResult) (inlineStyles : list inlineStyle) :
  x ∈ collectDefined classes cssResults cssLibraryResults inlineStyles <->
  fromResults classes cssResults x \/ fromResults classes cssLibraryResults x
  \/ fromInline classes inlineStyles x.
Proof.
  unfold collectDefined. rewrite scanInline_iff, !scanResults_iff.
  rewrite elem_of_nil. tauto.
Qed.

Lemma fold_left_NoDup {X : Type} (f : list string -> X -> list string) (l : list X) :
  (forall set a, NoDup set -> NoDup (f set a)) ->
  forall set, NoDup set -> NoDup (fold_left f l set).
Proof. intros Hf. by apply (ListFacts.fold_left_preserves (fun set => NoDup set)). Qed.

Lemma addMentioned_NoDup (classes : list string) (text : string) (defined : list string) :
  NoDup defined -> NoDup (addMentioned classes text defined).
Proof.
  unfold addMentioned. revert defined. apply fold_left_NoDup.
  intros set cls Hnd. destruct (JsString.includes text cls); [by apply setAdd_NoDup | done].
Qed.

Lemma processMatchedOn_NoDup (matchedOn defined : list string) :
  NoDup defined -> NoDup (processMatchedOn defined matchedOn).
Proof.
  unfold processMatchedOn. revert defined. apply fold_left_NoDup.
  intros set item Hnd. destruct (JsString.startsWith item "class:");
    [by apply setAdd_NoDup | done].
Qed.

Lemma scanResults_NoDup (classes : list string) (results : list cssResult)
    (defined : list string) :
  NoDup defined -> NoDup (scanResults classes results defined).
Proof.
  unfold scanResults. revert defined. apply fold_left_NoDup.
  intros set result. revert set. apply fold_left_NoDup.
  intros set m Hnd. by apply addMentioned_NoDup, processMatchedOn_NoDup.
Qed.

Lemma collectDefined_NoDup (classes : list string)
    (cssResults cssLibraryResults : list cssResult) (inlineStyles : list inlineStyle) :
  NoDup (collectDefined classes cssResults cssLibraryResults inlineStyles).
Proof.
  unfold collectDefined, scanInline. apply fold_left_NoDup.
  - intros set style. apply addMentioned_NoDup.
  - apply scanResults_NoDup, scanResults_NoDup, NoDup_nil_2.
Qed.

(** The ghosts depend on the defined set through membership alone. *)
Lemma ghosts_ext (classes d1 d2 : list string) :
  (forall x, x ∈ d1 <-> x ∈ d2) ->
  List.filter (isGhost d1) classes = List.filter (isGhost d2) classes.
Proof.
  intros Hd. apply filter_ext. intros cls. unfold isGhost, setHas.
  rewrite (bool_decide_ext _ _ (Hd (className cls))), (bool_decide_ext _ _ (Hd cls)). done.
Qed.

Lemma fromResults_app (classes : list string) (a b : list cssResult) (x : string) :
  fromResults classes (a ++ b) x <-> fromResults classes a x \/ fromResults classes b x.
Proof.
  unfold fromResults. split.
  - intros (result & m & Hr & Hm & Hc). apply elem_of_app in Hr as [Hr|Hr]; [left|right]; eauto.
  - intros [(result & m & Hr & Hm & Hc)|(result & m & Hr & Hm & Hc)];
      exists result, m; (split; [apply elem_of_app; auto | done]).
Qed.

Lemma fromResults_nil (classes : list string) (x : string) : ~ fromResults classes [] x.
Proof. intros (result & m & Hr & _). by apply elem_of_nil in Hr. Qed.

End DefinedFacts.

(** ** The utility table reads the start of a name only *)

Module UtilityFacts.

Import Regex RegexFacts GhostDetector Defined.

Lemma matches_extend (x : string) (r : regex) b s b' s' :
  matches r b s b' s' -> openEnded r = true -> matches r b (s ++ x) b' (s' ++ x).
Proof.
  induction 1 as [b s|c b t|p c b t Hp|r1 r2 b s b1 s1 b2 s2 H1 IH1 H2 IH2
                 |r1 r2 b s b' s' H1 IH1|r1 r2 b s b' s' H1 IH1
                 |r b s b' s' H1 IH1|r b s|p c b t Hp|p c b t s' Hp H1 IH1
                 |s|b|r b s b' s' H1 IH1]; simpl; intros Hopen; try done.
  - constructor.
  - constructor.
  - by constructor.
  - apply andb_true_iff in Hopen as [Ho1 Ho2]. econstructor; eauto.
  - apply andb_true_iff in Hopen as [Ho1 Ho2]. apply MAltL. auto.
  - apply andb_true_iff in Hopen as [Ho1 Ho2]. apply MAltR. auto.
  - apply MOptSome. auto.
  - apply MOptNone.
  - by apply MPlusOne.
  - apply MPlusMore; auto.
  - constructor.
Qed.

Lemma test_extend (r : regex) (s x : string) :
  openEnded r = true -> test r s = true -> test r (s ++ x) = true.
Proof.
  intros Hopen. unfold test. rewrite !search_spec.
  intros (pre & post & b' & s' & -> & Hm).
  exists pre, (post ++ x), b', (s' ++ x). split.
  - by rewrite TextFacts.app_assoc.
  - by apply matches_extend.
Qed.

Lemma table_openEnded : forallb openEnded IGNORED_PATTERNS = true.
Proof. reflexivity. Qed.

Lemma cleanName_app (cls suffix : string) :
  cls <> EmptyString -> cleanName (cls ++ suffix) = cleanName cls ++ suffix.
Proof.
  destruct cls as [|c t]; [done|]. intros _. unfold cleanName. simpl.
  rewrite !ResolverFacts.startsWith_empty, !andb_true_r.
  by destruct (Ascii.eqb "." c).
Qed.

Lemma isUtility_extend (cls suffix : string) :
  isUtility cls = true -> isUtility (cls ++ suffix) = true.
Proof.
  destruct (String.eqb_spec cls EmptyString) as [->|Hne]; [by vm_compute|].
  unfold isUtility. rewrite !existsb_exists, cleanName_app by done.
  intros (pattern & Hin & Ht). exists pattern. split; [done|].
  apply test_extend; [|done].
  pose proof table_openEnded as Hall. rewrite forallb_forall in Hall. by apply Hall.
Qed.

End UtilityFacts.

(** ** Chains of plain rules *)

Module ChainFacts.

Import JsString CssAnalyzer Nesting.

Lemma nest_snoc (sels : list string) (sel : string) :
  forall outer, nest outer (sels ++ [sel]) = Rule sel (nest outer sels).
Proof. induction sels as [|s l IH]; intros outer; simpl; [done|]. by rewrite IH. Qed.

Lemma join_snoc (sep : string) (parts : list string) (last : string) :
  parts <> [] -> join sep (parts ++ [last]) = join sep parts ++ sep ++ last.
Proof.
  induction parts as [|p rest IH]; [done|]. intros _.
  destruct rest as [|q rest']; [done|].
  change (join sep ((p :: q :: rest') ++ [last]))
    with (p ++ sep ++ join sep ((q :: rest') ++ [last])).
  rewrite IH by done.
  change (join sep (p :: q :: rest')) with (p ++ sep ++ join sep (q :: rest')).
  by rewrite !TextFacts.app_assoc.
Qed.

Lemma resolve_chain (outer : node) (sels : list string) :
  notRule outer -> sels <> [] -> Forall plain sels ->
  resolveNestedSelector (nest outer sels) = join " " sels.
Proof.
  intros Houter. induction sels as [|sel sels IH] using rev_ind; [done|].
  intros _ Hall. apply Forall_app in Hall as [Hsels Hsel].
  apply Forall_cons in Hsel as [[Hamp Hcomma] _].
  rewrite nest_snoc. destruct sels as [|first rest].
  - simpl. by destruct outer.
  - specialize (IH ltac:(done) Hsels).
    rewrite join_snoc by done.
    assert (exists s p, nest outer (first :: rest) = Rule s p) as (s & p & Hn).
    { destruct (first :: rest) as [|x l] eqn:E using rev_ind; [done|].
      rewrite nest_snoc. eauto. }
    rewrite Hn in *. 
    change (resolveNestedSelector (Rule sel (Rule s p)))
      with (let parentSelector := resolveNestedSelector (Rule s p) in
            if includes sel "&" then
              if includes parentSelector "," then
                join ", " (map (fun q => replaceAmp sel q) (fanOut parentSelector))
              else replaceAmp sel parentSelector
            else if includes parentSelector "," then
              join ", " (map (fun q => q ++ " " ++ sel) (fanOut parentSelector))
            else parentSelector ++ " " ++ sel).
    cbv zeta. rewrite IH, !ResolverFacts.includes_char, Hamp.
    rewrite ResolverFacts.join_lacks; [done | done |].
    eapply Forall_impl; [exact Hsels|]. by intros x [_ Hx].
Qed.

End ChainFacts.

(** ** The minified test *)

Module MinifiedFacts.

Import Minified.

Lemma lineCount_pos (content : string) : (1 <= lineCount content)%nat.
Proof.
  unfold lineCount.
  pose proof (ResolverFacts.split_nonempty (Ascii.ascii_of_nat 10) content) as Hne.
  destruct (JsString.split _ content); [done | simpl; lia].
Qed.

Lemma pos_of_nat (n : nat) : (1 <= n)%nat -> Z.pos (Pos.of_nat n) = Z.of_nat n.
Proof.
  intros Hn. rewrite <- positive_nat_Z, Nat2Pos.id; [done | lia].
Qed.

Lemma avgAbove_spec (content : string) :
  avgAbove content = Nat.ltb (200 * lineCount content) (String.length content).
Proof.
  unfold avgAbove, Qlt_bool, QArith_base.Qle_bool.
  cbn [QArith_base.Qnum QArith_base.Qden].
  rewrite pos_of_nat by apply lineCount_pos.
  destruct (Z.leb_spec (Z.of_nat (String.length content) * 1)
                       (200 * Z.of_nat (lineCount content)));
    destruct (Nat.ltb_spec (200 * lineCount content) (String.length content));
    simpl; try done; lia.
Qed.

Lemma ratioBelow_spec (content : string) :
  ratioBelow content = Nat.ltb (500 * lineCount content) (String.length content).
Proof.
  unfold ratioBelow. destruct (String.length content) as [|n] eqn:Hlen; [done|].
  unfold Qlt_bool, QArith_base.Qle_bool.
  cbn [QArith_base.Qnum QArith_base.Qden].
  rewrite pos_of_nat by lia.
  destruct (Z.leb_spec (2 * Z.of_nat (S n)) (Z.of_nat (lineCount content) * 1000));
    destruct (Nat.ltb_spec (500 * lineCount content) (S n)); simpl; try done; lia.
Qed.

End MinifiedFacts.

(** ** From a reason of the matcher to the defined classes *)

Module WalkFacts.

Import JsString.

Lemma removeFirst_unfold (s pat : string) :
  removeFirst s pat
  = if startsWith s pat then substringFrom (String.length pat) s
    else match s with
         | EmptyString => EmptyString
         | String c t => String c (removeFirst t pat)
         end.
Proof. by destruct s. Qed.

Lemma removeFirst_prefix (pat rest : string) : removeFirst (pat ++ rest) pat = rest.
Proof.
  rewrite removeFirst_unfold.
  assert (startsWith (pat ++ rest) pat = true) as ->
    by (apply TextFacts.startsWith_spec; eauto).
  apply ExpansionFacts.substringFrom_app.
Qed.

Lemma removeFirst_absent (s pat : string) : includes s pat = false -> removeFirst s pat = s.
Proof.
  induction s as [|c t IH]; rewrite removeFirst_unfold.
  - change (includes EmptyString pat) with (startsWith EmptyString pat || false).
    rewrite orb_false_r. by intros ->.
  - change (includes (String c t) pat) with (startsWith (String c t) pat || includes t pat).
    intros H. apply orb_false_iff in H as [Hs Ht]. rewrite Hs. by rewrite IH.
Qed.

(** The name [processMatchedOn] reads back from the reason the matcher
    writes for a class. *)
Lemma class_reason_round_trip (cls : string) :
  includes cls "class:" = false ->
  startsWith ("class: " ++ cls) "class:" = true
  /\ "." ++ trim (removeFirst (removeFirst ("class: " ++ cls) "class: ") "class:")
     = "." ++ trim cls.
Proof.
  intros Hno. split.
  - reflexivity.
  - by rewrite removeFirst_prefix, removeFirst_absent.
Qed.

End WalkFacts.

(* ===================================================================== *)
(** * Part III: the claims of the specification                           *)
(* ===================================================================== *)



(** C1. For a property with two candidates or more, [analyzeConflicts] ranks
    the candidates by the order of the cascade: a declaration with
    [!important] outranks every one without; then the higher specificity,
    compared term by term from the most significant; then the file that
    comes later among the linked files; then the later declaration.  The
    winner outranks every other candidate, any two candidates are ordered,
    and the sorted list runs from the weakest to the winner.  With three
    candidates of specificity (0,1,0,0), (0,2,0,0) and (0,0,0,0), the last
    one alone with [!important], the [!important] one wins whatever the
    files and their order. *)
Theorem cascade_ranks_by_total_order
    (calculate : string -> Css.outcome (option SpecificityLib.abc))
    (cssResults : list Css.cssResult) (linked : list string)
    (prop : string) (d : SpecificityCalculator.decision) :
  SpecificityCalculator.analyzeConflicts calculate cssResults linked !! prop = Some d ->
  (exists rules,
      fst (SpecificityCalculator.groupRules calculate cssResults linked) !! prop = Some rules
      /\ (2 <= List.length rules)%nat
      /\ Statements.declarationOrder rules
      /\ Forall (Statements.recorded calculate linked) rules
      /\ (forall r i, r ∈ rules ->
            Statements.linkedAt linked (SpecificityCalculator.file r) i ->
            SpecificityCalculator.fileOrder r = i)
      /\ SpecificityCalculator.winner d ∈ rules
      /\ (forall c, c ∈ rules -> c <> SpecificityCalculator.winner d ->
            Statements.outranks (SpecificityCalculator.winner d) c)
      /\ (forall a b, a ∈ rules -> b ∈ rules -> a <> b ->
            Statements.outranks a b \/ Statements.outranks b a)
      /\ Statements.closestLast
           (SpecificityCalculator.sort SpecificityCalculator.compareRules rules))
  /\ (forall a b c l,
        SpecificityCalculator.spec a = SpecificityCalculator.Spec 0 1 0 0 ->
        SpecificityCalculator.spec b = SpecificityCalculator.Spec 0 2 0 0 ->
        SpecificityCalculator.spec c = SpecificityCalculator.Spec 0 0 0 0 ->
        SpecificityCalculator.important a = false ->
        SpecificityCalculator.important b = false ->
        SpecificityCalculator.important c = true ->
        Permutation l [a; b; c] ->
        exists d', SpecificityCalculator.decideProperty l = Some d'
                   /\ SpecificityCalculator.winner d' = c).
Proof.
  intros Hd. split.
  - apply CascadeFacts.analyze_lookup in Hd as (rules & Hl & Hd).
    destruct (GroupingFacts.groupRules_grouped calculate linked cssResults prop rules Hl)
      as [Hdecl Hrec].
    destruct (CascadeFacts.decision_ranked rules d Hdecl Hd) as (Hperm & Hsorted & _).
    pose proof (SortFacts.decideProperty_Some rules d Hd) as (Hlen & Hsort & _).
    apply CascadeFacts.closestLast_snoc_inv in Hsorted as Hinv. destruct Hinv as [_ Hwin].
    exists rules. repeat split; try done.
    + eapply Forall_impl; [exact Hrec|]. by intros r [_ Hr].
    + intros r i Hr Hat. rewrite Forall_forall in Hrec.
      destruct (Hrec r Hr) as (_ & _ & _ & ->).
      by apply GroupingFacts.fileOrderValue_listed.
    + rewrite <- Hperm. apply elem_of_app. right. apply list_elem_of_here.
    + intros c Hc Hne. rewrite <- Hperm in Hc.
      apply elem_of_app in Hc as [Hc | Hc].
      * rewrite Forall_forall in Hwin. by apply Hwin.
      * by apply list_elem_of_singleton in Hc.
    + intros a b. by apply CascadeFacts.members_comparable.
    + by rewrite Hsort.
  - intros a b c l Ha Hb Hc Hia Hib Hic Hperm.
    destruct (SortFacts.decideProperty_total l) as [d' Hd'].
    { apply Permutation_length in Hperm. rewrite Hperm. simpl. lia. }
    exists d'. split; [done|].
    apply SortFacts.decideProperty_Some in Hd' as (_ & Hsort & _).
    pose proof (SortFacts.sort_sorted l) as Hs. rewrite Hsort in Hs.
    apply SortFacts.sorted_last_greatest in Hs. rewrite Forall_forall in Hs.
    assert (Permutation (SpecificityCalculator.losers d' ++ [SpecificityCalculator.winner d'])%list
              [a; b; c]) as Hp
      by (rewrite <- Hsort, <- Hperm; apply SortFacts.sort_perm).
    assert (c ∈ (SpecificityCalculator.losers d' ++ [SpecificityCalculator.winner d'])%list)
      as Hcin by (rewrite Hp; set_solver).
    assert (SpecificityCalculator.winner d'
              ∈ (SpecificityCalculator.losers d' ++ [SpecificityCalculator.winner d'])%list)
      as Hwin by (apply elem_of_app; right; apply list_elem_of_here).
    apply elem_of_app in Hcin as [Hcin | Hcin];
      [|by apply list_elem_of_singleton in Hcin].
    specialize (Hs c Hcin). unfold Statements.notAfter in Hs.
    rewrite Hp in Hwin.
    assert (SpecificityCalculator.important (SpecificityCalculator.winner d') = false
            \/ SpecificityCalculator.winner d' = c) as [Hw | Hw].
    { repeat (apply elem_of_cons in Hwin as [-> | Hwin]); auto.
      by apply elem_of_nil in Hwin. }
    2: done.
    exfalso. revert Hs. unfold SpecificityCalculator.compareRules.
    rewrite Hic, Hw. simpl. lia.
Qed.

Lemma cascade_ranks_by_total_order_witness :
  SpecificityCalculator.analyzeConflicts SpecificityLib.calculate
    Examples.threeFiles Examples.threeLinked !! "color" = Some Examples.colorDecision
  /\ (forall c,
        c ∈ [Examples.blueRule; Examples.redRule; Examples.greenRule] ->
        c <> Examples.blueRule -> Statements.outranks Examples.blueRule c).
Proof.
  assert (SpecificityCalculator.analyzeConflicts SpecificityLib.calculate
            Examples.threeFiles Examples.threeLinked !! "color"
          = Some Examples.colorDecision) as Hd by (vm_compute; reflexivity).
  split; [exact Hd|].
  destruct (cascade_ranks_by_total_order SpecificityLib.calculate
              Examples.threeFiles Examples.threeLinked "color" Examples.colorDecision Hd)
    as [(rules & Hl & _ & _ & _ & _ & _ & Hwin & _) _].
  assert (rules = [Examples.blueRule; Examples.redRule; Examples.greenRule]) as ->.
  { vm_compute in Hl. by injection Hl as <-. }
  exact Hwin.
Defined.

(** C2, as the code has it. A decision is emitted for a property with two
    candidates or more; it holds one winner, which outranks every loser, and
    the losers are all the other candidates, listed from the weakest up: the
    closest competitor stands last in the returned [losers], and comes first
    only in the order in which [formatConflictsMarkdown] prints them. *)
Theorem decision_winner_then_losers_weakest_first
    (calculate : string -> Css.outcome (option SpecificityLib.abc))
    (cssResults : list Css.cssResult) (linked : list string)
    (prop : string) (d : SpecificityCalculator.decision) :
  SpecificityCalculator.analyzeConflicts calculate cssResults linked !! prop = Some d ->
  exists rules,
    fst (SpecificityCalculator.groupRules calculate cssResults linked) !! prop = Some rules
    /\ Permutation (SpecificityCalculator.winner d :: SpecificityCalculator.losers d) rules
    /\ (forall c, c ∈ SpecificityCalculator.losers d ->
          Statements.outranks (SpecificityCalculator.winner d) c)
    /\ Statements.closestLast (SpecificityCalculator.losers d)
    /\ Statements.closestFirst (SpecificityCalculator.displayedLosers d)
    /\ SpecificityCalculator.hasConflict d = true.
Proof.
  intros Hd. apply CascadeFacts.analyze_lookup in Hd as (rules & Hl & Hd).
  destruct (GroupingFacts.groupRules_grouped calculate linked cssResults prop rules Hl)
    as [Hdecl _].
  destruct (CascadeFacts.decision_ranked rules d Hdecl Hd) as (Hperm & Hsorted & Hc).
  apply CascadeFacts.closestLast_snoc_inv in Hsorted as [Hlosers Hwin].
  exists rules. split; [done|]. split.
  - rewrite <- Hperm. apply Permutation_cons_append.
  - split; [by apply Forall_forall|]. split; [done|]. split; [|done].
    by apply CascadeFacts.closestLast_rev.
Qed.

Lemma decision_winner_then_losers_weakest_first_witness :
  SpecificityCalculator.analyzeConflicts SpecificityLib.calculate
    Examples.threeFiles Examples.threeLinked !! "color" = Some Examples.colorDecision
  /\ Statements.closestLast [Examples.redRule; Examples.greenRule]
  /\ Statements.closestFirst [Examples.greenRule; Examples.redRule].
Proof.
  assert (SpecificityCalculator.analyzeConflicts SpecificityLib.calculate
            Examples.threeFiles Examples.threeLinked !! "color"
          = Some Examples.colorDecision) as Hd by (vm_compute; reflexivity).
  split; [exact Hd|].
  destruct (decision_winner_then_losers_weakest_first SpecificityLib.calculate
              Examples.threeFiles Examples.threeLinked "color" Examples.colorDecision Hd)
    as (rules & _ & _ & _ & Hlast & Hfirst & _).
  split; [exact Hlast | exact Hfirst].
Defined.

(** C2 as stated fails: for the three files of [Examples.threeFiles] the
    returned losers are the red rule and then the green rule, and the green
    rule, the closest competitor of the winner, is not the first of them. *)
Lemma closest_competitor_is_not_first :
  exists d,
    SpecificityCalculator.analyzeConflicts SpecificityLib.calculate
      Examples.threeFiles Examples.threeLinked !! "color" = Some d
    /\ SpecificityCalculator.losers d = [Examples.redRule; Examples.greenRule]
    /\ Statements.outranks Examples.greenRule Examples.redRule
    /\ ~ Statements.closestFirst (SpecificityCalculator.losers d).
Proof.
  exists Examples.colorDecision. split; [vm_compute; reflexivity|].
  split; [reflexivity|]. split.
  - apply ComparatorFacts.compareRules_pos. vm_compute. reflexivity.
  - simpl. intros Hs. apply StronglySorted_inv in Hs as [_ Hs].
    apply Forall_cons in Hs as [Hs _].
    apply ComparatorFacts.compareRules_pos in Hs. vm_compute in Hs. discriminate Hs.
Qed.



(** C3, as the code has it. For a rule nested directly in a rule, whose own
    selector contains [&] and whose resolved parent selector contains a
    comma, [resolveNestedSelector] returns one text: the branches of the
    parent (split at the commas, trimmed, in their order), each put in the
    place of every [&] of the child, joined by [", "]; the parents [.a, .b]
    with the child [&--x] give [.a--x, .b--x], whose branches are [.a--x] and
    [.b--x].  The resolved selector is free of [&] when no selector of the
    nesting chain contains [$] and the outermost rule contains no [&]. *)
Theorem ampersand_fans_out_over_parent_branches
    (self psel : string) (pparent : CssAnalyzer.node) :
  JsString.includes self "&" = true ->
  JsString.includes (CssAnalyzer.resolveNestedSelector (CssAnalyzer.Rule psel pparent)) ","
  = true ->
  Forall (fun branch => Statements.literalTemplate branch = true)
    (CssAnalyzer.fanOut (CssAnalyzer.resolveNestedSelector (CssAnalyzer.Rule psel pparent))) ->
  CssAnalyzer.resolveNestedSelector (CssAnalyzer.Rule self (CssAnalyzer.Rule psel pparent))
  = JsString.join ", "
      (map (Statements.substituteAmp self)
         (CssAnalyzer.fanOut
            (CssAnalyzer.resolveNestedSelector (CssAnalyzer.Rule psel pparent))))
  /\ (2 <= List.length
            (CssAnalyzer.fanOut
               (CssAnalyzer.resolveNestedSelector (CssAnalyzer.Rule psel pparent))))%nat
  /\ CssAnalyzer.resolveNestedSelector
       (CssAnalyzer.Rule "&--x" (CssAnalyzer.Rule ".a, .b" CssAnalyzer.Root))
     = ".a--x, .b--x"
  /\ CssAnalyzer.fanOut ".a--x, .b--x" = [".a--x"; ".b--x"]
  /\ (forall rule,
        Statements.plainChain rule ->
        JsString.includes (CssAnalyzer.resolveNestedSelector rule) "&" = false).
Proof.
  intros Hself Hcomma Hlit.
  set (P := CssAnalyzer.resolveNestedSelector (CssAnalyzer.Rule psel pparent)) in *.
  split.
  - change (CssAnalyzer.resolveNestedSelector
              (CssAnalyzer.Rule self (CssAnalyzer.Rule psel pparent)))
      with (if JsString.includes self "&" then
              if JsString.includes P "," then
                JsString.join ", "
                  (map (fun p => JsString.replaceAmp self p) (CssAnalyzer.fanOut P))
              else JsString.replaceAmp self P
            else if JsString.includes P "," then
              JsString.join ", " (map (fun p => p ++ " " ++ self) (CssAnalyzer.fanOut P))
            else P ++ " " ++ self).
    rewrite Hself, Hcomma. f_equal.
    induction Hlit as [|branch rest Hb _ IH]; [done|].
    simpl. by rewrite ResolverFacts.replaceAmp_literal, IH.
  - split.
    + unfold CssAnalyzer.fanOut. rewrite length_map.
      apply ResolverFacts.split_two. by rewrite <- ResolverFacts.includes_char.
    + split; [reflexivity|]. split; [reflexivity|].
      intros rule Hplain. rewrite ResolverFacts.includes_char.
      by apply ResolverFacts.resolve_plain.
Qed.

Lemma ampersand_fans_out_over_parent_branches_witness :
  JsString.includes "&--x" "&" = true
  /\ CssAnalyzer.resolveNestedSelector
       (CssAnalyzer.Rule "&--x" (CssAnalyzer.Rule ".a, .b" CssAnalyzer.Root))
     = JsString.join ", "
         (map (Statements.substituteAmp "&--x")
            (CssAnalyzer.fanOut
               (CssAnalyzer.resolveNestedSelector
                  (CssAnalyzer.Rule ".a, .b" CssAnalyzer.Root)))).
Proof.
  split; [reflexivity|].
  apply (ampersand_fans_out_over_parent_branches "&--x" ".a, .b" CssAnalyzer.Root).
  - reflexivity.
  - reflexivity.
  - simpl. repeat constructor.
Defined.

(** C3 as stated fails in its last part: a rule at the top level keeps its
    selector, [&] included; so does a rule that stands directly inside an
    at-rule, whatever encloses the at-rule; and a parent branch that holds
    the replacement pattern [$&] puts an [&] back. *)
Lemma unresolved_ampersand_survives :
  JsString.includes
    (CssAnalyzer.resolveNestedSelector (CssAnalyzer.Rule "& > li" CssAnalyzer.Root)) "&"
  = true
  /\ CssAnalyzer.resolveNestedSelector
       (CssAnalyzer.Rule "&--x"
          (CssAnalyzer.AtRule "media" "print"
             (CssAnalyzer.Rule ".a, .b" CssAnalyzer.Root)))
     = "&--x"
  /\ CssAnalyzer.resolveNestedSelector
       (CssAnalyzer.Rule "&-x" (CssAnalyzer.Rule "[data-v='$&'], .b" CssAnalyzer.Root))
     = "[data-v='&']-x, .b-x".
Proof. split; [reflexivity|]. split; reflexivity. Qed.

(** C4. With the package as section 4.3 describes it, [calculateSpecificity]
    gives (0,0,0,0) for [:where(.a, .b)], and for [:where(arg)] whatever the
    argument without parentheses of its own; a class term of at least 1 for
    [:is(.a, .b)]; (0,1,1,0) for [#id .cls].  Whatever the package returns
    and whatever is passed, the first, inline-style term is zero. *)
Theorem specificity_of_where_is_id_and_inline_zero (arg : string) :
  JsString.charIn arg "(" = false ->
  JsString.charIn arg ")" = false ->
  SpecificityCalculator.calculateSpecificity SpecificityLib.calculate
    (Css.JStr ":where(.a, .b)") = SpecificityCalculator.Spec 0 0 0 0
  /\ SpecificityCalculator.calculateSpecificity SpecificityLib.calculate
       (Css.JStr (":where(" ++ arg ++ ")")) = SpecificityCalculator.Spec 0 0 0 0
  /\ (1 <= SpecificityCalculator.classCount
             (SpecificityCalculator.calculateSpecificity SpecificityLib.calculate
                (Css.JStr ":is(.a, .b)")))%nat
  /\ SpecificityCalculator.calculateSpecificity SpecificityLib.calculate
       (Css.JStr "#id .cls") = SpecificityCalculator.Spec 0 1 1 0
  /\ (forall calculate selector,
        SpecificityCalculator.inline
          (SpecificityCalculator.calculateSpecificity calculate selector) = 0).
Proof.
  intros Hopen Hclose. split; [reflexivity|]. split.
  - unfold SpecificityCalculator.calculateSpecificity.
    rewrite SpecificityFacts.calculate_where by done. reflexivity.
  - split; [vm_compute; lia|]. split; [reflexivity|].
    apply SpecificityFacts.inline_zero.
Qed.

Lemma specificity_of_where_is_id_and_inline_zero_witness :
  JsString.charIn "#main > ul li.item" "(" = false
  /\ SpecificityCalculator.calculateSpecificity SpecificityLib.calculate
       (Css.JStr (":where(" ++ "#main > ul li.item" ++ ")"))
     = SpecificityCalculator.Spec 0 0 0 0.
Proof.
  split; [reflexivity|].
  apply (specificity_of_where_is_id_and_inline_zero "#main > ul li.item");
    reflexivity.
Defined.

(** C7, as the code has it. Neither function can throw.  The matcher
    answers [{ matches: false, matchedOn: [] }] for the empty selector when
    the tag name of the target is not empty; it has no parser, and matches a
    malformed selector by its text like any other.  [calculateSpecificity]
    answers (0,0,0,0) when the package throws on the selector, and for every
    value that is not a string, and for the empty string. *)
Theorem empty_selector_and_parse_failure_give_zero_values
    (calculate : string -> Css.outcome (option SpecificityLib.abc))
    (info : Css.targetInfo) (s : string) (v : Css.jsval) :
  Css.tagName info <> EmptyString ->
  calculate s = Css.Throws ->
  (forall t, v <> Css.JStr t) ->
  CssAnalyzer.checkRuleMatch EmptyString (CssAnalyzer.buildTargetSelectors info) info
  = {| CssAnalyzer.isMatch := false; CssAnalyzer.reasons := [] |}
  /\ SpecificityCalculator.calculateSpecificity calculate (Css.JStr s)
     = SpecificityCalculator.Spec 0 0 0 0
  /\ SpecificityCalculator.calculateSpecificity calculate v
     = SpecificityCalculator.Spec 0 0 0 0
  /\ SpecificityCalculator.calculateSpecificity calculate (Css.JStr EmptyString)
     = SpecificityCalculator.Spec 0 0 0 0.
Proof.
  intros Htag Hthrows Hv. split.
  - by apply MatcherFacts.checkRuleMatch_empty.
  - split; [by apply SpecificityFacts.throws_zero|].
    split; [by apply SpecificityFacts.not_string_zero | reflexivity].
Qed.

Lemma empty_selector_and_parse_failure_give_zero_values_witness :
  SpecificityLib.calculate ".btn." = Css.Throws
  /\ CssAnalyzer.checkRuleMatch EmptyString
       (CssAnalyzer.buildTargetSelectors Examples.button) Examples.button
     = {| CssAnalyzer.isMatch := false; CssAnalyzer.reasons := [] |}
  /\ SpecificityCalculator.calculateSpecificity SpecificityLib.calculate (Css.JStr ".btn.")
     = SpecificityCalculator.Spec 0 0 0 0.
Proof.
  split; [reflexivity|].
  destruct (empty_selector_and_parse_failure_give_zero_values SpecificityLib.calculate
              Examples.button ".btn." Css.JNull)
    as (Hm & Hs & _).
  - simpl. discriminate.
  - reflexivity.
  - intros t. discriminate.
  - split; [exact Hm | exact Hs].
Defined.

(** C7 as stated fails for the matcher: the selector [.btn.], which the
    package cannot parse, matches the class [btn]; and the empty selector
    matches a target whose tag name is empty. *)
Lemma malformed_selector_still_matches :
  SpecificityLib.calculate ".btn." = Css.Throws
  /\ CssAnalyzer.checkRuleMatch ".btn."
       (CssAnalyzer.buildTargetSelectors Examples.button) Examples.button
     = {| CssAnalyzer.isMatch := true; CssAnalyzer.reasons := ["class: btn"] |}
  /\ CssAnalyzer.checkRuleMatch EmptyString
       (CssAnalyzer.buildTargetSelectors Examples.anonymous) Examples.anonymous
     = {| CssAnalyzer.isMatch := true; CssAnalyzer.reasons := ["tag: "] |}.
Proof. split; [reflexivity|]. split; vm_compute; reflexivity. Qed.

(** C9. In every report of [detectGhostClasses] the ghost classes and the
    defined classes are disjoint: a ghost class is a class of the target,
    and neither the class as listed nor its dotted form [className] is in
    the defined set.  The defined set holds what the matches show: a class
    of the target that the selector of a match mentions is defined and is
    no ghost, and so is the dotted name of every [class:] reason. *)
Theorem ghost_and_defined_classes_are_disjoint
    (info : Css.targetInfo) (cssResults cssLibraryResults : list Css.cssResult)
    (inlineStyles : list Css.inlineStyle) :
  Forall
    (fun cls =>
       cls ∈ Css.classes info
       /\ (cls ∉ GhostDetector.definedClasses
                   (GhostDetector.detectGhostClasses info cssResults cssLibraryResults
                      inlineStyles))
       /\ (GhostDetector.className cls
             ∉ GhostDetector.definedClasses
                 (GhostDetector.detectGhostClasses info cssResults cssLibraryResults
                    inlineStyles)))
    (GhostDetector.ghostClasses
       (GhostDetector.detectGhostClasses info cssResults cssLibraryResults inlineStyles))
  /\ (forall result m cls,
        result ∈ cssResults \/ result ∈ cssLibraryResults ->
        m ∈ Css.matches result ->
        cls ∈ Css.classes info ->
        JsString.includes (Css.selector m) cls = true ->
        cls ∈ GhostDetector.definedClasses
                (GhostDetector.detectGhostClasses info cssResults cssLibraryResults
                   inlineStyles)
        /\ (cls ∉ GhostDetector.ghostClasses
                    (GhostDetector.detectGhostClasses info cssResults cssLibraryResults
                       inlineStyles)))
  /\ (forall result m item,
        result ∈ cssResults \/ result ∈ cssLibraryResults ->
        m ∈ Css.matches result ->
        item ∈ Css.matchedOn m ->
        JsString.startsWith item "class:" = true ->
        Css.classes info <> [] ->
        ("." ++ JsString.trim
                  (JsString.removeFirst (JsString.removeFirst item "class: ") "class:"))
          ∈ GhostDetector.definedClasses
              (GhostDetector.detectGhostClasses info cssResults cssLibraryResults
                 inlineStyles)).
Proof.
  split.
  - apply Forall_forall. intros cls Hcls.
    apply GhostFacts.ghostClasses_spec in Hcls as [Hin Hghost].
    apply GhostFacts.isGhost_true in Hghost as (Hdotted & Hplain & _).
    by repeat split.
  - split.
    + intros result m cls Hr Hm Hcls Hinc.
      assert (cls ∈ GhostDetector.definedClasses
                      (GhostDetector.detectGhostClasses info cssResults cssLibraryResults
                         inlineStyles)) as Hdef.
      { rewrite GhostFacts.definedClasses_spec
          by (intros Hnil; rewrite Hnil in Hcls; by apply elem_of_nil in Hcls).
        apply (GhostFacts.collectDefined_hit cls _ _ _ _ result m); [done | done |].
        intros set. by apply GhostFacts.addMentioned_hit. }
      split; [done|]. intros Hghost.
      apply GhostFacts.ghostClasses_spec in Hghost as [_ Hghost].
      apply GhostFacts.isGhost_true in Hghost as (_ & Hplain & _). done.
    + intros result m item Hr Hm Hitem Hstart Hne.
      rewrite GhostFacts.definedClasses_spec by done.
      apply (GhostFacts.collectDefined_hit _ _ _ _ _ result m); [done | done |].
      intros set. by apply GhostFacts.addMentioned_mono, GhostFacts.processMatchedOn_hit.
Qed.

Lemma ghost_and_defined_classes_are_disjoint_witness :
  JsString.includes ".card:hover" "card" = true
  /\ "card" ∈ GhostDetector.definedClasses
                (GhostDetector.detectGhostClasses Examples.card Examples.cardResults [] [])
  /\ ("card" ∉ GhostDetector.ghostClasses
                 (GhostDetector.detectGhostClasses Examples.card Examples.cardResults [] [])).
Proof.
  split; [reflexivity|].
  destruct (ghost_and_defined_classes_are_disjoint Examples.card Examples.cardResults [] [])
    as (_ & Hmentioned & _).
  apply (Hmentioned
           {| Css.filePath := "site.css";
              Css.matches :=
                [ {| Css.selector := ".card:hover";
                     Css.content := ".card:hover { color: red; }";
                     Css.matchedOn := ["class: card"];
                     Css.startLine := 2; Css.endLine := 2 |} ] |}
           {| Css.selector := ".card:hover";
              Css.content := ".card:hover { color: red; }";
              Css.matchedOn := ["class: card"];
              Css.startLine := 2; Css.endLine := 2 |}
           "card").
  - left. apply list_elem_of_here.
  - apply list_elem_of_here.
  - apply list_elem_of_here.
  - reflexivity.
Defined.

(** C5 at the class the specification names and at the first case of
    [test/test-fixes.js]. The table has no entry for the names CSS Modules
    generate: [Btn_primary_a1b2c] matches none and is reported as a ghost
    when no CSS mentions it, and so is [Button_primary_a8f3d] in the test.
    The rest of C5 holds: a class that matches an entry is not reported, and
    a class of the target that is not defined and matches no entry is. *)
Theorem utility_table_has_no_css_modules_entry :
  GhostDetector.isUtility "Btn_primary_a1b2c" = false
  /\ GhostDetector.ghostClasses (GhostDetector.detectGhostClasses Examples.hashed [] [] [])
     = ["Btn_primary_a1b2c"]
  /\ GhostDetector.ghostClasses
       (GhostDetector.detectGhostClasses Examples.testFixesTarget Examples.testFixesResults
          [] [])
     = ["Button_primary_a8f3d"; "my-custom-class"]
  /\ GhostDetector.isUtility "flex" = true
  /\ GhostDetector.isUtility "is-active" = true
  /\ (forall info cssResults cssLibraryResults inlineStyles cls,
        GhostDetector.isUtility cls = true ->
        cls ∉ GhostDetector.ghostClasses
                (GhostDetector.detectGhostClasses info cssResults cssLibraryResults
                   inlineStyles))
  /\ (forall info cssResults cssLibraryResults inlineStyles cls,
        cls ∈ Css.classes info ->
        GhostDetector.isUtility cls = false ->
        cls ∉ GhostDetector.definedClasses
                (GhostDetector.detectGhostClasses info cssResults cssLibraryResults
                   inlineStyles) ->
        GhostDetector.className cls
          ∉ GhostDetector.definedClasses
              (GhostDetector.detectGhostClasses info cssResults cssLibraryResults
                 inlineStyles) ->
        cls ∈ GhostDetector.ghostClasses
                (GhostDetector.detectGhostClasses info cssResults cssLibraryResults
                   inlineStyles)).
Proof.
  split; [vm_compute; reflexivity|]. split; [vm_compute; reflexivity|].
  split; [vm_compute; reflexivity|]. split; [vm_compute; reflexivity|].
  split; [vm_compute; reflexivity|]. split.
  - intros info cssResults cssLibraryResults inlineStyles cls Hu Hin.
    apply GhostFacts.ghostClasses_spec in Hin as [_ Hghost].
    apply GhostFacts.isGhost_true in Hghost as (_ & _ & Hnot). congruence.
  - intros info cssResults cssLibraryResults inlineStyles cls Hin Hu Hplain Hdotted.
    apply GhostFacts.ghostClasses_spec. split; [done|].
    by apply GhostFacts.isGhost_true.
Qed.

(** C8 at an identity without classes. The early return of
    [detectGhostClasses] builds a report without the field [hasGhosts],
    where the claim wants [false]; with one class or more the field is
    [ghostClasses.length > 0]. *)
Theorem report_without_classes_has_no_hasGhosts :
  (forall cssResults cssLibraryResults inlineStyles,
      GhostDetector.detectGhostClasses Examples.classless cssResults cssLibraryResults
        inlineStyles
      = {| GhostDetector.ghostClasses := []; GhostDetector.definedClasses := [];
           GhostDetector.totalClasses := 0; GhostDetector.hasGhosts := None |})
  /\ (forall info cssResults cssLibraryResults inlineStyles,
        Css.classes info <> [] ->
        GhostDetector.hasGhosts
          (GhostDetector.detectGhostClasses info cssResults cssLibraryResults inlineStyles)
        = Some (Nat.ltb 0
                  (List.length
                     (GhostDetector.ghostClasses
                        (GhostDetector.detectGhostClasses info cssResults
                           cssLibraryResults inlineStyles))))).
Proof.
  split.
  - intros cssResults cssLibraryResults inlineStyles. reflexivity.
  - intros info cssResults cssLibraryResults inlineStyles Hne.
    rewrite GhostFacts.hasGhosts_spec. by destruct (Css.classes info).
Qed.

(* ===================================================================== *)
(** * Part IV: further properties of the code                             *)
(* ===================================================================== *)

(** X1. [truncateValue] never returns more than 40 code units: a value of
    at most 40 comes back as it is, a longer one as its first 37 code units
    and three dots. *)
Theorem truncateValue_fits_forty (value : string) :
  (String.length (Display.truncateValue value) <= 40)%nat
  /\ ((String.length value <= 40)%nat -> Display.truncateValue value = value)
  /\ ((40 < String.length value)%nat ->
      Display.truncateValue value = Display.substringTo 37 value ++ "..."
      /\ String.length (Display.truncateValue value) = 40).
Proof.
  unfold Display.truncateValue.
  destruct (String.eqb_spec value EmptyString) as [-> | Hne].
  - simpl. split; [lia|]. split; [done|]. intros H. lia.
  - destruct (Nat.ltb_spec 40 (String.length value)) as [Hlong | Hshort].
    + rewrite TextFacts.length_app, DisplayFacts.substringTo_length.
      change (String.length "...") with 3.
      split; [lia|]. split; [intros H; lia|]. intros _. split; [done | lia].
    + split; [lia|]. split; [done|]. intros H. lia.
Qed.

Lemma truncateValue_fits_forty_witness :
  (40 < String.length "linear-gradient(to right, rgba(0,0,0,0.8), transparent)")%nat
  /\ Display.truncateValue "linear-gradient(to right, rgba(0,0,0,0.8), transparent)"
     = Display.substringTo 37 "linear-gradient(to right, rgba(0,0,0,0.8), transparent)"
       ++ "..."
  /\ String.length
       (Display.truncateValue "linear-gradient(to right, rgba(0,0,0,0.8), transparent)")
     = 40.
Proof.
  assert (40 < String.length "linear-gradient(to right, rgba(0,0,0,0.8), transparent)")%nat
    as Hlong by (simpl; lia).
  split; [exact Hlong|].
  destruct (truncateValue_fits_forty
              "linear-gradient(to right, rgba(0,0,0,0.8), transparent)")
    as (_ & _ & Hcut).
  exact (Hcut Hlong).
Defined.

(** X2. [getFileName] returns a name without a separator, [/] or [\]; of a
    path that ends in a separator and a name free of separators it returns
    that name, whichever of the two separators is used and whatever comes
    before. *)
Theorem getFileName_is_the_last_part (dir name : string) (sep : ascii) :
  sep = "/"%char \/ sep = "\"%char ->
  JsString.charIn name "/" = false ->
  JsString.charIn name "\" = false ->
  Display.getFileName (dir ++ String sep name) = name
  /\ (forall path,
        JsString.charIn (Display.getFileName path) "/" = false
        /\ JsString.charIn (Display.getFileName path) "\" = false).
Proof.
  intros Hsep Hslash Hback. split.
  - rewrite DisplayFacts.getFileName_last by (by destruct dir).
    rewrite DisplayFacts.slashes_app. simpl.
    assert ((if Ascii.eqb sep "\" then "/"%char else sep) = "/"%char) as ->
      by (by destruct Hsep as [-> | ->]).
    rewrite (DisplayFacts.slashes_plain name) by done.
    rewrite TextFacts.split_app, (TextFacts.split_lacks_sep "/" name) by done.
    apply last_last.
  - intros path. unfold Display.getFileName.
    destruct (String.eqb path EmptyString); [done|]. split.
    + apply (DisplayFacts.last_Forall (fun piece => JsString.charIn piece "/" = false));
        [apply TextFacts.split_pieces_lack_sep | done].
    + apply (DisplayFacts.last_Forall (fun piece => JsString.charIn piece "\" = false));
        [|done].
      apply ResolverFacts.split_lacks, DisplayFacts.slashes_lacks_backslash.
Qed.

Lemma getFileName_is_the_last_part_witness :
  JsString.charIn "theme.min.css" "/" = false
  /\ Display.getFileName ("C:\site\assets" ++ String "\" "theme.min.css") = "theme.min.css".
Proof.
  split; [reflexivity|].
  apply (getFileName_is_the_last_part "C:\site\assets" "theme.min.css" "\").
  - by right.
  - reflexivity.
  - reflexivity.
Defined.

(** X3. The switch of [formatAtRuleContext] changes nothing: for [layer],
    [container], [supports], [media] and every other name the text is [@],
    the name, a space and the parameters. *)
Theorem formatAtRuleContext_is_uniform (node : Display.atRule) :
  Display.formatAtRuleContext node
  = "@" ++ Display.name node ++ " " ++ Display.params node.
Proof.
  unfold Display.formatAtRuleContext.
  repeat match goal with
         | |- context [String.eqb ?a ?b] =>
             destruct (String.eqb_spec a b) as [-> | ?]; [reflexivity|]
         end.
  reflexivity.
Qed.

(** X4. [compareSpecificity] is a three-way comparison of the tuples: it
    returns -1, 0 or 1; 0 exactly for equal tuples; swapping the arguments
    negates the result; and "not greater" is transitive. *)
Theorem compareSpecificity_is_a_three_way_comparison
    (a b c : SpecificityCalculator.specificity) :
  (SpecificityCalculator.compareSpecificity a b = 0%Z <-> a = b)
  /\ SpecificityCalculator.compareSpecificity b a
     = (- SpecificityCalculator.compareSpecificity a b)%Z
  /\ (SpecificityCalculator.compareSpecificity a b = (-1)%Z
      \/ SpecificityCalculator.compareSpecificity a b = 0%Z
      \/ SpecificityCalculator.compareSpecificity a b = 1%Z)
  /\ ((SpecificityCalculator.compareSpecificity a b <= 0)%Z ->
      (SpecificityCalculator.compareSpecificity b c <= 0)%Z ->
      (SpecificityCalculator.compareSpecificity a c <= 0)%Z).
Proof.
  pose proof (ComparatorFacts.compareSpecificity_cases a b) as Hab.
  pose proof (ComparatorFacts.compareSpecificity_cases b a) as Hba.
  pose proof (ComparatorFacts.compareSpecificity_cases b c) as Hbc.
  pose proof (ComparatorFacts.compareSpecificity_cases a c) as Hac.
  rewrite <- (ComparatorFacts.specEqual_eq a b).
  rewrite !ComparatorFacts.specHigher_unfold in *.
  unfold Statements.specEqual in *.
  repeat split; try intros; lia.
Qed.

Lemma compareSpecificity_is_a_three_way_comparison_witness :
  (SpecificityCalculator.compareSpecificity
     (SpecificityCalculator.Spec 0 0 2 1) (SpecificityCalculator.Spec 0 1 0 0) <= 0)%Z
  /\ (SpecificityCalculator.compareSpecificity
        (SpecificityCalculator.Spec 0 0 2 1) (SpecificityCalculator.Spec 0 1 0 3) <= 0)%Z.
Proof.
  split; [vm_compute; discriminate|].
  apply (compareSpecificity_is_a_three_way_comparison
           (SpecificityCalculator.Spec 0 0 2 1) (SpecificityCalculator.Spec 0 1 0 0)
           (SpecificityCalculator.Spec 0 1 0 3)); vm_compute; discriminate.
Defined.

(** X5. The parse cache stays a map of at most [MAX_CACHE_SIZE] = 50
    entries: whatever run of [analyzeCSS] calls is made (any keys, with or
    without [useCache], failing or not), a cache that holds at most 50 entries
    under distinct keys still does afterwards. *)
Theorem parse_cache_never_exceeds_its_limit {R : Type}
    (cs : list (bool * string * ParseCache.analysis R)) (cache : list (string * R)) :
  (List.length cache <= ParseCache.MAX_CACHE_SIZE)%nat ->
  List.NoDup (map fst cache) ->
  (List.length (ParseCache.calls R cs cache) <= 50)%nat
  /\ List.NoDup (map fst (ParseCache.calls R cs cache)).
Proof.
  unfold ParseCache.calls. revert cache.
  induction cs as [|[[useCache key] run] cs IH]; intros cache Hlen Hnd; simpl; [done|].
  apply IH; [by apply CacheFacts.analyzeCSS_length|by apply CacheFacts.analyzeCSS_NoDup].
Qed.

Lemma parse_cache_never_exceeds_its_limit_witness :
  (List.length (ParseCache.calls nat
     (map (fun n => (true, String (Ascii.ascii_of_nat n) EmptyString, ParseCache.Analysed nat n))
          (seq 40 60))
     [("a.css:{}"%string, 1); ("b.css:{}"%string, 2)]) <= 50)%nat
  /\ List.NoDup (map fst (ParseCache.calls nat
     (map (fun n => (true, String (Ascii.ascii_of_nat n) EmptyString, ParseCache.Analysed nat n))
          (seq 40 60))
     [("a.css:{}"%string, 1); ("b.css:{}"%string, 2)])).
Proof.
  apply (@parse_cache_never_exceeds_its_limit nat).
  - vm_compute. lia.
  - simpl. constructor; [intros [H|[]]; discriminate H|].
    constructor; [intros []|constructor].
Defined.

(** X6. A cached result is served as is: once a call with [useCache] has
    returned for a key, the next call with that key returns the same value
    and leaves the cache alone, whatever its own read and parse would have
    produced.  A call that fails (empty or unreadable file, parse error)
    stores nothing, and a call without [useCache] neither reads nor writes
    the cache. *)
Theorem parse_cache_serves_the_first_successful_result {R : Type}
    (key : string) (result : R) (later : ParseCache.analysis R)
    (cache : list (string * R)) :
  (let first := ParseCache.analyzeCSS R true key (ParseCache.Analysed R result) cache in
   ParseCache.analyzeCSS R true key later (snd first) = first)
  /\ (forall useCache errorResult,
        snd (ParseCache.analyzeCSS R useCache key (ParseCache.Failed R errorResult) cache)
        = cache)
  /\ (forall run,
        ParseCache.analyzeCSS R false key run cache
        = (match run with
           | ParseCache.Failed _ errorResult => errorResult
           | ParseCache.Analysed _ fresh => fresh
           end, cache)).
Proof.
  split; [|split].
  - unfold ParseCache.analyzeCSS.
    destruct (ParseCache.get R key cache) as [cached|] eqn:Hget; simpl.
    + by rewrite Hget.
    + by rewrite CacheFacts.get_store_same.
  - intros useCache errorResult. unfold ParseCache.analyzeCSS.
    by destruct (if useCache then ParseCache.get R key cache else None).
  - intros run. unfold ParseCache.analyzeCSS. by destruct run.
Qed.

(** X7. Eviction is first in, first out.  Storing a new key in a full
    cache (50 entries under distinct keys) drops exactly the entry that was
    inserted first and appends the new one; the key dropped is no longer
    found, every other key keeps its value; a hit in between does not
    save an entry from eviction, since a hit leaves the cache unchanged. *)
Theorem parse_cache_evicts_the_oldest_key {R : Type}
    (firstKey key : string) (first result : R) (rest : list (string * R)) :
  List.length ((firstKey, first) :: rest) = ParseCache.MAX_CACHE_SIZE ->
  List.NoDup (map fst ((firstKey, first) :: rest)) ->
  ParseCache.get R key ((firstKey, first) :: rest) = None ->
  let cache' :=
    snd (ParseCache.analyzeCSS R true key (ParseCache.Analysed R result)
           ((firstKey, first) :: rest)) in
  cache' = (rest ++ [(key, result)])%list
  /\ ParseCache.get R firstKey cache' = None
  /\ (forall k, k <> firstKey -> k <> key ->
        ParseCache.get R k cache' = ParseCache.get R k ((firstKey, first) :: rest))
  /\ (forall run,
        snd (ParseCache.analyzeCSS R true firstKey run ((firstKey, first) :: rest))
        = (firstKey, first) :: rest).
Proof.
  intros Hlen Hnd Hget cache'.
  assert (Hkey : firstKey <> key).
  { intros ->. simpl in Hget. by rewrite String.eqb_refl in Hget. }
  assert (Hrest : ParseCache.get R key rest = None).
  { simpl in Hget. by destruct (String.eqb_spec firstKey key). }
  assert (Hc : cache' = (rest ++ [(key, result)])%list).
  { unfold cache', ParseCache.analyzeCSS. rewrite Hget. simpl snd.
    unfold ParseCache.store. rewrite Hlen, Nat.leb_refl.
    simpl ParseCache.delete. rewrite String.eqb_refl.
    by apply CacheFacts.set_absent. }
  split; [done|]. rewrite Hc.
  assert (Hset : (rest ++ [(key, result)])%list = ParseCache.set R key result rest)
    by (symmetry; by apply CacheFacts.set_absent).
  split; [|split].
  - rewrite Hset, CacheFacts.get_set_other by done.
    apply CacheFacts.get_None. by inversion Hnd.
  - intros k Hk1 Hk2. rewrite Hset, CacheFacts.get_set_other by done.
    simpl. by destruct (String.eqb_spec firstKey k).
  - intros run. unfold ParseCache.analyzeCSS. simpl. by rewrite String.eqb_refl.
Qed.

Lemma parse_cache_evicts_the_oldest_key_witness :
  let full := map (fun n => (String (Ascii.ascii_of_nat n) EmptyString, n)) (seq 49 49) in
  snd (ParseCache.analyzeCSS nat true "z" (ParseCache.Analysed nat 7) (("0"%string, 48) :: full))
  = (full ++ [("z"%string, 7)])%list.
Proof.
  apply (@parse_cache_evicts_the_oldest_key nat "0" "z" 48 7
           (map (fun n => (String (Ascii.ascii_of_nat n) EmptyString, n)) (seq 49 49))).
  - reflexivity.
  - apply NoDup_ListNoDup, (bool_decide_unpack _). vm_compute. exact I.
  - reflexivity.
Defined.

(** X8. [parseProperties] reads the first block in braces and nothing
    else: when the text before the first opening brace holds none, and the
    block body is not empty and holds no closing brace, the selector in
    front and everything after the closing brace are ignored.  A nested rule
    inside the block is not a block of its own: its text is read as part of
    a declaration. *)
Theorem parseProperties_reads_only_the_first_block (pre body post : string) :
  JsString.charIn pre "{" = false ->
  body <> EmptyString ->
  JsString.charIn body "}" = false ->
  SpecificityCalculator.parseProperties (pre ++ "{" ++ body ++ "}" ++ post)
  = SpecificityCalculator.parseProperties body.
Proof.
  intros Hpre Hbody Hclose. unfold SpecificityCalculator.parseProperties.
  change (pre ++ "{" ++ body ++ "}" ++ post)
    with (pre ++ String "{" (body ++ String "}" post)).
  rewrite PropertyFacts.braceMatch_first by done.
  by rewrite PropertyFacts.braceMatch_lacks_close.
Qed.

Lemma parseProperties_reads_only_the_first_block_witness :
  SpecificityCalculator.parseProperties
    (".a:hover " ++ "{" ++ " color: red; .b { color: blue " ++ "}" ++ " } .c { margin: 0 }")
  = SpecificityCalculator.parseProperties " color: red; .b { color: blue "
  /\ SpecificityCalculator.parseProperties " color: red; .b { color: blue "
     = [("color", "red"); (".b { color", "blue")].
Proof.
  split; [|reflexivity].
  apply (parseProperties_reads_only_the_first_block
           ".a:hover " " color: red; .b { color: blue " " } .c { margin: 0 }");
    [reflexivity | discriminate | reflexivity].
Defined.

(** X9. Whatever the text, the object [parseProperties] builds is well
    formed: no property name occurs twice; every name and every value is
    non-empty and trimmed; no name holds a colon; neither holds a
    semicolon. *)
Theorem parseProperties_entries_are_clean (content : string) :
  List.NoDup (map fst (SpecificityCalculator.parseProperties content))
  /\ Forall Readings.cleanEntry (SpecificityCalculator.parseProperties content).
Proof. apply PropertyFacts.parseProperties_clean. Qed.

(** X10. A later declaration overrides an earlier one.  Appending
    [; name : val] to a body (no closing brace anywhere; no colon or
    semicolon in the name, no semicolon in the value, both non-blank) sets
    the trimmed name to the trimmed value: the name reads as the new value,
    every other name reads as before, and a name already present keeps its
    place among the keys while a new one goes last.  The name is not
    [__proto__], the one key that an assignment to a plain object does not
    store. *)
Theorem parseProperties_later_declaration_overrides (body name val : string) :
  JsString.charIn (body ++ ";" ++ name ++ ":" ++ val) "}" = false ->
  JsString.charIn name ":" = false ->
  JsString.charIn name ";" = false ->
  JsString.charIn val ";" = false ->
  JsString.trim name <> EmptyString ->
  JsString.trim name <> "__proto__" ->
  JsString.trim val <> EmptyString ->
  let before := SpecificityCalculator.parseProperties body in
  let after := SpecificityCalculator.parseProperties (body ++ ";" ++ name ++ ":" ++ val) in
  after = SpecificityCalculator.setProperty (JsString.trim name) (JsString.trim val) before
  /\ Readings.getProperty (JsString.trim name) after = Some (JsString.trim val)
  /\ (forall other, other <> JsString.trim name ->
        Readings.getProperty other after = Readings.getProperty other before)
  /\ map fst after
     = match Readings.getProperty (JsString.trim name) before with
       | Some _ => map fst before
       | None => (map fst before ++ [JsString.trim name])%list
       end.
Proof.
  intros Hclose Hcolon Hsemi Hvsemi Hname _ Hval before after.
  assert (Hbody : JsString.charIn body "}" = false).
  { rewrite ResolverFacts.charIn_app in Hclose. by apply orb_false_iff in Hclose as [? _]. }
  assert (Hafter : after = SpecificityCalculator.setProperty
                             (JsString.trim name) (JsString.trim val) before).
  { unfold after, before, SpecificityCalculator.parseProperties.
    rewrite (PropertyFacts.braceMatch_lacks_close _ Hclose),
            (PropertyFacts.braceMatch_lacks_close _ Hbody).
    change (body ++ ";" ++ name ++ ":" ++ val)
      with (body ++ String ";" (name ++ String ":" val)).
    rewrite TextFacts.split_app, fold_left_app.
    rewrite (TextFacts.split_lacks_sep ";" (name ++ String ":" val)).
    2: { rewrite ResolverFacts.charIn_app. simpl. by rewrite Hsemi, Hvsemi. }
    simpl fold_left at 1.
    unfold SpecificityCalculator.addDeclaration at 1.
    rewrite TextFacts.cutAt_app by done.
    destruct name as [|c name]; [done|].
    destruct (String.eqb_spec (JsString.trim (String c name)) EmptyString); [done|].
    by destruct (String.eqb_spec (JsString.trim val) EmptyString). }
  split; [done|]. rewrite Hafter. split; [|split].
  - apply PropertyFacts.getProperty_setProperty_same.
  - intros other Hne. by apply PropertyFacts.getProperty_setProperty_other.
  - apply PropertyFacts.keys_setProperty.
Qed.

Lemma parseProperties_later_declaration_overrides_witness :
  SpecificityCalculator.parseProperties
    ("color: red; margin: 0" ++ ";" ++ " color " ++ ":" ++ " blue !important ")
  = [("color", "blue !important"); ("margin", "0")].
Proof.
  pose proof (parseProperties_later_declaration_overrides
                "color: red; margin: 0" " color " " blue !important "
                eq_refl eq_refl eq_refl eq_refl) as H.
  destruct H as [H _]; [discriminate | discriminate | discriminate |].
  rewrite H. reflexivity.
Defined.




(** X14. [checkRuleMatch] reports ["data-attr: A"] exactly when [A] is a
    data attribute of the target and the selector, as written or expanded,
    contains [[A] closed by [[]], by [=], or by one of [~ | ^ $ *] and
    [=]: the attribute in any attribute selector, whatever the value
    compared with. *)
Theorem data_attr_reason_iff_attribute_selector
    (info : Css.targetInfo) (sel attr : string) :
  ("data-attr: " ++ attr)
    ∈ CssAnalyzer.reasons
        (CssAnalyzer.checkRuleMatch sel (CssAnalyzer.buildTargetSelectors info) info)
  <-> attr ∈ Css.dataAttributes info
      /\ (Occurrences.attrOccurs attr sel
          \/ Occurrences.attrOccurs attr (CssAnalyzer.expandModernPseudoClasses sel)).
Proof.
  rewrite ReasonFacts.reason_iff. split.
  - intros (t & Hin & Hr & Ht).
    apply ReasonFacts.targets_cases in Hin
      as [(c & Hc & ->) | [(c & Hc & ->) | [[_ ->] | (c & Hc & ->)]]];
      simpl in Hr; try discriminate Hr.
    injection Hr as ->. split; [done|]. simpl in Ht.
    apply orb_true_iff in Ht. by rewrite !ReasonFacts.test_dataAttrPattern in Ht.
  - intros [Hattr Hocc].
    exists {| CssAnalyzer.type := "data-attr"; CssAnalyzer.value := attr;
              CssAnalyzer.pattern := CssAnalyzer.dataAttrPattern attr |}.
    split; [apply ReasonFacts.targets_cases; eauto 8|]. split; [done|]. simpl.
    apply orb_true_iff. by rewrite !ReasonFacts.test_dataAttrPattern.
Qed.

(** X15. The tag name counts only for a target that has a class or an id:
    [checkRuleMatch] reports ["tag: T"] exactly when the target has at least
    one class or id, [T] is its tag name, and the selector, as written or
    expanded, contains [T] between the start or one of white space, [,],
    [>], [+], [~] and the end or one of white space, [,], [:], [.], [[],
    [#], [>], [+], [~].  For a target with no class and no id a rule on the
    bare tag is never a match by tag. *)
Theorem tag_reason_needs_a_class_or_an_id (info : Css.targetInfo) (sel tag : string) :
  ("tag: " ++ tag)
    ∈ CssAnalyzer.reasons
        (CssAnalyzer.checkRuleMatch sel (CssAnalyzer.buildTargetSelectors info) info)
  <-> (Css.classes info <> [] \/ Css.ids info <> [])
      /\ tag = Css.tagName info
      /\ (Occurrences.tagOccurs tag sel
          \/ Occurrences.tagOccurs tag (CssAnalyzer.expandModernPseudoClasses sel)).
Proof.
  rewrite ReasonFacts.reason_iff. split.
  - intros (t & Hin & Hr & Ht).
    apply ReasonFacts.targets_cases in Hin
      as [(c & Hc & ->) | [(c & Hc & ->) | [[Hg ->] | (c & Hc & ->)]]];
      simpl in Hr; try discriminate Hr.
    injection Hr as ->. split; [done|]. split; [done|]. simpl in Ht.
    apply orb_true_iff in Ht. by rewrite !ReasonFacts.test_tagPattern in Ht.
  - intros (Hg & -> & Hocc).
    exists {| CssAnalyzer.type := "tag"; CssAnalyzer.value := Css.tagName info;
              CssAnalyzer.pattern := CssAnalyzer.tagPattern (Css.tagName info) |}.
    split; [apply ReasonFacts.targets_cases; eauto 8|]. split; [done|]. simpl.
    apply orb_true_iff. by rewrite !ReasonFacts.test_tagPattern.
Qed.

(** X16. The test of a target pattern on the selector as written is
    redundant: the expansion keeps the selector in front and appends only
    text that begins with a space, so whatever a pattern of
    [buildTargetSelectors] finds in the selector it finds in the expansion.
    [checkRuleMatch] gives the reasons of the test on the expansion alone. *)
Theorem match_on_the_expansion_alone_decides (info : Css.targetInfo) (sel : string) :
  (exists suffix,
      CssAnalyzer.expandModernPseudoClasses sel = sel ++ suffix
      /\ Occurrences.spaceLed suffix)
  /\ CssAnalyzer.reasons
       (CssAnalyzer.checkRuleMatch sel (CssAnalyzer.buildTargetSelectors info) info)
     = Occurrences.reasonsExpanded sel (CssAnalyzer.buildTargetSelectors info).
Proof.
  split; [apply ReasonFacts.expand_prefix|].
  unfold CssAnalyzer.checkRuleMatch, Occurrences.reasonsExpanded. simpl.
  apply ReasonFacts.omap_ext_in. intros t Hin.
  pose proof (ReasonFacts.test_expanded info t sel Hin) as Hext.
  destruct (Regex.test (CssAnalyzer.pattern t) sel); simpl; [by rewrite Hext|done].
Qed.

(** X17. [expandModernPseudoClasses] returns the selector followed by the
    captures of [:is(...)], [:where(...)], [:not(...)] and [:has(...)],
    each behind one space: first all those of [:is], then of [:where],
    [:not] and [:has], not in the order of the text.  Every capture is the
    non-empty text between the opening parenthesis of such a call in the
    selector and the next closing parenthesis, so a capture is cut short at
    the first [)] of a nested call.  A selector with no opening parenthesis
    is returned as it is. *)
Theorem expansion_appends_the_captures_by_function (sel : string) :
  CssAnalyzer.expandModernPseudoClasses sel
  = sel ++ Expansion.appended (Expansion.allInners sel)
  /\ Forall (fun inner =>
               inner <> EmptyString
               /\ JsString.charIn inner ")" = false
               /\ exists func, func ∈ CssAnalyzer.pseudoFunctions
                               /\ Expansion.calls func inner sel)
            (Expansion.allInners sel)
  /\ (JsString.charIn sel "(" = true \/ CssAnalyzer.expandModernPseudoClasses sel = sel).
Proof.
  split; [apply ExpansionFacts.expand_appended|]. split.
  - apply Forall_forall. intros inner Hin.
    unfold Expansion.allInners in Hin.
    apply list_elem_of_In, in_flat_map in Hin as (func & Hf & Hin).
    apply list_elem_of_In in Hin.
    apply ExpansionFacts.innerSelectors_calls in Hin as (Hcall & Hne & Hl).
    split; [done|]. split; [done|]. exists func. split; [by apply list_elem_of_In | done].
  - destruct (JsString.charIn sel "(") eqn:Hp; [by left|]. right.
    rewrite ExpansionFacts.expand_appended. unfold Expansion.allInners.
    unfold CssAnalyzer.pseudoFunctions. simpl.
    rewrite !ExpansionFacts.innerSelectors_needs_paren by done.
    simpl. by rewrite TextFacts.app_empty_r.
Qed.

(** X18. The report of [checkShadowDOMMatch] is coherent: it is a match
    exactly when it gives a reason, and it names a type exactly then; it
    gives at most three reasons, each one a part name, the note on the shadow
    host, or a slotted selector; the type is [::slotted] whenever the slotted
    half gave a reason, whatever the part half did; and a selector that
    contains neither [::part(] nor [::slotted(] is no match. *)
Theorem shadow_report_is_coherent (sel : string) (info : Css.targetInfo) :
  let r := ShadowDom.checkShadowDOMMatch sel info in
  (ShadowDom.isMatch r = true <-> ShadowDom.matchedOn r <> [])
  /\ (ShadowDom.kind r = None <-> ShadowDom.matchedOn r = [])
  /\ (List.length (ShadowDom.matchedOn r) <= 3)%nat
  /\ Forall (fun reason =>
               JsString.startsWith reason "part: " = true
               \/ reason = "shadow-host with part"
               \/ JsString.startsWith reason "slotted: " = true)
            (ShadowDom.matchedOn r)
  /\ (ShadowDom.slottedReasons sel info = [] \/ ShadowDom.kind r = Some "::slotted")
  /\ (JsString.includes sel "::part(" = true \/ JsString.includes sel "::slotted(" = true
      \/ r = {| ShadowDom.isMatch := false; ShadowDom.matchedOn := [];
                ShadowDom.kind := None |}).
Proof.
  intros r. unfold r, ShadowDom.checkShadowDOMMatch. simpl.
  set (P := fun reason : string =>
              JsString.startsWith reason "part: " = true
              \/ reason = "shadow-host with part"
              \/ JsString.startsWith reason "slotted: " = true).
  assert (Hp : forall x, P ("part: " ++ x)).
  { intros x. unfold P. left. simpl. apply ResolverFacts.startsWith_empty. }
  assert (Hh : P "shadow-host with part") by (unfold P; right; by left).
  assert (Hs : forall x, P ("slotted: " ++ x)).
  { intros x. unfold P. right. right. simpl. apply ResolverFacts.startsWith_empty. }
  assert (Hparts : (List.length (ShadowDom.partReasons sel info) <= 2)%nat
                   /\ Forall (fun reason =>
                                JsString.startsWith reason "part: " = true
                                \/ reason = "shadow-host with part"
                                \/ JsString.startsWith reason "slotted: " = true)
                             (ShadowDom.partReasons sel info)).
  { unfold ShadowDom.partReasons.
    destruct (JsString.includes sel "::part("); [|split; [simpl; lia | constructor]].
    destruct (ShadowDom.firstCapture "::part(" sel) as [captured|];
      [|split; [simpl; lia | constructor]].
    destruct (bool_decide _), (existsb _ _); simpl; (split; [lia|]);
      repeat first [apply List.Forall_nil
                   | apply List.Forall_cons; [first [apply Hp | apply Hh]|]]. }
  assert (Hslotted : (List.length (ShadowDom.slottedReasons sel info) <= 1)%nat
                     /\ Forall (fun reason =>
                                  JsString.startsWith reason "part: " = true
                                  \/ reason = "shadow-host with part"
                                  \/ JsString.startsWith reason "slotted: " = true)
                               (ShadowDom.slottedReasons sel info)).
  { unfold ShadowDom.slottedReasons.
    destruct (JsString.includes sel "::slotted("); [|split; [simpl; lia | constructor]].
    destruct (ShadowDom.firstCapture "::slotted(" sel) as [captured|];
      [|split; [simpl; lia | constructor]].
    destruct (existsb _ _); simpl; (split; [lia|]);
      repeat first [apply List.Forall_nil | apply List.Forall_cons; [apply Hs|]]. }
  destruct Hparts as [Hplen Hpall], Hslotted as [Hslen Hsall].
  split; [|split; [|split; [|split; [|split]]]].
  - destruct (ShadowDom.partReasons sel info), (ShadowDom.slottedReasons sel info);
      simpl; split; done.
  - destruct (ShadowDom.partReasons sel info), (ShadowDom.slottedReasons sel info);
      simpl; split; done.
  - rewrite length_app. lia.
  - apply Forall_app. by split.
  - destruct (ShadowDom.slottedReasons sel info); [by left | by right].
  - unfold ShadowDom.partReasons, ShadowDom.slottedReasons.
    destruct (JsString.includes sel "::part("); [by left|].
    destruct (JsString.includes sel "::slotted("); [right; by left|].
    right. by right.
Qed.

(** X19. The note [shadow-host with part] rests on a substring test over
    the whole selector, the text [::part(] included.  A target with an
    identifier (class, id or tag name) that is a piece of the text
    [::part(], such as the tag [p] or [a], therefore matches every selector
    that has a [::part(...)] with a non-empty argument. *)
Theorem shadow_host_matches_by_substring
    (info : Css.targetInfo) (id pre inner post : string) :
  id ∈ (Css.classes info ++ Css.ids info ++ [Css.tagName info])%list ->
  id <> EmptyString ->
  JsString.includes "::part(" id = true ->
  inner <> EmptyString ->
  JsString.charIn inner ")" = false ->
  let r := ShadowDom.checkShadowDOMMatch (pre ++ "::part(" ++ inner ++ ")" ++ post) info in
  ShadowDom.isMatch r = true
  /\ "shadow-host with part" ∈ ShadowDom.matchedOn r
  /\ ShadowDom.kind r <> None.
Proof.
  intros Hid Hne Hpiece Hinner Hl r.
  set (sel := pre ++ "::part(" ++ inner ++ ")" ++ post) in *.
  assert (Hinc : JsString.includes sel "::part(" = true).
  { apply TextFacts.includes_spec. by exists pre, (inner ++ ")" ++ post). }
  assert (Hhost : "shadow-host with part" ∈ ShadowDom.partReasons sel info).
  { unfold ShadowDom.partReasons. rewrite Hinc.
    destruct (ShadowFacts.firstCapture_found "::part(" pre inner post Hinner Hl)
      as [found Hfound].
    change (pre ++ "::part(" ++ inner ++ String ")" post) with sel in Hfound.
    rewrite Hfound.
    rewrite (ShadowFacts.existsb_elem _ _ id Hid).
    - apply elem_of_app. right. apply list_elem_of_here.
    - apply andb_true_iff. split.
      + by destruct (String.eqb_spec id EmptyString).
      + by apply (TextFacts.includes_trans sel "::part(" id). }
  assert (Hin : "shadow-host with part" ∈ ShadowDom.matchedOn r).
  { unfold r, ShadowDom.checkShadowDOMMatch. simpl. apply elem_of_app. by left. }
  split; [|split; [done|]].
  - unfold r, ShadowDom.checkShadowDOMMatch in *. simpl in *.
    destruct (ShadowDom.partReasons sel info ++ ShadowDom.slottedReasons sel info)%list;
      [by apply elem_of_nil in Hin | done].
  - unfold r, ShadowDom.checkShadowDOMMatch. simpl.
    destruct (ShadowDom.partReasons sel info); [by apply elem_of_nil in Hhost|].
    by destruct (ShadowDom.slottedReasons sel info).
Qed.

Lemma shadow_host_matches_by_substring_witness :
  ShadowDom.isMatch
    (ShadowDom.checkShadowDOMMatch ("x-card" ++ "::part(" ++ "title" ++ ")" ++ ":hover")
       {| Css.classes := []; Css.ids := []; Css.tagName := "p";
          Css.dataAttributes := []; Css.shadowParts := [] |}) = true.
Proof.
  apply (shadow_host_matches_by_substring
           {| Css.classes := []; Css.ids := []; Css.tagName := "p";
              Css.dataAttributes := []; Css.shadowParts := [] |}
           "p" "x-card" "title" ":hover").
  - simpl. apply list_elem_of_here.
  - discriminate.
  - reflexivity.
  - discriminate.
  - reflexivity.
Defined.

(** X20. The defined classes, exactly.  For a target with at least one
    class, [definedClasses] lists, each once, the names that some match of the
    custom or library results contributes (the dotted name read from a
    [class:] reason, or a class of the target that the selector text
    contains) and the classes of the target that the text of an inline style
    contains; nothing else is in it. *)
Theorem defined_classes_are_exactly_the_contributions
    (info : Css.targetInfo) (cssResults cssLibraryResults : list Css.cssResult)
    (inlineStyles : list Css.inlineStyle) (x : string) :
  Css.classes info <> [] ->
  let defined :=
    GhostDetector.definedClasses
      (GhostDetector.detectGhostClasses info cssResults cssLibraryResults inlineStyles) in
  (x ∈ defined <->
   Defined.fromResults (Css.classes info) cssResults x
   \/ Defined.fromResults (Css.classes info) cssLibraryResults x
   \/ Defined.fromInline (Css.classes info) inlineStyles x)
  /\ NoDup defined.
Proof.
  intros Hne defined. unfold defined. rewrite GhostFacts.definedClasses_spec by done.
  split; [apply DefinedFacts.collectDefined_iff | apply DefinedFacts.collectDefined_NoDup].
Qed.

Lemma defined_classes_are_exactly_the_contributions_witness :
  ".card" ∈ GhostDetector.definedClasses
              (GhostDetector.detectGhostClasses Examples.card Examples.cardResults [] []).
Proof.
  apply (defined_classes_are_exactly_the_contributions
           Examples.card Examples.cardResults [] [] ".card"); [discriminate|].
  left. vm_compute.
  eexists _, _. split; [apply list_elem_of_here|]. split; [apply list_elem_of_here|].
  left. eexists. split; [apply list_elem_of_here|]. split; reflexivity.
Defined.

(** X21. The ghosts depend on the style sheets only through what they
    contribute.  It makes no difference whether a result is passed as custom
    or as library CSS: swapping the two lists, or passing them as one, gives
    the same ghost classes.  And more CSS never makes more ghosts: every
    ghost reported with further results added was a ghost without them. *)
Theorem ghosts_ignore_the_custom_library_split
    (info : Css.targetInfo) (cssResults cssLibraryResults more : list Css.cssResult)
    (inlineStyles : list Css.inlineStyle) :
  let ghosts := fun custom library =>
    GhostDetector.ghostClasses
      (GhostDetector.detectGhostClasses info custom library inlineStyles) in
  ghosts cssLibraryResults cssResults = ghosts cssResults cssLibraryResults
  /\ ghosts (cssResults ++ cssLibraryResults)%list [] = ghosts cssResults cssLibraryResults
  /\ Forall (fun cls => cls ∈ ghosts cssResults cssLibraryResults)
            (ghosts (cssResults ++ more)%list cssLibraryResults).
Proof.
  intros ghosts. unfold ghosts, GhostDetector.detectGhostClasses.
  destruct (Nat.eqb (List.length (Css.classes info)) 0); simpl;
    [split; [done | split; [done | constructor]]|].
  split; [|split].
  - apply DefinedFacts.ghosts_ext. intros x.
    rewrite !DefinedFacts.collectDefined_iff. tauto.
  - apply DefinedFacts.ghosts_ext. intros x.
    rewrite !DefinedFacts.collectDefined_iff, DefinedFacts.fromResults_app.
    pose proof (DefinedFacts.fromResults_nil (Css.classes info) x). tauto.
  - apply Forall_forall. intros cls Hin.
    apply list_elem_of_In, filter_In in Hin as [Hcls Hghost].
    apply list_elem_of_In, filter_In. split; [done|].
    apply GhostFacts.isGhost_true in Hghost as (Hdot & Hplain & Hutil).
    apply GhostFacts.isGhost_true.
    rewrite !DefinedFacts.collectDefined_iff in *.
    rewrite !DefinedFacts.fromResults_app in *. tauto.
Qed.

(** X22. The utility table looks at the start of a class name only: none
    of its patterns reads the end of the name.  So every name that begins
    with a name the table accepts is accepted as well, and is never
    reported as a ghost, whatever the style sheets hold: with [flex] go
    [flexible-banner] and every other name that starts with it. *)
Theorem utility_filter_accepts_every_extension (cls suffix : string) :
  GhostDetector.isUtility cls = true ->
  GhostDetector.isUtility (cls ++ suffix) = true
  /\ forall info cssResults cssLibraryResults inlineStyles,
       (cls ++ suffix)
         ∉ GhostDetector.ghostClasses
             (GhostDetector.detectGhostClasses info cssResults cssLibraryResults inlineStyles).
Proof.
  intros Hutil.
  pose proof (UtilityFacts.isUtility_extend cls suffix Hutil) as Hext.
  split; [done|]. intros info cssResults cssLibraryResults inlineStyles Hin.
  apply GhostFacts.ghostClasses_spec in Hin as [_ Hghost].
  apply GhostFacts.isGhost_true in Hghost as (_ & _ & Hno). congruence.
Qed.

Lemma utility_filter_accepts_every_extension_witness :
  GhostDetector.isUtility ("flex" ++ "ible-banner") = true.
Proof.
  apply (utility_filter_accepts_every_extension "flex" "ible-banner"). reflexivity.
Defined.

(** X23. A chain of nested rules whose selectors hold no [&] and no comma
    resolves to the descendant selector: the selectors from the outermost
    rule to the innermost one, joined by single spaces.  The chain starts
    at the root or at an at-rule: the selectors of rules that stand above an
    at-rule take no part in the result. *)
Theorem plain_chain_resolves_to_the_descendant_selector
    (outer : CssAnalyzer.node) (sels : list string) :
  Nesting.notRule outer ->
  sels <> [] ->
  Forall Nesting.plain sels ->
  CssAnalyzer.resolveNestedSelector (Nesting.nest outer sels) = JsString.join " " sels.
Proof. apply ChainFacts.resolve_chain. Qed.

Lemma plain_chain_resolves_to_the_descendant_selector_witness :
  CssAnalyzer.resolveNestedSelector
    (Nesting.nest (CssAnalyzer.AtRule "media" "print" (CssAnalyzer.Rule ".page" CssAnalyzer.Root))
       [".card"; ".title"; "span"])
  = ".card .title span".
Proof.
  apply (plain_chain_resolves_to_the_descendant_selector
           (CssAnalyzer.AtRule "media" "print" (CssAnalyzer.Rule ".page" CssAnalyzer.Root))
           [".card"; ".title"; "span"]).
  - exact I.
  - discriminate.
  - repeat (apply List.Forall_cons; [split; reflexivity|]). apply List.Forall_nil.
Defined.


(** X25. [detectMinified] holds exactly when the content has more than 200
    characters for each of its lines: the test on the ratio of lines to
    length never decides, since fewer than one line in 500 characters is
    already more than 200 characters a line.  The empty content is not
    minified. *)
Theorem minified_means_over_200_characters_a_line (content : string) :
  Minified.detectMinified content
  = Nat.ltb (200 * Minified.lineCount content) (String.length content)
  /\ Minified.detectMinified content = Minified.avgAbove content
  /\ Minified.ratioBelow content
     = Nat.ltb (500 * Minified.lineCount content) (String.length content)
  /\ Minified.detectMinified EmptyString = false.
Proof.
  pose proof (MinifiedFacts.lineCount_pos content) as Hpos.
  pose proof (MinifiedFacts.avgAbove_spec content) as Havg.
  pose proof (MinifiedFacts.ratioBelow_spec content) as Hratio.
  assert (Hd : Minified.detectMinified content = Minified.avgAbove content).
  { unfold Minified.detectMinified.
    destruct (Nat.eqb_spec (Minified.lineCount content) 0) as [Hz|_]; [lia|].
    rewrite Havg, Hratio.
    destruct (Nat.ltb_spec (200 * Minified.lineCount content) (String.length content));
      destruct (Nat.ltb_spec (500 * Minified.lineCount content) (String.length content));
      simpl; try done; lia. }
  split; [by rewrite Hd|]. split; [done|]. split; [done | reflexivity].
Qed.

(** X26. [formatConflictsMarkdown] changes its argument: [losers.reverse()]
    reverses the array of each decision in place.  After one call the
    [losers] of a decision of [analyzeConflicts] stand closest competitor
    first; a second call on the same object prints the losers weakest first
    and puts the object back as it was. *)
Theorem formatting_reverses_the_losers_in_place
    (calculate : string -> Css.outcome (option SpecificityLib.abc))
    (cssResults : list Css.cssResult) (linked : list string)
    (prop : string) (d : SpecificityCalculator.decision) :
  SpecificityCalculator.analyzeConflicts calculate cssResults linked !! prop = Some d ->
  let conflicts := SpecificityCalculator.analyzeConflicts calculate cssResults linked in
  let once := ConflictReport.afterFormat conflicts in
  once !! prop = Some (ConflictReport.reverseLosers d)
  /\ Statements.closestFirst
       (SpecificityCalculator.losers (ConflictReport.reverseLosers d))
  /\ ConflictReport.printedRows d
     = SpecificityCalculator.winner d
         :: SpecificityCalculator.losers (ConflictReport.reverseLosers d)
  /\ ConflictReport.printedRows (ConflictReport.reverseLosers d)
     = SpecificityCalculator.winner d :: SpecificityCalculator.losers d
  /\ ConflictReport.afterFormat once = conflicts.
Proof.
  intros Hd conflicts once.
  pose proof Hd as Hd'.
  apply CascadeFacts.analyze_lookup in Hd' as (rules & Hl & Hdec).
  destruct (GroupingFacts.groupRules_grouped calculate linked cssResults prop rules Hl)
    as [Hdecl _].
  destruct (CascadeFacts.decision_ranked rules d Hdecl Hdec) as (_ & Hsorted & Hc).
  apply CascadeFacts.closestLast_snoc_inv in Hsorted as [Hlosers _].
  split; [|split; [|split; [|split]]].
  - unfold once, ConflictReport.afterFormat, conflicts.
    by rewrite lookup_fmap, Hd; simpl; rewrite Hc.
  - simpl. by apply CascadeFacts.closestLast_rev.
  - done.
  - unfold ConflictReport.printedRows. simpl. by rewrite rev_involutive.
  - unfold once, ConflictReport.afterFormat. apply map_eq. intros k.
    rewrite !lookup_fmap. destruct (conflicts !! k) as [[w ls hc]|]; [|done].
    simpl. destruct hc; simpl; [|done].
    unfold ConflictReport.reverseLosers. simpl. by rewrite rev_involutive.
Qed.

Lemma formatting_reverses_the_losers_in_place_witness :
  ConflictReport.printedRows Examples.colorDecision
  = [Examples.blueRule; Examples.greenRule; Examples.redRule]
  /\ ConflictReport.printedRows (ConflictReport.reverseLosers Examples.colorDecision)
     = [Examples.blueRule; Examples.redRule; Examples.greenRule].
Proof.
  assert (SpecificityCalculator.analyzeConflicts SpecificityLib.calculate
            Examples.threeFiles Examples.threeLinked !! "color"
          = Some Examples.colorDecision) as Hd by (vm_compute; reflexivity).
  destruct (formatting_reverses_the_losers_in_place SpecificityLib.calculate
              Examples.threeFiles Examples.threeLinked "color" Examples.colorDecision Hd)
    as (_ & _ & Hfirst & Hsecond & _).
  split; [exact Hfirst | exact Hsecond].
Defined.

(** X27. From the matcher to the ghost detector.  A match that the walk of
    [analyzeCSS] pushes for a rule carries the resolved selector and at
    least one reason, and its end line is 0 only if its start line is.  When
    such a match, handed on to [detectGhostClasses] among the custom or the
    library results, was matched on the class [cls], the ghost detector reads
    the name back from the reason and does not report [cls]: [cls] being a
    trimmed name that does not begin with a dot and does not contain the
    text [class:]. *)
Theorem matched_class_is_never_a_ghost
    (info : Css.targetInfo) (rule : CssAnalyzer.node) (ruleContent : string)
    (startPos endPos : option nat) (m : Css.cssMatch)
    (result : Css.cssResult) (cssResults cssLibraryResults : list Css.cssResult)
    (inlineStyles : list Css.inlineStyle) (cls : string) :
  Walk.visitRule info rule ruleContent startPos endPos = Some m ->
  result ∈ cssResults \/ result ∈ cssLibraryResults ->
  m ∈ Css.matches result ->
  ("class: " ++ cls) ∈ Css.matchedOn m ->
  JsString.trim cls = cls ->
  JsString.startsWith cls "." = false ->
  JsString.includes cls "class:" = false ->
  (Css.selector m = CssAnalyzer.resolveNestedSelector rule
   /\ Css.matchedOn m <> []
   /\ (Css.endLine m <> 0 \/ Css.startLine m = 0))
  /\ cls ∈ Css.classes info
  /\ cls ∉ GhostDetector.ghostClasses
             (GhostDetector.detectGhostClasses info cssResults cssLibraryResults inlineStyles).
Proof.
  intros Hvisit Hresult Hm Hreason Htrim Hdot Hno.
  unfold Walk.visitRule in Hvisit.
  destruct (CssAnalyzer.isMatch _) eqn:His in Hvisit; [|done].
  injection Hvisit as <-.
  cbn [Css.matchedOn Css.selector Css.startLine Css.endLine] in *.
  assert (Hcls : cls ∈ Css.classes info).
  { apply MatcherFacts.reason_class in Hreason. by destruct Hreason. }
  split; [split; [done | split]|split; [done|]].
  - intros Hnil. rewrite Hnil in Hreason. by apply elem_of_nil in Hreason.
  - destruct endPos as [[|e]|], startPos as [[|s]|]; simpl; auto.
  - intros Hghost. apply GhostFacts.ghostClasses_spec in Hghost as [_ Hghost].
    apply GhostFacts.isGhost_true in Hghost as (Hdotted & _ & _).
    apply Hdotted. unfold GhostDetector.className. rewrite Hdot.
    rewrite GhostFacts.definedClasses_spec
      by (intros Hnil; rewrite Hnil in Hcls; by apply elem_of_nil in Hcls).
    apply DefinedFacts.collectDefined_iff.
    assert (Defined.contributes (Css.classes info)
              {| Css.selector := CssAnalyzer.resolveNestedSelector rule;
                 Css.content := ruleContent;
                 Css.matchedOn :=
                   CssAnalyzer.reasons
                     (CssAnalyzer.checkRuleMatch (CssAnalyzer.resolveNestedSelector rule)
                        (CssAnalyzer.buildTargetSelectors info) info);
                 Css.startLine := Walk.lineOr startPos 0;
                 Css.endLine := Walk.lineOr endPos (Walk.lineOr startPos 0) |}
              ("." ++ cls)) as Hcontrib.
    { left. exists ("class: " ++ cls). split; [done|].
      destruct (WalkFacts.class_reason_round_trip cls Hno) as [Hstart Hname].
      split; [done|]. by rewrite Hname, Htrim. }
    destruct Hresult as [Hr|Hr]; [left | right; left]; eexists _, _; eauto.
Qed.

Lemma matched_class_is_never_a_ghost_witness :
  "card" ∉ GhostDetector.ghostClasses
             (GhostDetector.detectGhostClasses
                {| Css.classes := ["card"; "orphan"]; Css.ids := []; Css.tagName := "div";
                   Css.dataAttributes := []; Css.shadowParts := [] |}
                [{| Css.filePath := "site.css";
                    Css.matches :=
                      [{| Css.selector := ".panel .card"; Css.content := ".card { margin: 0 }";
                          Css.matchedOn := ["class: card"];
                          Css.startLine := 7; Css.endLine := 7 |}] |}]
                [] []).
Proof.
  apply (matched_class_is_never_a_ghost
           {| Css.classes := ["card"; "orphan"]; Css.ids := []; Css.tagName := "div";
              Css.dataAttributes := []; Css.shadowParts := [] |}
           (CssAnalyzer.Rule ".card" (CssAnalyzer.Rule ".panel" CssAnalyzer.Root))
           ".card { margin: 0 }" (Some 7) None
           {| Css.selector := ".panel .card"; Css.content := ".card { margin: 0 }";
              Css.matchedOn := ["class: card"];
              Css.startLine := 7; Css.endLine := 7 |}
           {| Css.filePath := "site.css";
              Css.matches :=
                [{| Css.selector := ".panel .card"; Css.content := ".card { margin: 0 }";
                    Css.matchedOn := ["class: card"];
                    Css.startLine := 7; Css.endLine := 7 |}] |}).
  - reflexivity.
  - left. apply list_elem_of_here.
  - apply list_elem_of_here.
  - apply list_elem_of_here.
  - reflexivity.
  - reflexivity.
  - reflexivity.
Defined.

(** X28. An [@keyframes] rule is kept exactly when the content of some
    match found so far contains its name: the further tests for
    [animation-name: NAME] and [animation: NAME] never decide, and an
    at-rule with an empty name is kept as soon as there is any match.  The
    match pushed for it carries the one reason [animation], which the ghost
    detector does not read as a class. *)
Theorem keyframes_are_kept_by_name_alone
    (animationName atRuleContent : string) (startPos endPos : option nat)
    (found : list Css.cssMatch) (defined : list string) :
  Walk.keyframesUsed animationName found
  = existsb (fun m => JsString.includes (Css.content m) animationName) found
  /\ Walk.keyframesUsed EmptyString found = Nat.ltb 0 (List.length found)
  /\ GhostDetector.processMatchedOn defined
       (Css.matchedOn (Walk.keyframesMatch animationName atRuleContent startPos endPos))
     = defined
  /\ (Walk.visitKeyframes animationName atRuleContent startPos endPos found = found
      \/ Walk.visitKeyframes animationName atRuleContent startPos endPos found
         = (found ++ [Walk.keyframesMatch animationName atRuleContent startPos endPos])%list).
Proof.
  split; [|split; [|split]].
  - unfold Walk.keyframesUsed. induction found as [|m rest IH]; [done|].
    cbn [existsb]. rewrite IH. f_equal.
    destruct (JsString.includes (Css.content m) animationName) eqn:Hn; [done|].
    cbn [orb].
    assert (forall lead, JsString.includes (Css.content m) (lead ++ animationName) = false)
      as Hlead.
    { intros lead. destruct (JsString.includes (Css.content m) (lead ++ animationName)) eqn:Hl;
        [|done].
      rewrite <- Hn. symmetry. apply (TextFacts.includes_trans _ _ _ Hl).
      apply TextFacts.includes_spec. exists lead, EmptyString.
      by rewrite TextFacts.app_empty_r. }
    by rewrite (Hlead "animation-name: "), (Hlead "animation: ").
  - unfold Walk.keyframesUsed. destruct found as [|m rest]; [done|].
    cbn [existsb List.length Nat.ltb Nat.leb].
    assert (JsString.includes (Css.content m) EmptyString = true) as ->; [|done].
    apply TextFacts.includes_spec. by exists EmptyString, (Css.content m).
  - reflexivity.
  - unfold Walk.visitKeyframes. destruct (Walk.keyframesUsed animationName found); auto.
Qed.
